(** * Magic UV: copy/paste of UV coordinates (muv_cpuv_ops.py)

    A shallow embedding of the four operators of
    [src/uv_magic_uv/muv_cpuv_ops.py] that the specification talks about:

    - [MUV_CPUVCopyUV.execute]   (face-set capture),
    - [MUV_CPUVPasteUV.execute]  (face-set paste, strategies N:N and N:M),
    - [MUV_CPUVIECopyUV.execute] (UV/Image-editor capture),
    - [MUV_CPUVIEPasteUV.execute] (UV/Image-editor paste with one
      rotation+scale transform).

    and of the two per-object operators and their decorator:

    - [MUV_CPUVObjCopyUV.execute]  (capture of every face of a mesh),
    - [MUV_CPUVObjPasteUV.execute] (paste onto the meshes of the selected
      objects),
    - [memorize_view_3d_mode].

    The host (Blender's bmesh) is modelled by explicit records; every operator
    is a function from the session store and the mesh to an outcome and the new
    store or mesh.  Python exceptions are outcomes of their own. *)

From Stdlib Require Import Reals Lra.
From stdpp Require Import base list strings.

Set Default Proof Using "Type".

(** ** Outcomes of an operator *)

(** The warnings an operator reports before it returns [{'CANCELLED'}], under
    the names of the specification's error taxonomy. *)
Inductive Warning : Set :=
| NoAttributeLayer   (* "Object must have more than one UV map" *)
| NoSelection        (* "No faces are selected" *)
| NothingCopied      (* "Need copy UV at first" *)
| CountMismatch      (* "Number of selected faces is different from copied" *)
| FaceSizeMismatch.  (* "Some faces are different size" *)

(** The Python exceptions the modelled code can raise. *)
Inductive PyError : Set :=
| IndexError          (* list index out of range, pop from empty list *)
| KeyError            (* bm.loops.layers.uv[name] with an unknown name *)
| ZeroDivisionError   (* float division by zero *)
| NameError.          (* a local name read before it was ever bound *)

Inductive Outcome : Set :=
| FINISHED
| CANCELLED (w : Warning)
| RAISED (e : PyError).

(** Python's [not l] for a list [l]. *)
Definition py_not {A} (l : list A) : bool :=
  match l with [] => true | _ :: _ => false end.

(** Python's [zip] of three sequences: it stops at the shortest one. *)
Definition zip3 {A B C} (xs : list A) (ys : list B) (zs : list C)
  : list (A * B * C) :=
  zip (zip xs ys) zs.

(** [enumerate] *)
Definition enumerate {A} (l : list A) : list (nat * A) :=
  zip (seq 0 (length l)) l.

(** A computation that may return early or raise. *)
Definition Result (A : Type) : Type := Outcome + A.

Definition bind {A B} (m : Result A) (k : A → Result B) : Result B :=
  match m with inl out => inl out | inr a => k a end.

Notation "'let*' x := m 'in' k" := (bind m (λ x, k))
  (at level 10, x pattern, m at level 100, k at level 200, only parsing).

(** [l[i]] *)
Definition py_index {A} (l : list A) (i : nat) : Result A :=
  match l !! i with Some x => inr x | None => inl (RAISED IndexError) end.

(** [i % n] *)
Definition py_mod (i n : nat) : Result nat :=
  match n with 0 => inl (RAISED ZeroDivisionError) | S _ => inr (i mod n) end.

(** [l.pop()]: the last element and the list without it. *)
Definition py_pop {A} (l : list A) : Result (A * list A) :=
  match last l with
  | Some x => inr (x, removelast l)
  | None => inl (RAISED IndexError)
  end.

(** ** The host's mesh *)

Section Mesh.
(** The scalar type of a UV coordinate (a Python float). The face-set engine
    only moves coordinates around and never computes with them. *)
Context {T : Type}.

Definition Vector : Type := T * T.

(** What one UV layer stores for one loop: [l[uv_layer]]. *)
Record MLoopUV : Type := mkLoopUV {
  uv : Vector;
  pin_uv : bool;
  uv_select : bool
}.

(** A loop (face corner). Its UV data is per layer; its edge is a reference
    to an edge shared with every other loop that runs along that edge. *)
Record BMLoop : Type := mkLoop {
  loop_layer : string → MLoopUV;
  loop_edge : nat
}.

Record BMFace : Type := mkFace {
  face_select : bool;
  face_loops : list BMLoop
}.

(** [bm.faces] is indexed by [face.index]; [edge_seam e] is [e.seam] of the
    edge referred to as [e]; [uv_layers] are the keys of
    [bm.loops.layers.uv] and [uv_active] names the layer [verify()] returns
    when there is one. *)
Record BMesh : Type := mkMesh {
  faces : list BMFace;
  edge_seam : nat → bool;
  uv_layers : list string;
  uv_active : string;
  show_edge_seams : bool
}.

(** The session store [context.scene.muv_props.cpuv]. *)
Record Props : Type := mkProps {
  src_uvs : list (list Vector);
  src_pin_uvs : list (list bool);
  src_seams : list (list bool)
}.

(** *** Reading a face *)

Definition face_uvs (uv_layer : string) (face : BMFace) : list Vector :=
  map (λ l, uv (loop_layer l uv_layer)) (face_loops face).

Definition face_pin_uvs (uv_layer : string) (face : BMFace) : list bool :=
  map (λ l, pin_uv (loop_layer l uv_layer)) (face_loops face).

Definition face_seams (bm : BMesh) (face : BMFace) : list bool :=
  map (λ l, edge_seam bm (loop_edge l)) (face_loops face).

(** *** "get UV layer" (lines 76-83, 186-193) *)

Definition get_uv_layer (uv_map : string) (bm : BMesh) : Outcome + string :=
  if bool_decide (uv_map = "") then
    if py_not (uv_layers bm) then inl (CANCELLED NoAttributeLayer)
    else inr (uv_active bm)
  else if bool_decide (uv_map ∈ uv_layers bm) then inr uv_map
  else inl (RAISED KeyError).

(** ** MUV_CPUVCopyUV.execute *)

(** The store after lines 86-88. *)
Definition cleared : Props := mkProps [] [] [].

(** One iteration of the loop of lines 89-96. *)
Definition copy_face (uv_layer : string) (bm : BMesh)
    (props : Props) (face : BMFace) : Props :=
  if face_select face then
    mkProps (src_uvs props ++ [face_uvs uv_layer face])
            (src_pin_uvs props ++ [face_pin_uvs uv_layer face])
            (src_seams props ++ [face_seams bm face])
  else props.

Definition copy_uv (uv_map : string) (props : Props) (bm : BMesh)
  : Outcome * Props :=
  match get_uv_layer uv_map bm with
  | inl out => (out, props)
  | inr uv_layer =>
      let props := fold_left (copy_face uv_layer bm) (faces bm) cleared in
      if py_not (src_uvs props) || py_not (src_pin_uvs props)
      then (CANCELLED NoSelection, props)
      else (FINISHED, props)
  end.

(** ** MUV_CPUVPasteUV.execute *)

Inductive Strategy : Set := N_N | N_M.

(** The operator's properties. *)
Record PasteOp : Set := mkPasteOp {
  uv_map : string;
  strategy : Strategy;
  flip_copied_uv : bool;
  rotate_copied_uv : nat;
  copy_seams : bool
}.

(** What the loop of lines 200-208 collects. *)
Record Dest : Type := mkDest {
  dest_uvs : list (list Vector);
  dest_pin_uvs : list (list bool);
  dest_seams : list (list bool);
  dest_face_indices : list nat
}.

Definition dest_face (uv_layer : string) (bm : BMesh)
    (d : Dest) (p : nat * BMFace) : Dest :=
  let '(index, face) := p in
  if face_select face then
    mkDest (dest_uvs d ++ [face_uvs uv_layer face])
           (dest_pin_uvs d ++ [face_pin_uvs uv_layer face])
           (dest_seams d ++ [face_seams bm face])
           (dest_face_indices d ++ [index])
  else d.

Definition get_dest (uv_layer : string) (bm : BMesh) : Dest :=
  fold_left (dest_face uv_layer bm) (enumerate (faces bm))
            (mkDest [] [] [] []).

(** A captured bundle while it is transformed: [suvs_fr], [spuvs_fr],
    [ss_fr]. *)
Definition Bundle : Type := list Vector * list bool * list bool.

(** Lines 222-235: the source bundle and the destination UVs of pair [i]. *)
Definition pick_source (st : Strategy) (props : Props)
    (d_uvs : list (list Vector)) (i : nat) : Result (Bundle * list Vector) :=
  match st with
  | N_N =>
      let* suv := py_index (src_uvs props) i in
      let* spuv := py_index (src_pin_uvs props) i in
      let* ss := py_index (src_seams props) i in
      let* duv := py_index d_uvs i in
      inr (suv, spuv, ss, duv)
  | N_M =>
      let* iu := py_mod i (length (src_uvs props)) in
      let* suv := py_index (src_uvs props) iu in
      let* ip := py_mod i (length (src_pin_uvs props)) in
      let* spuv := py_index (src_pin_uvs props) ip in
      let* iss := py_mod i (length (src_seams props)) in
      let* ss := py_index (src_seams props) iss in
      let* duv := py_index d_uvs i in
      inr (suv, spuv, ss, duv)
  end.

(** Lines 243-246. *)
Definition flip_uvs (flip : bool) (b : Bundle) : Bundle :=
  let '(suvs_fr, spuvs_fr, ss_fr) := b in
  if flip then (reverse suvs_fr, reverse spuvs_fr, reverse ss_fr) else b.

(** One iteration of the loop of lines 248-254. *)
Definition rotate_step (b : Bundle) : Result Bundle :=
  let '(suvs_fr, spuvs_fr, ss_fr) := b in
  let* (uv, suvs_fr) := py_pop suvs_fr in
  let* (pin_uv, spuvs_fr) := py_pop spuvs_fr in
  let* (s, ss_fr) := py_pop ss_fr in
  inr (uv :: suvs_fr, pin_uv :: spuvs_fr, s :: ss_fr).

Fixpoint rotate_uvs (n : nat) (b : Bundle) : Result Bundle :=
  match n with
  | 0 => inr b
  | S n => let* b := rotate_step b in rotate_uvs n b
  end.

(** Lines 258-259 on one loop: the UV and the pin flag of the layer are
    assigned, the loop's selection flag stays. *)
Definition write_loop (uv_layer : string) (l : BMLoop)
    (suv : Vector) (spuv : bool) : BMLoop :=
  mkLoop (λ k, if bool_decide (k = uv_layer)
               then mkLoopUV suv spuv (uv_select (loop_layer l k))
               else loop_layer l k)
         (loop_edge l).

(** Lines 256-261: the loops of the face are zipped with the bundle; the
    loops past the shortest sequence keep their data. *)
Fixpoint write_loops (uv_layer : string) (ls : list BMLoop)
    (vals : list (Vector * bool * bool)) : list BMLoop :=
  match ls, vals with
  | l :: ls, (suv, spuv, _) :: vals =>
      write_loop uv_layer l suv spuv :: write_loops uv_layer ls vals
  | _, _ => ls
  end.

(** Line 261: [l.edge.seam = ss], in loop order, on the shared edges. *)
Definition write_seam (sm : nat → bool) (p : BMLoop * (Vector * bool * bool))
  : nat → bool :=
  let '(l, (_, _, ss)) := p in
  λ e, if bool_decide (e = loop_edge l) then ss else sm e.

Definition write_seams (ls : list BMLoop)
    (vals : list (Vector * bool * bool)) (sm : nat → bool) : nat → bool :=
  fold_left write_seam (zip ls vals) sm.

(** Lines 256-261 on the mesh, for the face [bm.faces[idx]]. *)
Definition write_face (uv_layer : string) (seams : bool) (idx : nat)
    (b : Bundle) (bm : BMesh) : Result BMesh :=
  let '(suvs_fr, spuvs_fr, ss_fr) := b in
  let* face := py_index (faces bm) idx in
  let vals := zip3 suvs_fr spuvs_fr ss_fr in
  inr (mkMesh
         (<[idx := mkFace (face_select face)
                          (write_loops uv_layer (face_loops face) vals)]>
            (faces bm))
         (if seams then write_seams (face_loops face) vals (edge_seam bm)
          else edge_seam bm)
         (uv_layers bm) (uv_active bm) (show_edge_seams bm)).

(** Lines 222-254 for pair [i]: the source bundle is picked, its size is
    checked against the destination face, and it is flipped and rotated. *)
Definition prepare_bundle (op : PasteOp) (props : Props)
    (d_uvs : list (list Vector)) (i : nat) : Result Bundle :=
  let* (suv, spuv, ss, duv) := pick_source (strategy op) props d_uvs i in
  if bool_decide (length suv ≠ length duv)
  then inl (CANCELLED FaceSizeMismatch)
  else rotate_uvs (rotate_copied_uv op)
                  (flip_uvs (flip_copied_uv op) (suv, spuv, ss)).

(** The body of the loop of lines 221-261 for one [(i, idx)]. *)
Definition paste_face (op : PasteOp) (props : Props) (uv_layer : string)
    (d_uvs : list (list Vector)) (bm : BMesh) (p : nat * nat)
  : Result BMesh :=
  let '(i, idx) := p in
  let* b := prepare_bundle op props d_uvs i in
  write_face uv_layer (copy_seams op) idx b bm.

(** The loop of lines 221-261. It runs on the live mesh: when an iteration
    returns or raises, the mesh is left as the earlier iterations made it. *)
Fixpoint paste_faces (op : PasteOp) (props : Props) (uv_layer : string)
    (d_uvs : list (list Vector)) (items : list (nat * nat)) (bm : BMesh)
  : option Outcome * BMesh :=
  match items with
  | [] => (None, bm)
  | p :: items =>
      match paste_face op props uv_layer d_uvs bm p with
      | inl out => (Some out, bm)
      | inr bm => paste_faces op props uv_layer d_uvs items bm
      end
  end.

Definition paste_uv (op : PasteOp) (props : Props) (bm : BMesh)
  : Outcome * BMesh :=
  if py_not (src_uvs props) || py_not (src_pin_uvs props)
  then (CANCELLED NothingCopied, bm)
  else
    match get_uv_layer (uv_map op) bm with
    | inl out => (out, bm)
    | inr uv_layer =>
        let d := get_dest uv_layer bm in
        if py_not (dest_uvs d) || py_not (dest_pin_uvs d)
        then (CANCELLED NoSelection, bm)
        else if match strategy op with N_N => true | N_M => false end
                && bool_decide (length (src_uvs props) ≠ length (dest_uvs d))
        then (CANCELLED CountMismatch, bm)
        else
          match paste_faces op props uv_layer (dest_uvs d)
                            (enumerate (dest_face_indices d)) bm with
          | (Some out, bm) => (out, bm)
          | (None, bm) =>
              (FINISHED,
               mkMesh (faces bm) (edge_seam bm) (uv_layers bm) (uv_active bm)
                      (if copy_seams op then true else show_edge_seams bm))
          end
    end.

End Mesh.

Arguments Vector : clear implicits.
Arguments MLoopUV : clear implicits.
Arguments BMLoop : clear implicits.
Arguments BMFace : clear implicits.
Arguments BMesh : clear implicits.
Arguments Props : clear implicits.
Arguments Dest : clear implicits.
Arguments Bundle : clear implicits.
Arguments paste_face : simpl never.
Arguments prepare_bundle : simpl never.
Arguments write_face : simpl never.

(** ** The UV/Image-editor engine *)

(** The float operations the engine uses: the literals [0.0] and [2],
    [math.pi], the arithmetic of Python floats, the comparisons [<] and [==],
    [math.atan2], [math.sin], [math.cos], and the square root behind
    [Vector.length]. *)
Class FloatOps (T : Type) : Type := {
  f_zero : T;
  f_two : T;
  f_pi : T;
  f_add : T → T → T;
  f_sub : T → T → T;
  f_mul : T → T → T;
  f_div : T → T → T;
  f_ltb : T → T → bool;
  f_eqb : T → T → bool;
  f_sqrt : T → T;
  f_sin : T → T;
  f_cos : T → T;
  f_atan2 : T → T → T
}.

Section ImageEditor.
Context {T : Type} {F : FloatOps T}.

(** [mathutils.Vector]: [a - b], [a + b], [v.length]. *)
Definition v_sub (a b : Vector T) : Vector T :=
  (f_sub (fst a) (fst b), f_sub (snd a) (snd b)).

Definition v_add (a b : Vector T) : Vector T :=
  (f_add (fst a) (fst b), f_add (snd a) (snd b)).

Definition v_length (v : Vector T) : T :=
  f_sqrt (f_add (f_mul (fst v) (fst v)) (f_mul (snd v) (snd v))).

(** [a / b] on floats. *)
Definition py_div (a b : T) : Result T :=
  if f_eqb b f_zero then inl (RAISED ZeroDivisionError) else inr (f_div a b).

(** [bm.loops.layers.uv.verify()]: the active layer, after the host has
    created a zero-filled layer when the mesh had none. *)
Definition default_uv_name : string := "UVMap".

Definition new_layer_loop (l : BMLoop T) : BMLoop T :=
  mkLoop (λ k, if bool_decide (k = default_uv_name)
               then mkLoopUV (f_zero, f_zero) false false
               else loop_layer l k)
         (loop_edge l).

Definition layers_uv_verify (bm : BMesh T) : BMesh T * string :=
  if py_not (uv_layers bm) then
    (mkMesh
       (map (λ f, mkFace (face_select f) (map new_layer_loop (face_loops f)))
            (faces bm))
       (edge_seam bm) [default_uv_name] default_uv_name (show_edge_seams bm),
     default_uv_name)
  else (bm, uv_active bm).

(** Lines 531-539 and 570-578: the face is selected and every loop of it is
    selected in the UV layer. *)
Definition ie_face_ok (uv_layer : string) (face : BMFace T) : bool :=
  face_select face
  && forallb (λ l, uv_select (loop_layer l uv_layer)) (face_loops face).

(** *** MUV_CPUVIECopyUV.execute *)

(** One iteration of the loop of lines 530-540. *)
Definition ie_copy_face (uv_layer : string)
    (props : Props T) (face : BMFace T) : Props T :=
  if ie_face_ok uv_layer face then
    mkProps (src_uvs props ++ [face_uvs uv_layer face])
            (src_pin_uvs props) (src_seams props)
  else props.

Definition ie_copy_uv (props : Props T) (bm : BMesh T)
  : Outcome * Props T * BMesh T :=
  let '(bm, uv_layer) := layers_uv_verify bm in
  (FINISHED, fold_left (ie_copy_face uv_layer) (faces bm) props, bm).

(** *** MUV_CPUVIEPasteUV.execute *)

(** What the loop of lines 569-581 collects. *)
Definition ie_dest_face (uv_layer : string)
    (d : list nat * list (list (Vector T))) (p : nat * BMFace T)
  : list nat * list (list (Vector T)) :=
  let '(index, face) := p in
  if ie_face_ok uv_layer face
  then (fst d ++ [index], snd d ++ [face_uvs uv_layer face])
  else d.

Definition ie_get_dest (uv_layer : string) (bm : BMesh T)
  : list nat * list (list (Vector T)) :=
  fold_left (ie_dest_face uv_layer) (enumerate (faces bm)) ([], []).

(** The names the first loop (lines 583-600) binds and the second loop
    reads. *)
Record Transform : Type := mkTransform {
  src_base : Vector T;
  dest_base : Vector T;
  radian : T;
  ratio : T
}.

(** Lines 584-599, the body of the first loop. *)
Definition pair_transform (suvs duvs : list (Vector T)) : Result Transform :=
  let* s1 := py_index suvs 1 in
  let* s0 := py_index suvs 0 in
  let src_diff := v_sub s1 s0 in
  let* d1 := py_index duvs 1 in
  let* d0 := py_index duvs 0 in
  let dest_diff := v_sub d1 d0 in
  let src_rad := f_atan2 (snd src_diff) (fst src_diff) in
  let dest_rad := f_atan2 (snd dest_diff) (fst dest_diff) in
  let radian :=
    if f_ltb src_rad dest_rad then f_sub dest_rad src_rad
    else if f_ltb dest_rad src_rad
         then f_sub (f_mul f_pi f_two) (f_sub src_rad dest_rad)
         else f_zero in
  let* ratio := py_div (v_length dest_diff) (v_length src_diff) in
  inr (mkTransform s0 d0 radian ratio).

(** Lines 583-600: the loop breaks at the end of its first iteration; when
    the zip is empty nothing is bound. *)
Definition ie_transform (srcs dests : list (list (Vector T)))
  : Result (option Transform) :=
  match zip srcs dests with
  | [] => inr None
  | (suvs, duvs) :: _ =>
      let* x := pair_transform suvs duvs in inr (Some x)
  end.

(** Lines 604-611. *)
Definition target_uv (x : Transform) (suv : Vector T) : Vector T :=
  let base := v_sub suv (src_base x) in
  let radian_ref := f_atan2 (snd base) (fst base) in
  let radian_fin := f_add (radian x) radian_ref in
  let length := v_length base in
  let turn := (f_mul length (f_cos radian_fin),
               f_mul length (f_sin radian_fin)) in
  v_add (f_mul (fst turn) (ratio x), f_mul (snd turn) (ratio x))
        (dest_base x).

(** Line 612. *)
Definition set_uv (uv_layer : string) (l : BMLoop T) (v : Vector T)
  : BMLoop T :=
  mkLoop (λ k, if bool_decide (k = uv_layer)
               then mkLoopUV v (pin_uv (loop_layer l k))
                             (uv_select (loop_layer l k))
               else loop_layer l k)
         (loop_edge l).

(** The inner loop of lines 603-612. Its body reads [src_base], [radian],
    [ratio] and [dest_base], which are unbound when the first loop never
    ran. *)
Fixpoint ie_write_loops (x : option Transform) (uv_layer : string)
    (ls : list (BMLoop T)) (suvs : list (Vector T))
  : Result (list (BMLoop T)) :=
  match ls, suvs with
  | l :: ls, suv :: suvs =>
      match x with
      | None => inl (RAISED NameError)
      | Some t =>
          let* ls := ie_write_loops x uv_layer ls suvs in
          inr (set_uv uv_layer l (target_uv t suv) :: ls)
      end
  | _, _ => inr ls
  end.

(** The body of the outer loop of lines 602-612 for one [(suvs, fidx)]. *)
Definition ie_paste_face (x : option Transform) (uv_layer : string)
    (bm : BMesh T) (p : list (Vector T) * nat) : Result (BMesh T) :=
  let '(suvs, fidx) := p in
  let* face := py_index (faces bm) fidx in
  let* ls := ie_write_loops x uv_layer (face_loops face) suvs in
  inr (mkMesh (<[fidx := mkFace (face_select face) ls]> (faces bm))
              (edge_seam bm) (uv_layers bm) (uv_active bm)
              (show_edge_seams bm)).

Fixpoint ie_paste_faces (x : option Transform) (uv_layer : string)
    (items : list (list (Vector T) * nat)) (bm : BMesh T)
  : option Outcome * BMesh T :=
  match items with
  | [] => (None, bm)
  | p :: items =>
      match ie_paste_face x uv_layer bm p with
      | inl out => (Some out, bm)
      | inr bm => ie_paste_faces x uv_layer items bm
      end
  end.

Definition ie_paste_uv (props : Props T) (bm : BMesh T)
  : Outcome * BMesh T :=
  let '(bm, uv_layer) := layers_uv_verify bm in
  let '(d_face_indices, d_uvs) := ie_get_dest uv_layer bm in
  match ie_transform (src_uvs props) d_uvs with
  | inl out => (out, bm)
  | inr x =>
      match ie_paste_faces x uv_layer
              (zip (src_uvs props) d_face_indices) bm with
      | (Some out, bm) => (out, bm)
      | (None, bm) => (FINISHED, bm)
      end
  end.

End ImageEditor.

Arguments Transform T : clear implicits.
Arguments ie_paste_face : simpl never.
Arguments pair_transform : simpl never.

(** ** An exact instance for the worked examples

    The engine above is generic in the float operations. The program runs
    them in the host's arithmetic (binary64 Python floats, the float32
    components of [mathutils.Vector]) and in the C library's [atan2], [sin]
    and [cos]; none of that is code of the repository, and no property of
    the program is stated or proved at a particular arithmetic.

    The worked examples need some instance to evaluate the engine on a
    concrete mesh. There a coordinate is read as the real number it stands
    for and the operations as the exact ones. This is an idealisation, not
    the program's arithmetic: it has no rounding, no signed zero and no
    NaN. The examples use it on small whole coordinates only, and only for
    what the floats decide in the same way: whether an edge has length
    zero, and which corner a value is written to. *)

Module RealFloat.
Local Open Scope R_scope.

Definition Rltb (a b : R) : bool := if Rlt_dec a b then true else false.
Definition Reqb (a b : R) : bool := if Req_dec_T a b then true else false.

(** [math.atan2(y, x)]: the angle of the point [(x, y)], in (-π, π]; 0 at
    the origin. *)
Definition Ratan2 (y x : R) : R :=
  if Rlt_dec 0 x then atan (y / x)
  else if Rlt_dec x 0 then
    if Rle_dec 0 y then atan (y / x) + PI else atan (y / x) - PI
  else if Rlt_dec 0 y then PI / 2
  else if Rlt_dec y 0 then - (PI / 2)
  else 0.

(** The angle of a vector: [atan2(v.y, v.x)]. *)
Definition angle (v : R * R) : R := Ratan2 (snd v) (fst v).

#[export] Instance real_float : FloatOps R := {|
  f_zero := 0;
  f_two := 2;
  f_pi := PI;
  f_add := Rplus;
  f_sub := Rminus;
  f_mul := Rmult;
  f_div := Rdiv;
  f_ltb := Rltb;
  f_eqb := Reqb;
  f_sqrt := sqrt;
  f_sin := sin;
  f_cos := cos;
  f_atan2 := Ratan2
|}.
End RealFloat.

(** ** Derived notions used in the statements *)

Section Notions.
Context {T : Type}.

(** The selected faces, in the mesh's iteration order. *)
Definition selected_faces (bm : BMesh T) : list (BMFace T) :=
  List.filter face_select (faces bm).

(** The bundles one invocation of the face-set capture reads. *)
Definition captured (uv_layer : string) (bm : BMesh T) : Props T :=
  mkProps (map (face_uvs uv_layer) (selected_faces bm))
          (map (face_pin_uvs uv_layer) (selected_faces bm))
          (map (face_seams bm) (selected_faces bm)).

(** A store that holds a capture set: one entry per bundle in each of the
    three lists. *)
Definition capture_set (n : nat) (props : Props T) : Prop :=
  length (src_uvs props) = n ∧ length (src_pin_uvs props) = n
  ∧ length (src_seams props) = n.

(** A bundle of corner count [n]. *)
Definition bundle_size (n : nat) (b : Bundle T) : Prop :=
  length b.1.1 = n ∧ length b.1.2 = n ∧ length b.2 = n.

(** In every bundle of the store the pin flags and the seam flags are as
    many as the UVs. *)
Definition bundle_sizes (props : Props T) : Prop :=
  map length (src_pin_uvs props) = map length (src_uvs props)
  ∧ map length (src_seams props) = map length (src_uvs props).

(** The positions, counted from [off], of the faces of [fs] that pass the
    filter [P]. *)
Fixpoint positions_from (P : BMFace T → bool) (off : nat)
    (fs : list (BMFace T)) : list nat :=
  match fs with
  | [] => []
  | f :: fs =>
      if P f then off :: positions_from P (S off) fs
      else positions_from P (S off) fs
  end.

Definition selected_indices (bm : BMesh T) : list nat :=
  positions_from face_select 0 (faces bm).

(** The faces the UV/Image-editor engine works on, and their positions. *)
Definition ie_faces (uv_layer : string) (bm : BMesh T) : list (BMFace T) :=
  List.filter (ie_face_ok uv_layer) (faces bm).

Definition ie_indices (uv_layer : string) (bm : BMesh T) : list nat :=
  positions_from (ie_face_ok uv_layer) 0 (faces bm).

(** The index of the source bundle the loop of lines 221-235 reads for the
    [i]-th destination face, over a capture set of size [n]. *)
Definition source_index (st : Strategy) (n i : nat) : nat :=
  match st with N_N => i | N_M => i `mod` n end.

(** The corner counts of the [j]-th pair: of the source bundle, and of the
    [j]-th selected destination face. *)
Definition src_size (st : Strategy) (props : Props T) (j : nat)
  : option nat :=
  length <$> src_uvs props !! source_index st (length (src_uvs props)) j.

Definition dest_size (bm : BMesh T) (j : nat) : option nat :=
  (λ f, length (face_loops f)) <$> selected_faces bm !! j.

(** Bundle [j] of the store. *)
Definition bundle_at (props : Props T) (j : nat) : option (Bundle T) :=
  match src_uvs props !! j, src_pin_uvs props !! j, src_seams props !! j with
  | Some suv, Some spuv, Some ss => Some (suv, spuv, ss)
  | _, _, _ => None
  end.

(** The bundle that lines 91-93 read from a face. *)
Definition face_bundle (uv_layer : string) (bm : BMesh T) (f : BMFace T)
  : Bundle T :=
  (face_uvs uv_layer f, face_pin_uvs uv_layer f, face_seams bm f).

(** The rotation of lines 248-254 does not pop from an empty list. *)
Definition rotatable (op : PasteOp) (props : Props T) : Prop :=
  rotate_copied_uv op = 0 ∨ Forall (λ suv, suv ≠ []) (src_uvs props).

(** The face that lines 256-259 make of [f] when they write bundle [b]. *)
Definition written_face (uv_layer : string) (f : BMFace T) (b : Bundle T)
  : BMFace T :=
  mkFace (face_select f)
         (write_loops uv_layer (face_loops f) (zip3 b.1.1 b.1.2 b.2)).

(** What the paste does not touch: the selection, the edges the loops run
    along, and the UV layers of the mesh. *)
Definition same_shape (bm bm' : BMesh T) : Prop :=
  map face_select (faces bm') = map face_select (faces bm)
  ∧ map (λ f, map loop_edge (face_loops f)) (faces bm')
    = map (λ f, map loop_edge (face_loops f)) (faces bm)
  ∧ uv_layers bm' = uv_layers bm
  ∧ uv_active bm' = uv_active bm.

(** What writing into [uv_layer] keeps of a loop: its edge, its selection
    flag in every layer, and all its data in the other layers. *)
Definition loop_kept (uv_layer : string) (l l' : BMLoop T) : Prop :=
  loop_edge l' = loop_edge l
  ∧ ∀ k : string,
      uv_select (loop_layer l' k) = uv_select (loop_layer l k)
      ∧ (k ≠ uv_layer → loop_layer l' k = loop_layer l k).

Definition face_kept (uv_layer : string) (f f' : BMFace T) : Prop :=
  face_select f' = face_select f
  ∧ Forall2 (loop_kept uv_layer) (face_loops f) (face_loops f').

(** What the UV/Image-editor paste keeps of a loop when it writes into
    [uv_layer]: everything but the UV of that layer. *)
Definition ie_loop_kept (uv_layer : string) (l l' : BMLoop T) : Prop :=
  loop_edge l' = loop_edge l
  ∧ ∀ k : string,
      pin_uv (loop_layer l' k) = pin_uv (loop_layer l k)
      ∧ uv_select (loop_layer l' k) = uv_select (loop_layer l k)
      ∧ (k ≠ uv_layer → loop_layer l' k = loop_layer l k).

Definition ie_face_kept (uv_layer : string) (f f' : BMFace T) : Prop :=
  face_select f' = face_select f
  ∧ Forall2 (ie_loop_kept uv_layer) (face_loops f) (face_loops f').

(** The operator with another strategy. *)
Definition with_strategy (st : Strategy) (op : PasteOp) : PasteOp :=
  mkPasteOp (uv_map op) st (flip_copied_uv op) (rotate_copied_uv op)
            (copy_seams op).

(** The edges the loops of the faces run along, in iteration order. *)
Definition loop_edges (fs : list (BMFace T)) : list nat :=
  concat (map (λ f, map loop_edge (face_loops f)) fs).
End Notions.

Section ImageEditorNotions.
Context {T : Type} {F : FloatOps T}.

(** The rotation by [θ] and scaling by [s] of the offset [base], as lines
    605-610 compute it. *)
Definition rotate_scale (θ s : T) (base : Vector T) : Vector T :=
  (f_mul (f_mul (v_length base)
                (f_cos (f_add θ (f_atan2 (snd base) (fst base))))) s,
   f_mul (f_mul (v_length base)
                (f_sin (f_add θ (f_atan2 (snd base) (fst base))))) s).

(** The first corner of the first face of a list of faces' UVs. *)
Definition first_corner (uvs : list (list (Vector T))) : option (Vector T) :=
  uvs !! 0 ≫= (λ f, f !! 0).
End ImageEditorNotions.

(** ** Concrete meshes and stores *)

Module Examples.
Local Open Scope R_scope.

(** A loop whose layers all hold the same data. *)
Definition loop (u v : R) (pin : bool) (e : nat) : BMLoop R :=
  mkLoop (λ _, mkLoopUV (u, v) pin true) e.

(** A triangle and a quad at offset [o], along the edges [e], [e+1], ... *)
Definition tri (sel : bool) (o : R) (e : nat) : BMFace R :=
  mkFace sel [loop o 0 false e; loop (o + 1) 0 true (e + 1);
              loop o 1 false (e + 2)].

Definition quad (sel : bool) (o : R) (e : nat) : BMFace R :=
  mkFace sel [loop o 0 false e; loop (o + 1) 0 false (e + 1);
              loop (o + 1) 1 false (e + 2); loop o 1 true (e + 3)].

(** A mesh with one UV layer and no seam. *)
Definition mesh (fs : list (BMFace R)) : BMesh R :=
  mkMesh fs (λ _, false) ["UVMap"%string] "UVMap" false.

(** Two triangles along six edges, the first three of them seams; and two
    triangles that share the edge 2. *)
Definition seamed_pair : BMesh R :=
  mkMesh [tri true 0 0; tri true 1 3] (λ e, bool_decide (e < 3)%nat)
         ["UVMap"%string] "UVMap" false.

Definition joined_pair : BMesh R := mesh [tri true 5 0; tri true 6 2].

Definition apart_pair : BMesh R := mesh [tri true 5 0; tri true 6 3].

(** A mesh without any UV layer. *)
Definition mesh_no_layer (fs : list (BMFace R)) : BMesh R :=
  mkMesh fs (λ _, false) [] "" false.

Definition strict : PasteOp := mkPasteOp "" N_N false 0 true.
Definition wrap : PasteOp := mkPasteOp "" N_M false 0 true.

Definition tri_bundle (o : R) : Bundle R :=
  ([(o, 0); (o + 1, 0); (o, 1)], [false; true; false],
   [false; false; false]).

Definition quad_bundle (o : R) : Bundle R :=
  ([(o, 0); (o + 1, 0); (o + 1, 1); (o, 1)], [false; false; false; true],
   [false; false; false; false]).

Definition store (bs : list (Bundle R)) : Props R :=
  mkProps (map (λ b, b.1.1) bs) (map (λ b, b.1.2) bs) (map (λ b, b.2) bs).
End Examples.

(** ** The per-object operators *)

Section Objects.
Context {T : Type}.

(** *** MUV_CPUVObjCopyUV.execute *)

(** One iteration of the loop of lines 340-346: the face is read whether it
    is selected or not. *)
Definition obj_copy_face (uv_layer : string) (bm : BMesh T)
    (props : Props T) (face : BMFace T) : Props T :=
  mkProps (src_uvs props ++ [face_uvs uv_layer face])
          (src_pin_uvs props ++ [face_pin_uvs uv_layer face])
          (src_seams props ++ [face_seams bm face]).

(** Lines 321-350, on the edit mesh [bm] of the active object and the store
    [context.scene.muv_props.cpuv_obj]. *)
Definition obj_copy_uv (uv_map : string) (props : Props T) (bm : BMesh T)
  : Outcome * Props T :=
  match get_uv_layer uv_map bm with
  | inl out => (out, props)
  | inr uv_layer =>
      (FINISHED, fold_left (obj_copy_face uv_layer bm) (faces bm) cleared)
  end.

(** *** MUV_CPUVObjPasteUV.execute *)

(** The operator's properties. *)
Record ObjPasteOp : Set := mkObjPasteOp {
  obj_uv_map : string;
  obj_copy_seams : bool
}.

(** "get UV layer" (lines 419-427): a name that the mesh does not have is
    treated as the empty name. *)
Definition obj_get_uv_layer (uv_map : string) (bm : BMesh T)
  : Outcome + string :=
  if bool_decide (uv_map = "") || negb (bool_decide (uv_map ∈ uv_layers bm))
  then
    if py_not (uv_layers bm) then inl (CANCELLED NoAttributeLayer)
    else inr (uv_active bm)
  else inr uv_map.

(** One iteration of the loop of lines 434-441. *)
Definition obj_dest_face (uv_layer : string) (bm : BMesh T)
    (d : Dest T) (p : nat * BMFace T) : Dest T :=
  let '(index, face) := p in
  mkDest (dest_uvs d ++ [face_uvs uv_layer face])
         (dest_pin_uvs d ++ [face_pin_uvs uv_layer face])
         (dest_seams d ++ [face_seams bm face])
         (dest_face_indices d ++ [index]).

Definition obj_get_dest (uv_layer : string) (bm : BMesh T) : Dest T :=
  fold_left (obj_dest_face uv_layer bm) (enumerate (faces bm))
            (mkDest [] [] [] []).

(** Lines 453-462 for pair [i]. *)
Definition obj_prepare_bundle (props : Props T)
    (d_uvs : list (list (Vector T))) (i : nat) : Result (Bundle T) :=
  let* suv := py_index (src_uvs props) i in
  let* spuv := py_index (src_pin_uvs props) i in
  let* ss := py_index (src_seams props) i in
  let* duv := py_index d_uvs i in
  if bool_decide (length suv ≠ length duv)
  then inl (CANCELLED FaceSizeMismatch)
  else inr (suv, spuv, ss).

(** The body of the loop of lines 452-469 for one [(i, idx)]. *)
Definition obj_paste_face (op : ObjPasteOp) (props : Props T)
    (uv_layer : string) (d_uvs : list (list (Vector T))) (bm : BMesh T)
    (p : nat * nat) : Result (BMesh T) :=
  let '(i, idx) := p in
  let* b := obj_prepare_bundle props d_uvs i in
  write_face uv_layer (obj_copy_seams op) idx b bm.

Fixpoint obj_paste_faces (op : ObjPasteOp) (props : Props T)
    (uv_layer : string) (d_uvs : list (list (Vector T)))
    (items : list (nat * nat)) (bm : BMesh T) : option Outcome * BMesh T :=
  match items with
  | [] => (None, bm)
  | p :: items =>
      match obj_paste_face op props uv_layer d_uvs bm p with
      | inl out => (Some out, bm)
      | inr bm => obj_paste_faces op props uv_layer d_uvs items bm
      end
  end.

(** Lines 404-476 on the edit mesh of one object. The result is [None] when
    the loop over the objects goes on to the next object. *)
Definition obj_paste_mesh (op : ObjPasteOp) (props : Props T) (bm : BMesh T)
  : option Outcome * BMesh T :=
  match obj_get_uv_layer (obj_uv_map op) bm with
  | inl out => (Some out, bm)
  | inr uv_layer =>
      let d := obj_get_dest uv_layer bm in
      if bool_decide (length (src_uvs props) ≠ length (dest_uvs d))
      then (Some (CANCELLED CountMismatch), bm)
      else
        match obj_paste_faces op props uv_layer (dest_uvs d)
                              (enumerate (dest_face_indices d)) bm with
        | (Some out, bm) => (Some out, bm)
        | (None, bm) =>
            (None,
             mkMesh (faces bm) (edge_seam bm) (uv_layers bm) (uv_active bm)
                    (if obj_copy_seams op then true else show_edge_seams bm))
        end
  end.

(** *** The scene *)

(** An object of [bpy.data.objects]: its selection flag, and its data as a
    position in the scene's meshes. Objects may share one mesh; data that is
    no mesh (it has no [uv_textures]) is [None] or a position outside the
    meshes. *)
Record BObject : Set := mkObject {
  obj_data : option nat;
  obj_select : bool
}.

(** What the operator uses of the host: the objects and the meshes, the
    position of the active object, and the mode that
    [bpy.ops.object.mode_set] switches and [bpy.context.object.mode]
    reads. *)
Record Scene : Type := mkScene {
  objects : list BObject;
  meshes : list (BMesh T);
  active : nat;
  mode : string
}.

(** [o.data] when it is a mesh, with its position. *)
Definition obj_mesh (sc : Scene) (o : BObject) : option (nat * BMesh T) :=
  match obj_data o with
  | Some m =>
      match meshes sc !! m with Some bm => Some (m, bm) | None => None end
  | None => None
  end.

(** The body of the loop of lines 396-476 for the object [o] at position
    [k]: an object without a mesh or that is not selected is skipped;
    otherwise the object is made the active one in edit mode, and its mesh is
    pasted in place. *)
Definition obj_paste_object (op : ObjPasteOp) (props : Props T)
    (sc : Scene) (p : nat * BObject) : option Outcome * Scene :=
  let '(k, o) := p in
  match obj_mesh sc o with
  | None => (None, sc)
  | Some (m, bm) =>
      if negb (obj_select o) then (None, sc)
      else
        let '(res, bm) := obj_paste_mesh op props bm in
        (res, mkScene (objects sc) (<[m := bm]> (meshes sc)) k "EDIT")
  end.

(** The loop of lines 396-476: the first object whose paste returns ends the
    operator, with the scene as the objects before it left it. *)
Fixpoint obj_paste_objects (op : ObjPasteOp) (props : Props T)
    (todo : list (nat * BObject)) (sc : Scene) : option Outcome * Scene :=
  match todo with
  | [] => (None, sc)
  | p :: todo =>
      match obj_paste_object op props sc p with
      | (Some out, sc) => (Some out, sc)
      | (None, sc) => obj_paste_objects op props todo sc
      end
  end.

(** Lines 391-478, without the decorator. *)
Definition obj_paste_execute (op : ObjPasteOp) (props : Props T)
    (sc : Scene) : Outcome * Scene :=
  if py_not (src_uvs props) || py_not (src_pin_uvs props)
  then (CANCELLED NothingCopied, sc)
  else
    match obj_paste_objects op props (enumerate (objects sc)) sc with
    | (Some out, sc) => (out, sc)
    | (None, sc) => (FINISHED, sc)
    end.

(** The decorator of lines 42-48: the mode is read before the call and set
    again after it; when the call raises, the decorator's last two lines do
    not run. *)
Definition memorize_view_3d_mode (fn : Scene → Outcome * Scene)
    (sc : Scene) : Outcome * Scene :=
  let mode_orig := mode sc in
  let '(result, sc) := fn sc in
  match result with
  | RAISED _ => (result, sc)
  | _ => (result, mkScene (objects sc) (meshes sc) (active sc) mode_orig)
  end.

(** MUV_CPUVObjPasteUV.execute *)
Definition obj_paste_uv (op : ObjPasteOp) (props : Props T) (sc : Scene)
  : Outcome * Scene :=
  memorize_view_3d_mode (obj_paste_execute op props) sc.

(** *** Notions for the statements *)

(** The mesh with every face selected. *)
Definition select_all (bm : BMesh T) : BMesh T :=
  mkMesh (map (λ f, mkFace true (face_loops f)) (faces bm))
         (edge_seam bm) (uv_layers bm) (uv_active bm) (show_edge_seams bm).

(** The face-set operator that prepares and writes a pair as the per-object
    one does: N:N, neither flipped nor rotated. *)
Definition strict_of (op : ObjPasteOp) : PasteOp :=
  mkPasteOp (obj_uv_map op) N_N false 0 (obj_copy_seams op).

(** The objects the loop of lines 396-476 does not skip. *)
Definition pasted (sc : Scene) (o : BObject) : Prop :=
  obj_select o = true ∧ is_Some (obj_mesh sc o).

(** Every face of the mesh holds, in the layer the operator resolves, the
    UVs and the pin flags of the store's bundle at the face's position. *)
Definition holds_store (op : ObjPasteOp) (props : Props T) (bm : BMesh T)
  : Prop :=
  ∃ uv_layer : string,
    obj_get_uv_layer (obj_uv_map op) bm = inr uv_layer
    ∧ map (face_uvs uv_layer) (faces bm) = src_uvs props
    ∧ map (face_pin_uvs uv_layer) (faces bm) = src_pin_uvs props.

(** The operator with the empty layer name. *)
Definition with_default_map (op : ObjPasteOp) : ObjPasteOp :=
  mkObjPasteOp "" (obj_copy_seams op).
End Objects.

Arguments Scene : clear implicits.
Arguments obj_paste_face : simpl never.
Arguments obj_paste_mesh : simpl never.
Arguments obj_paste_object : simpl never.

(** Scenes for the examples. *)
Module SceneExamples.
Import Examples.
Local Open Scope R_scope.

(** Three objects: a selected triangle mesh, a selected object without a
    mesh, and an unselected quad mesh. *)
Definition tri_scene : Scene R :=
  mkScene [mkObject (Some 0%nat) true; mkObject None true;
           mkObject (Some 1%nat) false]
          [mesh [tri false 5 0]; mesh [quad true 0 0]] 2 "OBJECT".

(** Two selected objects: a mesh of one triangle, then a mesh of two
    faces. *)
Definition tri_quad_scene : Scene R :=
  mkScene [mkObject (Some 0%nat) true; mkObject (Some 1%nat) true]
          [mesh [tri false 5 0]; mesh [quad false 0 0; tri false 1 4]]
          0 "OBJECT".

Definition obj_paste : ObjPasteOp := mkObjPasteOp "" true.
End SceneExamples.

(** * Properties *)

(** ** Lists *)

Section ListFacts.
Context {A : Type}.

Lemma py_pop_snoc (l : list A) (x : A) : py_pop (l ++ [x]) = inr (x, l).
Proof.
  unfold py_pop. rewrite last_snoc. by rewrite removelast_last.
Qed.

Lemma snoc_of_length (l : list A) (k : nat) :
  length l = S k → ∃ l' x, l = l' ++ [x] ∧ length l' = k.
Proof.
  destruct l as [|y l'] using rev_ind; [done|].
  rewrite length_app. simpl. intros ?. exists l', y. split; [done|lia].
Qed.
End ListFacts.

(** ** The cyclic rotation of a bundle *)

Section Rotate.
Context {T : Type}.
Implicit Types (b : Bundle T) (suvs : list (Vector T)) (spuvs ss : list bool).

(** [k] iterations move the last [k] corners to the front. *)
Lemma rotate_uvs_app (k : nat) suvs1 suvs2 spuvs1 spuvs2 ss1 ss2 :
  length suvs2 = k → length spuvs2 = k → length ss2 = k →
  rotate_uvs k (suvs1 ++ suvs2, spuvs1 ++ spuvs2, ss1 ++ ss2)
  = inr (suvs2 ++ suvs1, spuvs2 ++ spuvs1, ss2 ++ ss1).
Proof.
  revert suvs1 suvs2 spuvs1 spuvs2 ss1 ss2.
  induction k as [|k IH]; intros u1 u2 p1 p2 s1 s2 Hu Hp Hs.
  - apply nil_length_inv in Hu, Hp, Hs. subst. by rewrite !app_nil_r.
  - apply snoc_of_length in Hu as (u2' & u & -> & Hu).
    apply snoc_of_length in Hp as (p2' & p & -> & Hp).
    apply snoc_of_length in Hs as (s2' & s & -> & Hs).
    simpl. unfold rotate_step.
    rewrite !app_assoc, !py_pop_snoc. simpl.
    etrans; [by apply (IH (u :: u1) u2' (p :: p1) p2' (s :: s1) s2')|].
    by rewrite <- !app_assoc.
Qed.

Lemma rotate_uvs_drop (n k : nat) b :
  bundle_size n b → k ≤ n →
  rotate_uvs k b
  = inr (drop (n - k) b.1.1 ++ take (n - k) b.1.1,
         drop (n - k) b.1.2 ++ take (n - k) b.1.2,
         drop (n - k) b.2 ++ take (n - k) b.2).
Proof.
  destruct b as [[u p] s]. intros (Hu & Hp & Hs) Hk. simpl in *.
  rewrite <- (take_drop (n - k) u) at 1.
  rewrite <- (take_drop (n - k) p) at 1.
  rewrite <- (take_drop (n - k) s) at 1.
  apply rotate_uvs_app; rewrite length_drop; lia.
Qed.

Lemma rotate_uvs_size (n k : nat) b b' :
  bundle_size n b → k ≤ n → rotate_uvs k b = inr b' → bundle_size n b'.
Proof.
  intros Hb Hk. rewrite (rotate_uvs_drop n k b Hb Hk).
  destruct Hb as (Hu & Hp & Hs). intros [= <-]. unfold bundle_size. simpl.
  rewrite !length_app, !length_drop, !length_take. lia.
Qed.

Lemma rotate_uvs_full (n : nat) b : bundle_size n b → rotate_uvs n b = inr b.
Proof.
  intros Hb. rewrite (rotate_uvs_drop n n b Hb) by done.
  destruct b as [[u p] s]. replace (n - n) with 0 by lia. simpl.
  by rewrite !app_nil_r.
Qed.

Lemma rotate_uvs_add (j k : nat) b :
  rotate_uvs (j + k) b = bind (rotate_uvs j b) (rotate_uvs k).
Proof.
  revert b. induction j as [|j IH]; intros b; [done|].
  simpl. destruct (rotate_step b) as [out|b']; [done|]. simpl. apply IH.
Qed.

(** C8. For a bundle of corner count [n] and [k ≤ n], rotating by [k] and
    then by [(n - k) mod n] gives back the three sequences in their
    original corner order. *)
Theorem rotate_then_complement (n k : nat) b :
  bundle_size n b → k ≤ n →
  ∃ b', rotate_uvs k b = inr b'
        ∧ rotate_uvs ((n - k) `mod` n) b' = inr b.
Proof.
  intros Hb Hk.
  destruct (rotate_uvs k b) as [out|b'] eqn:Hrot.
  { rewrite (rotate_uvs_drop n k b Hb Hk) in Hrot. done. }
  exists b'. split; [done|].
  destruct (decide (k = 0)) as [->|Hk0].
  { simpl in Hrot. injection Hrot as <-.
    replace ((n - 0) `mod` n) with 0; [done|].
    rewrite Nat.sub_0_r. destruct n; [done|]. by rewrite Nat.Div0.mod_same. }
  destruct (decide (k = n)) as [->|Hkn].
  { rewrite Nat.sub_diag, Nat.Div0.mod_0_l. simpl.
    by rewrite (rotate_uvs_full n b Hb) in Hrot; injection Hrot as ->. }
  rewrite Nat.mod_small by lia.
  pose proof (rotate_uvs_add k (n - k) b) as Hadd.
  rewrite Hrot in Hadd. simpl in Hadd. rewrite <- Hadd.
  replace (k + (n - k)) with n by lia. by apply rotate_uvs_full.
Qed.

End Rotate.

Lemma rotate_then_complement_witness :
  ∃ b', rotate_uvs 1 ([(1, 1); (2, 2); (3, 3)], [true; false; false],
                      [false; true; false]) = inr b'
        ∧ rotate_uvs ((3 - 1) `mod` 3) b'
          = inr ([(1, 1); (2, 2); (3, 3)], [true; false; false],
                 [false; true; false]).
Proof.
  apply (rotate_then_complement (T := nat) 3 1); [by repeat split | lia].
Defined.

(** ** The face-set capture *)

Section Capture.
Context {T : Type}.
Implicit Types (bm : BMesh T) (props : Props T) (face : BMFace T).

Lemma copy_faces_fold (uv_layer : string) bm (fs : list (BMFace T)) props :
  fold_left (copy_face uv_layer bm) fs props
  = mkProps
      (src_uvs props ++ map (face_uvs uv_layer) (List.filter face_select fs))
      (src_pin_uvs props
         ++ map (face_pin_uvs uv_layer) (List.filter face_select fs))
      (src_seams props ++ map (face_seams bm) (List.filter face_select fs)).
Proof.
  revert props. induction fs as [|f fs IH]; intros props; simpl.
  - rewrite !app_nil_r. by destruct props.
  - rewrite IH. unfold copy_face. destruct (face_select f); simpl; [|done].
    by rewrite <- !app_assoc.
Qed.

Lemma copy_faces_cleared (uv_layer : string) bm :
  fold_left (copy_face uv_layer bm) (faces bm) cleared = captured uv_layer bm.
Proof. by rewrite copy_faces_fold. Qed.

Lemma copy_uv_layer (uv_map uv_layer : string) props bm :
  get_uv_layer uv_map bm = inr uv_layer →
  copy_uv uv_map props bm
  = (if py_not (selected_faces bm) then CANCELLED NoSelection else FINISHED,
     captured uv_layer bm).
Proof.
  intros Hl. unfold copy_uv. rewrite Hl, copy_faces_cleared.
  unfold captured. simpl. by destruct (selected_faces bm).
Qed.

Lemma copy_uv_no_layer (uv_map : string) (out : Outcome) props bm :
  get_uv_layer uv_map bm = inl out → copy_uv uv_map props bm = (out, props).
Proof. intros Hl. unfold copy_uv. by rewrite Hl. Qed.

Lemma captured_capture_set (uv_layer : string) bm :
  capture_set (length (selected_faces bm)) (captured uv_layer bm).
Proof. unfold capture_set, captured. simpl. by rewrite !length_map. Qed.

(** C2, as amended. Once the UV layer is resolved, the face-set capture
    leaves in the store exactly the bundles it read in this invocation,
    whatever the store held before and whether it finishes or fails with
    NoSelection. *)
Theorem copy_uv_replaces_store (uv_map uv_layer : string) props bm :
  get_uv_layer uv_map bm = inr uv_layer →
  (copy_uv uv_map props bm).2 = captured uv_layer bm.
Proof. intros Hl. by rewrite (copy_uv_layer _ _ _ _ Hl). Qed.

Lemma paste_uv_nothing_copied (op : PasteOp) props bm :
  src_uvs props = [] ∨ src_pin_uvs props = [] →
  paste_uv op props bm = (CANCELLED NothingCopied, bm).
Proof.
  unfold paste_uv. intros [-> | ->]; simpl; [done|].
  by rewrite orb_true_r.
Qed.

(** C9. When the face-set capture fails with NoSelection the store has been
    emptied: whatever it held is gone, and a paste that follows fails with
    NothingCopied on every mesh. *)
Theorem copy_uv_no_selection_clears
    (uv_map : string) props bm (op : PasteOp) (bm' : BMesh T) :
  (copy_uv uv_map props bm).1 = CANCELLED NoSelection →
  (copy_uv uv_map props bm).2 = cleared
  ∧ paste_uv op (copy_uv uv_map props bm).2 bm'
    = (CANCELLED NothingCopied, bm').
Proof.
  intros Hc.
  assert ((copy_uv uv_map props bm).2 = cleared) as ->; [|split; [done|]].
  - unfold copy_uv in *.
    destruct (get_uv_layer uv_map bm) as [out|uv_layer] eqn:Hl.
    + simpl in Hc. subst out. unfold get_uv_layer in Hl.
      repeat case_match; done.
    + rewrite copy_faces_cleared in *. unfold captured in *. simpl in *.
      by destruct (selected_faces bm).
  - apply paste_uv_nothing_copied. by left.
Qed.
End Capture.

(** ** The selected faces and their positions *)

Section Selection.
Context {T : Type}.
Implicit Types (bm : BMesh T) (fs : list (BMFace T)) (f : BMFace T).

Section Positions.
Context (P : BMFace T → bool).

Lemma positions_from_length (off : nat) fs :
  length (positions_from P off fs) = length (List.filter P fs).
Proof.
  revert off. induction fs as [|f fs IH]; intros off; simpl; [done|].
  destruct (P f); simpl; by rewrite IH.
Qed.

Lemma positions_from_ge (off idx : nat) fs :
  idx ∈ positions_from P off fs → off ≤ idx.
Proof.
  revert off. induction fs as [|f fs IH]; intros off; simpl.
  - by intros ?%elem_of_nil.
  - destruct (P f).
    + intros [->|Hin%IH]%elem_of_cons; lia.
    + intros Hin%IH. lia.
Qed.

Lemma positions_from_NoDup (off : nat) fs : NoDup (positions_from P off fs).
Proof.
  revert off. induction fs as [|f fs IH]; intros off; simpl.
  - constructor.
  - destruct (P f); [|done]. constructor; [|done].
    intros Hin%positions_from_ge. lia.
Qed.

(** The [k]-th position holds the [k]-th face that passes the filter. *)
Lemma positions_from_lookup (off k idx : nat) fs :
  positions_from P off fs !! k = Some idx →
  ∃ f, off ≤ idx ∧ fs !! (idx - off) = Some f
       ∧ List.filter P fs !! k = Some f.
Proof.
  revert off k. induction fs as [|f fs IH]; intros off k; simpl; [done|].
  destruct (P f) eqn:Hsel.
  - destruct k as [|k]; simpl.
    + intros [= <-]. exists f. rewrite Nat.sub_diag. done.
    + intros (f' & Hle & Hf' & Hk)%IH. exists f'.
      replace (idx - off) with (S (idx - S off)) by lia.
      split; [lia|done].
  - intros (f' & Hle & Hf' & Hk)%IH. exists f'.
    replace (idx - off) with (S (idx - S off)) by lia. split; [lia|done].
Qed.

Lemma positions_from_ext (off : nat) fs fs' :
  map P fs = map P fs' → positions_from P off fs = positions_from P off fs'.
Proof.
  revert off fs'. induction fs as [|f fs IH]; intros off [|f' fs']; simpl;
    try done.
  intros [= -> Hmap]. rewrite (IH (S off) fs' Hmap). done.
Qed.
End Positions.

Lemma selected_indices_lookup (k idx : nat) bm :
  selected_indices bm !! k = Some idx →
  ∃ f, faces bm !! idx = Some f ∧ selected_faces bm !! k = Some f.
Proof.
  intros (f & _ & Hf & Hk)%positions_from_lookup.
  rewrite Nat.sub_0_r in Hf. by exists f.
Qed.

Lemma selected_indices_length bm :
  length (selected_indices bm) = length (selected_faces bm).
Proof. apply positions_from_length. Qed.

(** The loop of lines 200-208. *)
Lemma dest_faces_fold (uv_layer : string) bm fs (off : nat) (d : Dest T) :
  fold_left (dest_face uv_layer bm) (zip (seq off (length fs)) fs) d
  = mkDest
      (dest_uvs d ++ map (face_uvs uv_layer) (List.filter face_select fs))
      (dest_pin_uvs d
         ++ map (face_pin_uvs uv_layer) (List.filter face_select fs))
      (dest_seams d ++ map (face_seams bm) (List.filter face_select fs))
      (dest_face_indices d ++ positions_from face_select off fs).
Proof.
  revert off d. induction fs as [|f fs IH]; intros off d; simpl.
  - rewrite !app_nil_r. by destruct d.
  - rewrite IH. destruct (face_select f); simpl; [|done].
    by rewrite <- !app_assoc.
Qed.

Lemma get_dest_spec (uv_layer : string) bm :
  get_dest uv_layer bm
  = mkDest (map (face_uvs uv_layer) (selected_faces bm))
           (map (face_pin_uvs uv_layer) (selected_faces bm))
           (map (face_seams bm) (selected_faces bm))
           (selected_indices bm).
Proof. unfold get_dest, enumerate. by rewrite dest_faces_fold. Qed.
End Selection.

(** ** Writing a bundle onto a face *)

Section Write.
Context {T : Type}.
Implicit Types (bm : BMesh T) (f : BMFace T) (b : Bundle T).
Implicit Types (ls : list (BMLoop T)) (vals : list (Vector T * bool * bool)).

Lemma zip3_length {A B C} (xs : list A) (ys : list B) (zs : list C) (n : nat) :
  length xs = n → length ys = n → length zs = n → length (zip3 xs ys zs) = n.
Proof. intros. unfold zip3. rewrite !length_zip_with. lia. Qed.

Lemma zip3_lookup {A B C} (xs : list A) (ys : list B) (zs : list C)
    (j : nat) (x : A) (y : B) (z : C) :
  zip3 xs ys zs !! j = Some (x, y, z)
  ↔ xs !! j = Some x ∧ ys !! j = Some y ∧ zs !! j = Some z.
Proof.
  unfold zip3. rewrite lookup_zip_with_Some. split.
  - intros (xy & z' & Heq & Hxy & Hz).
    apply lookup_zip_with_Some in Hxy as (x' & y' & -> & Hx & Hy).
    by simplify_eq.
  - intros (Hx & Hy & Hz). exists (x, y), z. split; [done|]. split; [|done].
    apply lookup_zip_with_Some. by exists x, y.
Qed.

Lemma write_loops_length (uv_layer : string) ls vals :
  length (write_loops uv_layer ls vals) = length ls.
Proof.
  revert vals. induction ls as [|l ls IH]; intros [|[[u p] s] vals]; simpl;
    try done. by rewrite IH.
Qed.

Lemma write_loops_edges (uv_layer : string) ls vals :
  map loop_edge (write_loops uv_layer ls vals) = map loop_edge ls.
Proof.
  revert vals. induction ls as [|l ls IH]; intros [|[[u p] s] vals]; simpl;
    try done. by rewrite IH.
Qed.

(** A loop the zip reaches carries the UV and the pin flag it was given in
    the layer written. *)
Lemma write_loops_lookup (uv_layer : string) ls vals (j : nat)
    (l : BMLoop T) (u : Vector T) (p s : bool) :
  ls !! j = Some l → vals !! j = Some (u, p, s) →
  write_loops uv_layer ls vals !! j = Some (write_loop uv_layer l u p).
Proof.
  revert vals j. induction ls as [|l0 ls IH]; intros [|[[u0 p0] s0] vals] j;
    try done.
  destruct j as [|j]; simpl; [by intros [= ->] [= -> -> ->]|]. apply IH.
Qed.

Lemma write_loop_uv (uv_layer : string) (l : BMLoop T) (u : Vector T)
    (p : bool) :
  uv (loop_layer (write_loop uv_layer l u p) uv_layer) = u
  ∧ pin_uv (loop_layer (write_loop uv_layer l u p) uv_layer) = p.
Proof. simpl. by rewrite bool_decide_eq_true_2. Qed.

(** When the bundle has one entry per loop, reading the face back gives the
    bundle's UVs and pin flags. *)
Lemma written_face_read (uv_layer : string) f b :
  bundle_size (length (face_loops f)) b →
  face_uvs uv_layer (written_face uv_layer f b) = b.1.1
  ∧ face_pin_uvs uv_layer (written_face uv_layer f b) = b.1.2.
Proof.
  destruct b as [[us ps] ss]. intros (Hu & Hp & Hs). simpl in *.
  unfold face_uvs, face_pin_uvs, written_face. simpl.
  split; apply list_eq; intros j; rewrite list_lookup_fmap.
  - destruct (us !! j) as [u|] eqn:Huj.
    + destruct (lookup_lt_is_Some_2 ps j) as [p Hpj];
        [apply lookup_lt_Some in Huj; lia|].
      destruct (lookup_lt_is_Some_2 ss j) as [s Hsj];
        [apply lookup_lt_Some in Huj; lia|].
      destruct (lookup_lt_is_Some_2 (face_loops f) j) as [l Hlj];
        [apply lookup_lt_Some in Huj; lia|].
      rewrite (write_loops_lookup uv_layer _ _ j l u p s Hlj);
        [|by apply zip3_lookup].
      simpl. by rewrite bool_decide_eq_true_2.
    + rewrite lookup_ge_None_2; [done|].
      apply lookup_ge_None_1 in Huj. rewrite write_loops_length. lia.
  - destruct (ps !! j) as [p|] eqn:Hpj.
    + destruct (lookup_lt_is_Some_2 us j) as [u Huj];
        [apply lookup_lt_Some in Hpj; lia|].
      destruct (lookup_lt_is_Some_2 ss j) as [s Hsj];
        [apply lookup_lt_Some in Hpj; lia|].
      destruct (lookup_lt_is_Some_2 (face_loops f) j) as [l Hlj];
        [apply lookup_lt_Some in Hpj; lia|].
      rewrite (write_loops_lookup uv_layer _ _ j l u p s Hlj);
        [|by apply zip3_lookup].
      simpl. by rewrite bool_decide_eq_true_2.
    + rewrite lookup_ge_None_2; [done|].
      apply lookup_ge_None_1 in Hpj. rewrite write_loops_length. lia.
Qed.

(** *** Seams *)

Lemma write_seams_other ls vals (sm : nat → bool) (e : nat) :
  e ∉ map loop_edge ls → write_seams ls vals sm e = sm e.
Proof.
  unfold write_seams. revert vals sm.
  induction ls as [|l ls IH]; intros [|[[u p] s] vals] sm Hin; try done.
  simpl in *. apply not_elem_of_cons in Hin as [Hne Hin].
  rewrite IH by done. by rewrite bool_decide_eq_false_2.
Qed.

Lemma write_seams_lookup ls vals (sm : nat → bool) (j : nat)
    (l : BMLoop T) (u : Vector T) (p s : bool) :
  NoDup (map loop_edge ls) →
  ls !! j = Some l → vals !! j = Some (u, p, s) →
  write_seams ls vals sm (loop_edge l) = s.
Proof.
  unfold write_seams. revert vals sm j.
  induction ls as [|l0 ls IH]; intros [|[[u0 p0] s0] vals] sm j Hnd; try done.
  simpl in Hnd. apply NoDup_cons in Hnd as [Hnin Hnd].
  destruct j as [|j]; simpl.
  - intros [= ->] [= -> -> ->].
    change (write_seams ls vals
              (λ e, if bool_decide (e = loop_edge l) then s else sm e)
              (loop_edge l) = s).
    rewrite write_seams_other by done. by rewrite bool_decide_eq_true_2.
  - intros Hl Hv. by apply (IH vals _ j).
Qed.

(** *** One face *)

Lemma write_face_inr (uv_layer : string) (seams : bool) (idx : nat) b bm f :
  faces bm !! idx = Some f →
  write_face uv_layer seams idx b bm
  = inr (mkMesh (<[idx := written_face uv_layer f b]> (faces bm))
           (if seams
            then write_seams (face_loops f) (zip3 b.1.1 b.1.2 b.2)
                             (edge_seam bm)
            else edge_seam bm)
           (uv_layers bm) (uv_active bm) (show_edge_seams bm)).
Proof.
  intros Hf. destruct b as [[us ps] ss]. unfold write_face, py_index.
  by rewrite Hf.
Qed.

Lemma write_face_inv (uv_layer : string) (seams : bool) (idx : nat) b bm
    (bm' : BMesh T) :
  write_face uv_layer seams idx b bm = inr bm' →
  ∃ f, faces bm !! idx = Some f
       ∧ bm' = mkMesh (<[idx := written_face uv_layer f b]> (faces bm))
                 (if seams
                  then write_seams (face_loops f) (zip3 b.1.1 b.1.2 b.2)
                                   (edge_seam bm)
                  else edge_seam bm)
                 (uv_layers bm) (uv_active bm) (show_edge_seams bm).
Proof.
  destruct (faces bm !! idx) as [f|] eqn:Hf.
  - rewrite (write_face_inr _ _ _ _ _ f Hf). intros [= <-]. by exists f.
  - destruct b as [[us ps] ss]. unfold write_face, py_index. by rewrite Hf.
Qed.
End Write.

(** ** The paste loop *)

Section PasteLoop.
Context {T : Type}.
Implicit Types (bm : BMesh T) (f : BMFace T) (b : Bundle T).
Implicit Types (props : Props T) (op : PasteOp).
Implicit Types (items : list (nat * nat)) (d_uvs : list (list (Vector T))).

Lemma same_shape_refl bm : same_shape bm bm.
Proof. by repeat split. Qed.

Lemma same_shape_trans bm1 bm2 bm3 :
  same_shape bm1 bm2 → same_shape bm2 bm3 → same_shape bm1 bm3.
Proof.
  intros (? & ? & ? & ?) (? & ? & ? & ?). repeat split; congruence.
Qed.

Lemma paste_face_inv op props (uv_layer : string) d_uvs bm (i idx : nat)
    (bm' : BMesh T) :
  paste_face op props uv_layer d_uvs bm (i, idx) = inr bm' →
  ∃ b f, prepare_bundle op props d_uvs i = inr b
         ∧ faces bm !! idx = Some f
         ∧ bm' = mkMesh (<[idx := written_face uv_layer f b]> (faces bm))
                   (if copy_seams op
                    then write_seams (face_loops f) (zip3 b.1.1 b.1.2 b.2)
                                     (edge_seam bm)
                    else edge_seam bm)
                   (uv_layers bm) (uv_active bm) (show_edge_seams bm).
Proof.
  unfold paste_face.
  destruct (prepare_bundle op props d_uvs i) as [out|b]; [done|]. simpl.
  intros (f & Hf & ->)%write_face_inv. by exists b, f.
Qed.

Lemma paste_face_shape op props (uv_layer : string) d_uvs bm (i idx : nat)
    (bm' : BMesh T) :
  paste_face op props uv_layer d_uvs bm (i, idx) = inr bm' →
  same_shape bm bm'.
Proof.
  intros (b & f & _ & Hf & ->)%paste_face_inv.
  unfold same_shape. simpl. repeat split.
  - rewrite list_fmap_insert. simpl. apply list_insert_id.
    rewrite list_lookup_fmap, Hf. done.
  - rewrite list_fmap_insert. simpl. apply list_insert_id.
    rewrite list_lookup_fmap, Hf. simpl. by rewrite write_loops_edges.
Qed.

Lemma paste_faces_app op props (uv_layer : string) d_uvs items1 items2 bm :
  paste_faces op props uv_layer d_uvs (items1 ++ items2) bm
  = match paste_faces op props uv_layer d_uvs items1 bm with
    | (Some out, bm1) => (Some out, bm1)
    | (None, bm1) => paste_faces op props uv_layer d_uvs items2 bm1
    end.
Proof.
  revert bm. induction items1 as [|p items1 IH]; intros bm; simpl; [done|].
  destruct (paste_face op props uv_layer d_uvs bm p); [done|]. apply IH.
Qed.

(** What the loop leaves alone. *)
Lemma paste_faces_frame op props (uv_layer : string) d_uvs items bm
    (res : option Outcome) (bm' : BMesh T) :
  paste_faces op props uv_layer d_uvs items bm = (res, bm') →
  same_shape bm bm'
  ∧ show_edge_seams bm' = show_edge_seams bm
  ∧ (∀ p : nat, p ∉ items.*2 → faces bm' !! p = faces bm !! p)
  ∧ (∀ e : nat,
       (∀ idx f, idx ∈ items.*2 → faces bm !! idx = Some f →
                 e ∉ map loop_edge (face_loops f)) →
       edge_seam bm' e = edge_seam bm e).
Proof.
  revert bm. induction items as [|[i idx] items IH]; intros bm; simpl.
  - intros [= <- <-]. split; [apply same_shape_refl|done].
  - destruct (paste_face op props uv_layer d_uvs bm (i, idx)) as [out|bm1]
      eqn:Hface; simpl.
    { intros [= <- <-]. split; [apply same_shape_refl|done]. }
    intros (Hshape & Hshow & Hfaces & Hseams)%IH.
    pose proof (paste_face_shape _ _ _ _ _ _ _ _ Hface) as Hshape1.
    apply paste_face_inv in Hface as (b & f & _ & Hf & ->). simpl in *.
    split; [by eapply same_shape_trans|]. split; [done|]. split.
    + intros p [Hne Hp]%not_elem_of_cons. rewrite Hfaces by done.
      by apply list_lookup_insert_ne.
    + intros e He. rewrite Hseams.
      * destruct (copy_seams op); [|done].
        apply write_seams_other. apply (He idx f); [|done].
        apply elem_of_cons. by left.
      * intros idx' f' Hin Hf'.
        destruct (decide (idx' = idx)) as [->|Hne].
        -- rewrite list_lookup_insert_eq in Hf'
             by (by eapply lookup_lt_Some).
           injection Hf' as <-. simpl. rewrite write_loops_edges.
           apply (He idx f); [|done]. apply elem_of_cons. by left.
        -- rewrite list_lookup_insert_ne in Hf' by done.
           apply (He idx' f'); [|done]. apply elem_of_cons. by right.
Qed.

(** After a loop that ran to its end, every destination face carries the
    bundle prepared for its pair. *)
Lemma paste_faces_written op props (uv_layer : string) d_uvs items bm
    (bm' : BMesh T) (i idx : nat) :
  NoDup items.*2 →
  paste_faces op props uv_layer d_uvs items bm = (None, bm') →
  (i, idx) ∈ items →
  ∃ b f, prepare_bundle op props d_uvs i = inr b
         ∧ faces bm !! idx = Some f
         ∧ faces bm' !! idx = Some (written_face uv_layer f b).
Proof.
  revert bm. induction items as [|[i0 idx0] items IH]; intros bm Hnd; simpl.
  - by intros _ ?%elem_of_nil.
  - simpl in Hnd. apply NoDup_cons in Hnd as [Hnin Hnd].
    destruct (paste_face op props uv_layer d_uvs bm (i0, idx0)) as [out|bm1]
      eqn:Hface; [done|].
    intros Hrest Hin.
    apply paste_face_inv in Hface as (b0 & f0 & Hb0 & Hf0 & ->).
    apply elem_of_cons in Hin as [Heq|Hin].
    + simplify_eq. exists b0, f0. split; [done|]. split; [done|].
      apply paste_faces_frame in Hrest as (_ & _ & Hfaces & _).
      rewrite Hfaces by done. simpl.
      apply list_lookup_insert_eq. by eapply lookup_lt_Some.
    + destruct (IH _ Hnd Hrest Hin) as (b & f & Hb & Hf & Hf').
      exists b, f. split; [done|]. split; [|done]. simpl in Hf.
      rewrite list_lookup_insert_ne in Hf; [done|].
      intros ->. apply Hnin. apply list_elem_of_fmap. by exists (i, idx).
Qed.
End PasteLoop.

(** ** Preparing the bundle of a pair *)

Section Prepare.
Context {T : Type}.
Implicit Types (bm : BMesh T) (f : BMFace T) (b : Bundle T).
Implicit Types (props : Props T) (op : PasteOp).
Implicit Types (d_uvs : list (list (Vector T))).

Lemma enumerate_lookup {A} (l : list A) (i j : nat) (x : A) :
  enumerate l !! i = Some (j, x) ↔ j = i ∧ l !! i = Some x.
Proof.
  unfold enumerate. rewrite lookup_zip_with_Some. split.
  - intros (j' & x' & [= -> ->] & Hj & Hx).
    apply lookup_seq in Hj as [-> _]. done.
  - intros [-> Hx]. exists i, x. split; [done|]. split; [|done].
    apply lookup_seq. split; [done|]. by eapply lookup_lt_Some.
Qed.

Lemma enumerate_elem_of {A} (l : list A) (i : nat) (x : A) :
  (i, x) ∈ enumerate l ↔ l !! i = Some x.
Proof.
  rewrite list_elem_of_lookup. split.
  - intros [k [-> Hx]%enumerate_lookup]. done.
  - intros Hx. exists i. by apply enumerate_lookup.
Qed.

Lemma enumerate_snd {A} (l : list A) : (enumerate l).*2 = l.
Proof. unfold enumerate. apply snd_zip. by rewrite length_seq. Qed.

Lemma enumerate_split {A} (l : list A) (i : nat) (x : A) :
  l !! i = Some x →
  enumerate l
  = enumerate (take i l) ++ (i, x) :: zip (seq (S i) (length l - S i))
                                          (drop (S i) l).
Proof.
  intros Hx. pose proof (lookup_lt_Some _ _ _ Hx) as Hlt.
  unfold enumerate. rewrite <- (take_drop_middle l i x Hx) at 2.
  replace (length l) with (i + S (length l - S i)) at 1 by lia.
  rewrite seq_app. simpl. rewrite length_take, Nat.min_l by lia.
  rewrite zip_with_app by (rewrite length_seq, length_take; lia).
  done.
Qed.

(** In a store whose bundles are consistent, entry [j] is a bundle. *)
Lemma bundle_sizes_lookup props (j : nat) (suv : list (Vector T)) :
  bundle_sizes props → src_uvs props !! j = Some suv →
  ∃ spuv ss, src_pin_uvs props !! j = Some spuv
             ∧ src_seams props !! j = Some ss
             ∧ bundle_size (length suv) (suv, spuv, ss).
Proof.
  intros [Hp Hs] Hu.
  assert (map length (src_uvs props) !! j = Some (length suv)) as Hl
    by (by rewrite list_lookup_fmap, Hu).
  pose proof Hl as Hl'. rewrite <- Hp in Hl. rewrite <- Hs in Hl'.
  rewrite list_lookup_fmap in Hl, Hl'.
  destruct (src_pin_uvs props !! j) as [spuv|]; [|done].
  destruct (src_seams props !! j) as [ss|]; [|done].
  simpl in *. exists spuv, ss. unfold bundle_size. simpl.
  split; [done|]. split; [done|]. split; [done|]. split; congruence.
Qed.

Lemma bundle_sizes_capture_set props :
  bundle_sizes props → capture_set (length (src_uvs props)) props.
Proof.
  intros [Hp Hs]. unfold capture_set.
  apply (f_equal length) in Hp, Hs. rewrite !length_map in Hp, Hs. done.
Qed.

(** Lines 226-235. *)
Lemma pick_source_inr (st : Strategy) props d_uvs (n i : nat)
    (suv : list (Vector T)) (spuv ss : list bool) (duv : list (Vector T)) :
  capture_set n props →
  (st = N_M → 0 < n) →
  src_uvs props !! source_index st n i = Some suv →
  src_pin_uvs props !! source_index st n i = Some spuv →
  src_seams props !! source_index st n i = Some ss →
  d_uvs !! i = Some duv →
  pick_source st props d_uvs i = inr (suv, spuv, ss, duv).
Proof.
  intros (Hu & Hp & Hs) Hn. unfold pick_source, py_index.
  destruct st; simpl.
  - by intros -> -> -> ->.
  - rewrite Hu, Hp, Hs. specialize (Hn eq_refl).
    destruct n as [|n]; [lia|]. unfold py_mod.
    cbn [bind]. by intros -> -> -> ->.
Qed.

Lemma flip_uvs_size (flip : bool) (n : nat) b :
  bundle_size n b → bundle_size n (flip_uvs flip b).
Proof.
  destruct b as [[us ps] ss]. unfold bundle_size, flip_uvs.
  destruct flip; simpl; by rewrite ?length_reverse.
Qed.

Lemma rotate_step_total (n : nat) b :
  bundle_size n b → 0 < n →
  ∃ b', rotate_step b = inr b' ∧ bundle_size n b'.
Proof.
  destruct b as [[us ps] ss]. intros (Hu & Hp & Hs) Hn. simpl in *.
  destruct n as [|n]; [lia|].
  apply snoc_of_length in Hu as (us' & u & -> & Hu).
  apply snoc_of_length in Hp as (ps' & p & -> & Hp).
  apply snoc_of_length in Hs as (ss' & s & -> & Hs).
  unfold rotate_step. rewrite !py_pop_snoc. simpl.
  eexists. split; [done|]. unfold bundle_size. simpl. lia.
Qed.

(** The rotation runs to its end whenever it has a corner to pop. *)
Lemma rotate_uvs_total (n k : nat) b :
  bundle_size n b → k = 0 ∨ 0 < n →
  ∃ b', rotate_uvs k b = inr b' ∧ bundle_size n b'.
Proof.
  intros Hb [->|Hn]; [by exists b|].
  revert b Hb. induction k as [|k IH]; intros b Hb; [by exists b|].
  destruct (rotate_step_total n b Hb Hn) as (b1 & Hstep & Hb1).
  simpl. rewrite Hstep. simpl. by apply IH.
Qed.

Lemma prepare_bundle_inr op props d_uvs (i : nat)
    (suv : list (Vector T)) (spuv ss : list bool) (duv : list (Vector T)) :
  pick_source (strategy op) props d_uvs i = inr (suv, spuv, ss, duv) →
  length suv = length duv →
  prepare_bundle op props d_uvs i
  = rotate_uvs (rotate_copied_uv op)
      (flip_uvs (flip_copied_uv op) (suv, spuv, ss)).
Proof.
  intros Hpick Hlen. unfold prepare_bundle. rewrite Hpick. simpl.
  by rewrite bool_decide_eq_false_2 by (by intros ?).
Qed.

Lemma prepare_bundle_mismatch op props d_uvs (i : nat)
    (suv : list (Vector T)) (spuv ss : list bool) (duv : list (Vector T)) :
  pick_source (strategy op) props d_uvs i = inr (suv, spuv, ss, duv) →
  length suv ≠ length duv →
  prepare_bundle op props d_uvs i = inl (CANCELLED FaceSizeMismatch).
Proof.
  intros Hpick Hlen. unfold prepare_bundle. rewrite Hpick. simpl.
  by rewrite bool_decide_eq_true_2.
Qed.
End Prepare.

(** ** The face-set paste *)

Section Paste.
Context {T : Type}.
Implicit Types (bm : BMesh T) (f : BMFace T) (b : Bundle T).
Implicit Types (props : Props T) (op : PasteOp).
Implicit Types (items : list (nat * nat)) (d_uvs : list (list (Vector T))).

(** The checks of lines 172-218, once they have all passed. *)
Lemma paste_uv_run op props bm (uv_layer : string) :
  src_uvs props ≠ [] → src_pin_uvs props ≠ [] →
  get_uv_layer (uv_map op) bm = inr uv_layer →
  selected_faces bm ≠ [] →
  (strategy op = N_N →
   length (src_uvs props) = length (selected_faces bm)) →
  paste_uv op props bm
  = match paste_faces op props uv_layer
            (map (face_uvs uv_layer) (selected_faces bm))
            (enumerate (selected_indices bm)) bm with
    | (Some out, bm') => (out, bm')
    | (None, bm') =>
        (FINISHED,
         mkMesh (faces bm') (edge_seam bm') (uv_layers bm') (uv_active bm')
                (if copy_seams op then true else show_edge_seams bm'))
    end.
Proof.
  intros Hu Hp Hl Hsel Hn. unfold paste_uv.
  destruct (src_uvs props) eqn:Hu'; [done|].
  destruct (src_pin_uvs props) eqn:Hp'; [done|].
  cbn [py_not orb]. rewrite Hl, get_dest_spec. cbn [dest_uvs dest_pin_uvs
    dest_face_indices].
  destruct (selected_faces bm) eqn:Hsel'; [done|].
  cbn [map py_not orb].
  destruct (strategy op); [|done].
  rewrite bool_decide_eq_false_2; [done|].
  intros Hne. apply Hne. specialize (Hn eq_refl). simpl in *.
  by rewrite length_map.
Qed.

Lemma paste_faces_total op props (uv_layer : string) d_uvs items bm :
  (∀ i idx, (i, idx) ∈ items →
            (∃ b, prepare_bundle op props d_uvs i = inr b)
            ∧ idx < length (faces bm)) →
  ∃ bm', paste_faces op props uv_layer d_uvs items bm = (None, bm').
Proof.
  revert bm. induction items as [|[i idx] items IH]; intros bm Hok; simpl.
  - by exists bm.
  - destruct (Hok i idx) as [[b Hb] Hidx]; [apply elem_of_cons; by left|].
    destruct (lookup_lt_is_Some_2 _ _ Hidx) as [f Hf].
    unfold paste_face. rewrite Hb. cbn [bind].
    rewrite (write_face_inr _ _ _ _ _ f Hf). apply IH.
    intros i' idx' Hin. cbn [faces]. rewrite length_insert.
    apply Hok. apply elem_of_cons. by right.
Qed.

(** The loop stops at the first pair whose preparation fails, with the mesh
    as the pairs before it left it. *)
Lemma paste_faces_stops op props (uv_layer : string) d_uvs items1 items2 bm
    (bm1 : BMesh T) (i idx : nat) (out : Outcome) :
  paste_faces op props uv_layer d_uvs items1 bm = (None, bm1) →
  prepare_bundle op props d_uvs i = inl out →
  paste_faces op props uv_layer d_uvs (items1 ++ (i, idx) :: items2) bm
  = (Some out, bm1).
Proof.
  intros H1 Hi. rewrite paste_faces_app, H1. simpl.
  unfold paste_face. by rewrite Hi.
Qed.

(** Pair [j] is prepared without an error when the corner counts agree. *)
Lemma prepare_bundle_ok op props bm (uv_layer : string) (j : nat) f
    (suv : list (Vector T)) :
  bundle_sizes props → rotatable op props → src_uvs props ≠ [] →
  selected_faces bm !! j = Some f →
  src_uvs props !! source_index (strategy op) (length (src_uvs props)) j
  = Some suv →
  length suv = length (face_loops f) →
  ∃ spuv ss b,
    src_pin_uvs props
      !! source_index (strategy op) (length (src_uvs props)) j = Some spuv
    ∧ src_seams props
        !! source_index (strategy op) (length (src_uvs props)) j = Some ss
    ∧ rotate_uvs (rotate_copied_uv op)
        (flip_uvs (flip_copied_uv op) (suv, spuv, ss)) = inr b
    ∧ prepare_bundle op props
        (map (face_uvs uv_layer) (selected_faces bm)) j = inr b
    ∧ bundle_size (length (face_loops f)) b.
Proof.
  intros Hsizes Hrot Hne Hf Hsuv Hlen.
  destruct (bundle_sizes_lookup _ _ _ Hsizes Hsuv) as (spuv & ss & Hp & Hs & Hb).
  assert (0 < length (src_uvs props)) as Hn
    by (destruct (src_uvs props); [done|simpl; lia]).
  assert (pick_source (strategy op) props
            (map (face_uvs uv_layer) (selected_faces bm)) j
          = inr (suv, spuv, ss, face_uvs uv_layer f)) as Hpick.
  { eapply pick_source_inr; try done.
    - by apply bundle_sizes_capture_set.
    - by rewrite list_lookup_fmap, Hf. }
  destruct (rotate_uvs_total (length suv) (rotate_copied_uv op)
              (flip_uvs (flip_copied_uv op) (suv, spuv, ss)))
    as (b & Hb' & Hsize).
  { by apply flip_uvs_size. }
  { destruct Hrot as [->|Hall]; [by left|right].
    rewrite Forall_forall in Hall.
    assert (suv ≠ []) by (apply Hall; by eapply list_elem_of_lookup_2).
    destruct suv; [done|simpl; lia]. }
  exists spuv, ss, b. split; [done|]. split; [done|]. split; [done|].
  split; [|by rewrite <- Hlen].
  rewrite (prepare_bundle_inr _ _ _ _ _ _ _ _ Hpick); [done|].
  unfold face_uvs. by rewrite length_map.
Qed.

(** Pair [j] fails the size check of line 236 when they differ. *)
Lemma prepare_bundle_bad op props bm (uv_layer : string) (j : nat) f
    (suv : list (Vector T)) :
  bundle_sizes props → src_uvs props ≠ [] →
  selected_faces bm !! j = Some f →
  src_uvs props !! source_index (strategy op) (length (src_uvs props)) j
  = Some suv →
  length suv ≠ length (face_loops f) →
  prepare_bundle op props (map (face_uvs uv_layer) (selected_faces bm)) j
  = inl (CANCELLED FaceSizeMismatch).
Proof.
  intros Hsizes Hne Hf Hsuv Hlen.
  destruct (bundle_sizes_lookup _ _ _ Hsizes Hsuv) as (spuv & ss & Hp & Hs & Hb).
  assert (0 < length (src_uvs props)) as Hn
    by (destruct (src_uvs props); [done|simpl; lia]).
  eapply (prepare_bundle_mismatch _ _ _ _ suv spuv ss (face_uvs uv_layer f)).
  - eapply pick_source_inr; try done.
    + by apply bundle_sizes_capture_set.
    + by rewrite list_lookup_fmap, Hf.
  - unfold face_uvs. by rewrite length_map.
Qed.
End Paste.

(** ** Error preconditions of the face-set engine *)

Section Preconditions.
Context {T : Type}.
Implicit Types (bm : BMesh T) (props : Props T) (op : PasteOp).

(** C4. The capture of an empty selection fails with NoSelection and
    leaves the store empty; a paste from an empty store fails with
    NothingCopied on any mesh whatever; a strict (N:N) paste whose earlier
    checks pass fails with CountMismatch when the store and the selection
    differ in size. In the two paste failures the mesh is returned as it
    was. *)
Theorem face_set_error_preconditions
    op props bm (umap uv_layer : string) :
  (get_uv_layer umap bm = inr uv_layer → selected_faces bm = [] →
   copy_uv umap props bm = (CANCELLED NoSelection, cleared))
  ∧ (src_uvs props = [] →
     paste_uv op props bm = (CANCELLED NothingCopied, bm))
  ∧ (strategy op = N_N →
     src_uvs props ≠ [] → src_pin_uvs props ≠ [] →
     get_uv_layer (uv_map op) bm = inr uv_layer →
     selected_faces bm ≠ [] →
     length (src_uvs props) ≠ length (selected_faces bm) →
     paste_uv op props bm = (CANCELLED CountMismatch, bm)).
Proof.
  split; [|split].
  - intros Hl Hsel. rewrite (copy_uv_layer _ _ _ _ Hl).
    unfold captured. by rewrite Hsel.
  - intros Hu. apply paste_uv_nothing_copied. by left.
  - intros Hst Hu Hp Hl Hsel Hlen. unfold paste_uv.
    destruct (src_uvs props) eqn:Hu'; [done|].
    destruct (src_pin_uvs props) eqn:Hp'; [done|].
    cbn [py_not orb]. rewrite Hl, get_dest_spec.
    cbn [dest_uvs dest_pin_uvs dest_face_indices].
    destruct (selected_faces bm) eqn:Hsel'; [done|].
    cbn [map py_not orb]. rewrite Hst.
    rewrite bool_decide_eq_true_2; [done|].
    simpl in *. by rewrite length_map.
Qed.
End Preconditions.

Lemma face_set_error_preconditions_witness :
  (copy_uv "" (Examples.store [Examples.tri_bundle 0])
     (Examples.mesh [Examples.tri false 0 0])
   = (CANCELLED NoSelection, cleared))
  ∧ (paste_uv Examples.strict (Examples.store [])
       (Examples.mesh [Examples.tri true 0 0])
     = (CANCELLED NothingCopied, Examples.mesh [Examples.tri true 0 0]))
  ∧ (paste_uv Examples.strict
       (Examples.store [Examples.tri_bundle 0; Examples.tri_bundle 1;
                        Examples.tri_bundle 2])
       (Examples.mesh [Examples.tri true 0 0; Examples.tri true 1 3;
                       Examples.tri true 2 6; Examples.tri true 3 9])
     = (CANCELLED CountMismatch,
        Examples.mesh [Examples.tri true 0 0; Examples.tri true 1 3;
                       Examples.tri true 2 6; Examples.tri true 3 9])).
Proof.
  split; [|split].
  - apply (face_set_error_preconditions Examples.strict _ _ "" "UVMap");
      reflexivity.
  - apply (face_set_error_preconditions Examples.strict _ _ "" "UVMap");
      reflexivity.
  - apply (face_set_error_preconditions Examples.strict _ _ "" "UVMap");
      try reflexivity; discriminate.
Defined.

(** ** Failing in the middle of a batch *)

Section Mismatch.
Context {T : Type}.
Implicit Types (bm : BMesh T) (f : BMFace T) (b : Bundle T).
Implicit Types (props : Props T) (op : PasteOp).

Lemma dest_size_Some bm (j : nat) :
  j < length (selected_faces bm) →
  ∃ f idx, selected_faces bm !! j = Some f
           ∧ selected_indices bm !! j = Some idx
           ∧ faces bm !! idx = Some f
           ∧ dest_size bm j = Some (length (face_loops f)).
Proof.
  intros Hj.
  destruct (lookup_lt_is_Some_2 (selected_indices bm) j) as [idx Hidx];
    [by rewrite selected_indices_length|].
  destruct (selected_indices_lookup _ _ _ Hidx) as (f & Hf & Hsel).
  exists f, idx. unfold dest_size. by rewrite Hsel.
Qed.

(** C6. When pair [i] is the first whose corner counts differ, the paste
    fails with FaceSizeMismatch and returns the mesh as the loop left it
    after the pairs before [i]: each of their destination faces reads back
    the UVs and pin flags of the bundle prepared for it. *)
Theorem paste_uv_face_size_mismatch op props bm (uv_layer : string) (i : nat) :
  bundle_sizes props → rotatable op props →
  src_uvs props ≠ [] →
  get_uv_layer (uv_map op) bm = inr uv_layer →
  (strategy op = N_N →
   length (src_uvs props) = length (selected_faces bm)) →
  i < length (selected_faces bm) →
  (∀ j, j < i → src_size (strategy op) props j = dest_size bm j) →
  src_size (strategy op) props i ≠ dest_size bm i →
  ∃ bm',
    paste_uv op props bm = (CANCELLED FaceSizeMismatch, bm')
    ∧ paste_faces op props uv_layer
        (map (face_uvs uv_layer) (selected_faces bm))
        (enumerate (take i (selected_indices bm))) bm = (None, bm')
    ∧ ∀ j idx, j < i → selected_indices bm !! j = Some idx →
        ∃ b f', prepare_bundle op props
                  (map (face_uvs uv_layer) (selected_faces bm)) j = inr b
                ∧ faces bm' !! idx = Some f'
                ∧ face_uvs uv_layer f' = b.1.1
                ∧ face_pin_uvs uv_layer f' = b.1.2.
Proof.
  intros Hsizes Hrot Hne Hl Hn Hi Hbefore Hat.
  set (d_uvs := map (face_uvs uv_layer) (selected_faces bm)).
  set (n := length (src_uvs props)) in *.
  assert (0 < n) as Hn0
    by (subst n; destruct (src_uvs props); [done|simpl; lia]).
  (* the source bundle of a pair exists *)
  assert (∀ j, j < length (selected_faces bm) →
               ∃ suv, src_uvs props !! source_index (strategy op) n j
                      = Some suv) as Hsrc.
  { intros j Hj. apply lookup_lt_is_Some_2. fold n.
    destruct (strategy op) eqn:Hst; simpl.
    - rewrite (Hn eq_refl). done.
    - by apply Nat.mod_upper_bound, Nat.neq_0_lt_0. }
  (* the pairs before [i] are prepared *)
  assert (∀ j, j < i →
            ∃ b f idx, selected_indices bm !! j = Some idx
                       ∧ faces bm !! idx = Some f
                       ∧ prepare_bundle op props d_uvs j = inr b
                       ∧ bundle_size (length (face_loops f)) b) as Hprep.
  { intros j Hj.
    destruct (dest_size_Some bm j) as (f & idx & Hf & Hidx & Hfidx & Hd);
      [lia|].
    destruct (Hsrc j) as [suv Hsuv]; [lia|].
    pose proof (Hbefore j Hj) as Heq. unfold src_size in Heq. fold n in Heq.
    rewrite Hsuv, Hd in Heq. injection Heq as Heq.
    destruct (prepare_bundle_ok op props bm uv_layer j f suv)
      as (spuv & ss & b & _ & _ & _ & Hb & Hsize); try done.
    by exists b, f, idx. }
  (* pair [i] fails the size check *)
  destruct (dest_size_Some bm i Hi) as (fi & idxi & Hfi & Hidxi & _ & Hdi).
  destruct (Hsrc i Hi) as [suvi Hsuvi].
  assert (prepare_bundle op props d_uvs i = inl (CANCELLED FaceSizeMismatch))
    as Hbad.
  { apply (prepare_bundle_bad op props bm uv_layer i fi suvi); try done.
    intros Heq. apply Hat. unfold src_size. fold n.
    by rewrite Hsuvi, Hdi, <- Heq. }
  (* the loop over the pairs before [i] *)
  destruct (paste_faces_total op props uv_layer d_uvs
              (enumerate (take i (selected_indices bm))) bm) as [bm' Hrun].
  { intros j idx [Hidx Hj]%enumerate_elem_of%lookup_take_Some.
    destruct (Hprep j Hj) as (b & f & idx' & Hidx' & Hf & Hb & _).
    rewrite Hidx in Hidx'. injection Hidx' as <-.
    split; [by exists b|]. by eapply lookup_lt_Some. }
  exists bm'. split; [|split; [done|]].
  - rewrite (paste_uv_run op props bm uv_layer); try done.
    + fold d_uvs. rewrite (enumerate_split _ i idxi Hidxi).
      erewrite paste_faces_stops; [done|exact Hrun|exact Hbad].
    + destruct Hsizes as [Hp _]. intros Hnil. rewrite Hnil in Hp.
      destruct (src_uvs props); done.
    + intros Hnil. rewrite Hnil in Hi. simpl in Hi. lia.
  - intros j idx Hj Hidx.
    destruct (Hprep j Hj) as (b & f & idx' & Hidx' & Hf & Hb & Hsize).
    rewrite Hidx in Hidx'. injection Hidx' as <-.
    destruct (paste_faces_written op props uv_layer d_uvs
                (enumerate (take i (selected_indices bm))) bm bm' j idx)
      as (b' & f0 & Hb' & Hf0 & Hf'); try done.
    + rewrite enumerate_snd.
      apply (sublist_NoDup _ (selected_indices bm));
        [apply positions_from_NoDup|apply sublist_take].
    + apply enumerate_elem_of. by apply lookup_take_Some.
    + rewrite Hb in Hb'. injection Hb' as <-.
      rewrite Hf in Hf0. injection Hf0 as <-.
      exists b, (written_face uv_layer f b). split; [done|]. split; [done|].
      by apply written_face_read.
Qed.
End Mismatch.

Lemma paste_uv_face_size_mismatch_witness :
  ∃ bm',
    paste_uv Examples.strict
      (Examples.store [Examples.tri_bundle 5; Examples.quad_bundle 7])
      (Examples.mesh [Examples.tri true 0 0; Examples.tri true 1 3])
    = (CANCELLED FaceSizeMismatch, bm')
    ∧ face_uvs "UVMap" <$> faces bm' !! 0 = Some (Examples.tri_bundle 5).1.1.
Proof.
  destruct (paste_uv_face_size_mismatch Examples.strict
              (Examples.store [Examples.tri_bundle 5; Examples.quad_bundle 7])
              (Examples.mesh [Examples.tri true 0 0; Examples.tri true 1 3])
              "UVMap" 1) as (bm' & Hrun & _ & Hwritten).
  - split; reflexivity.
  - left; reflexivity.
  - discriminate.
  - reflexivity.
  - reflexivity.
  - simpl; lia.
  - intros [|j] Hj; [reflexivity|lia].
  - discriminate.
  - exists bm'. split; [exact Hrun|].
    destruct (Hwritten 0 0) as (b & f' & Hb & Hf' & Hu & _);
      [lia|reflexivity|].
    rewrite Hf'. simpl. rewrite Hu.
    cbv in Hb. injection Hb as <-. reflexivity.
Defined.

(** ** The wrap-around strategy *)

Section Wrap.
Context {T : Type}.
Implicit Types (bm : BMesh T) (f : BMFace T) (b : Bundle T).
Implicit Types (props : Props T) (op : PasteOp).
Implicit Types (d_uvs : list (list (Vector T))).

Lemma pick_source_wrap props d_uvs (n i : nat) (duv : list (Vector T)) :
  capture_set n props → 0 < n → d_uvs !! i = Some duv →
  ∃ b, bundle_at props (i `mod` n) = Some b
       ∧ pick_source N_M props d_uvs i = inr (b, duv).
Proof.
  intros Hcs Hn Hd. pose proof Hcs as (Hu & Hp & Hs).
  assert (i `mod` n < n) as Hlt by (apply Nat.mod_upper_bound; lia).
  destruct (lookup_lt_is_Some_2 (src_uvs props) (i `mod` n)) as [suv Hsuv];
    [lia|].
  destruct (lookup_lt_is_Some_2 (src_pin_uvs props) (i `mod` n))
    as [spuv Hspuv]; [lia|].
  destruct (lookup_lt_is_Some_2 (src_seams props) (i `mod` n)) as [ss Hss];
    [lia|].
  exists (suv, spuv, ss). unfold bundle_at. rewrite Hsuv, Hspuv, Hss.
  split; [done|]. by apply (pick_source_inr N_M props d_uvs n i).
Qed.

Lemma pick_source_wrap_inv props d_uvs (n i : nat) b (duv : list (Vector T)) :
  capture_set n props →
  pick_source N_M props d_uvs i = inr (b, duv) →
  bundle_at props (i `mod` n) = Some b ∧ d_uvs !! i = Some duv.
Proof.
  intros (Hu & Hp & Hs). unfold pick_source, py_index, py_mod, bundle_at.
  rewrite Hu, Hp, Hs. destruct n as [|n]; [done|]. cbn [bind].
  destruct (src_uvs props !! (i `mod` S n)); [|done].
  destruct (src_pin_uvs props !! (i `mod` S n)); [|done].
  destruct (src_seams props !! (i `mod` S n)); [|done].
  destruct (d_uvs !! i); [|done]. cbn [bind]. by intros [= <- <-].
Qed.

Lemma prepare_bundle_inv op props d_uvs (i : nat) b :
  prepare_bundle op props d_uvs i = inr b →
  ∃ b0 duv, pick_source (strategy op) props d_uvs i = inr (b0, duv)
            ∧ length b0.1.1 = length duv
            ∧ rotate_uvs (rotate_copied_uv op)
                (flip_uvs (flip_copied_uv op) b0) = inr b.
Proof.
  unfold prepare_bundle.
  destruct (pick_source (strategy op) props d_uvs i)
    as [out|[[[suv spuv] ss] duv]]; [done|]. cbn [bind].
  case_bool_decide as Hlen; [done|]. intros Hrot.
  exists (suv, spuv, ss), duv. split; [done|]. split; [|done]. simpl.
  destruct (decide (length suv = length duv)); done.
Qed.

(** The loop never leaves early with FINISHED. *)
Lemma py_index_error {A} (l : list A) (i : nat) (out : Outcome) :
  py_index l i = inl out → out ≠ FINISHED.
Proof. unfold py_index. destruct (l !! i); naive_solver. Qed.

Lemma py_pop_error {A} (l : list A) (out : Outcome) :
  py_pop l = inl out → out ≠ FINISHED.
Proof. unfold py_pop. destruct (last l); naive_solver. Qed.

Lemma py_mod_error (i n : nat) (out : Outcome) :
  py_mod i n = inl out → out ≠ FINISHED.
Proof. unfold py_mod. destruct n; naive_solver. Qed.

Lemma bind_error {A B} (m : Result A) (k : A → Result B) (out : Outcome) :
  bind m k = inl out →
  m = inl out ∨ ∃ a, m = inr a ∧ k a = inl out.
Proof. destruct m as [out'|a]; simpl; [intros [= ->]; by left|]. eauto. Qed.

Lemma rotate_uvs_error (k : nat) b (out : Outcome) :
  rotate_uvs k b = inl out → out ≠ FINISHED.
Proof.
  revert b. induction k as [|k IH]; intros b; simpl; [done|].
  intros [Hstep|(b' & _ & Hrest)]%bind_error; [|by eapply IH].
  destruct b as [[us ps] ss]. unfold rotate_step in Hstep.
  repeat (apply bind_error in Hstep as [Hstep|([? ?] & _ & Hstep)];
          [by eapply py_pop_error|]).
  done.
Qed.

Lemma pick_source_error (st : Strategy) props d_uvs (i : nat)
    (out : Outcome) :
  pick_source st props d_uvs i = inl out → out ≠ FINISHED.
Proof.
  unfold pick_source. destruct st; intros Hpick;
    repeat (apply bind_error in Hpick as [Hpick|(? & _ & Hpick)];
            [first [by eapply py_index_error|by eapply py_mod_error]|]);
    done.
Qed.

Lemma prepare_bundle_error op props d_uvs (i : nat) (out : Outcome) :
  prepare_bundle op props d_uvs i = inl out → out ≠ FINISHED.
Proof.
  unfold prepare_bundle.
  intros [Hpick|([[[suv spuv] ss] duv] & _ & Hrest)]%bind_error;
    [by eapply pick_source_error|].
  case_bool_decide; [by injection Hrest as <-|by eapply rotate_uvs_error].
Qed.

Lemma paste_face_error op props (uv_layer : string) d_uvs bm (p : nat * nat)
    (out : Outcome) :
  paste_face op props uv_layer d_uvs bm p = inl out → out ≠ FINISHED.
Proof.
  destruct p as [i idx]. unfold paste_face.
  intros [Hprep|([[us ps] ss] & _ & Hw)]%bind_error;
    [by eapply prepare_bundle_error|].
  unfold write_face in Hw.
  apply bind_error in Hw as [Hw|(? & _ & Hw)]; [|done].
  by eapply py_index_error.
Qed.

Lemma paste_faces_error op props (uv_layer : string) d_uvs
    (items : list (nat * nat)) bm (out : Outcome) (bm' : BMesh T) :
  paste_faces op props uv_layer d_uvs items bm = (Some out, bm') →
  out ≠ FINISHED.
Proof.
  revert bm. induction items as [|p items IH]; intros bm; simpl; [done|].
  destruct (paste_face op props uv_layer d_uvs bm p) as [out'|bm1] eqn:Hface.
  - intros [= <- <-]. by eapply paste_face_error.
  - apply IH.
Qed.

(** A paste that finished ran its loop to the end. *)
Lemma paste_uv_finished_inv op props bm :
  (paste_uv op props bm).1 = FINISHED →
  ∃ uv_layer bm0,
    get_uv_layer (uv_map op) bm = inr uv_layer
    ∧ paste_faces op props uv_layer
        (map (face_uvs uv_layer) (selected_faces bm))
        (enumerate (selected_indices bm)) bm = (None, bm0)
    ∧ faces (paste_uv op props bm).2 = faces bm0
    ∧ edge_seam (paste_uv op props bm).2 = edge_seam bm0.
Proof.
  unfold paste_uv.
  destruct (py_not (src_uvs props) || py_not (src_pin_uvs props)); [done|].
  destruct (get_uv_layer (uv_map op) bm) as [out|uv_layer] eqn:Hl.
  { unfold get_uv_layer in Hl. intros Hout. simpl in Hout. subst out.
    repeat case_match; done. }
  rewrite get_dest_spec. cbn [dest_uvs dest_pin_uvs dest_face_indices].
  destruct (py_not _ || py_not _); [done|].
  destruct (_ && _); [done|].
  destruct (paste_faces op props uv_layer _ _ bm) as [[out|] bm0] eqn:Hrun.
  - simpl. intros ->. by apply paste_faces_error in Hrun.
  - intros _. by exists uv_layer, bm0.
Qed.

(** C7. Under the wrap-around strategy (N:M) the [i]-th destination face is
    paired with the bundle at index [i mod n] of a capture set of size
    [n > 0]: that is the bundle the loop picks, and the bundle a finished
    paste has written onto the [i]-th selected face. Two bundles over five
    destination faces are paired as 0, 1, 0, 1, 0. *)
Theorem wrap_pairs_modulo props (n : nat) :
  capture_set n props → 0 < n →
  (∀ d_uvs (i : nat) (duv : list (Vector T)),
     d_uvs !! i = Some duv →
     ∃ b, bundle_at props (i `mod` n) = Some b
          ∧ pick_source N_M props d_uvs i = inr (b, duv))
  ∧ (∀ op bm (i idx : nat),
       strategy op = N_M →
       (paste_uv op props bm).1 = FINISHED →
       selected_indices bm !! i = Some idx →
       ∃ uv_layer b0 b f,
         get_uv_layer (uv_map op) bm = inr uv_layer
         ∧ bundle_at props (i `mod` n) = Some b0
         ∧ rotate_uvs (rotate_copied_uv op)
             (flip_uvs (flip_copied_uv op) b0) = inr b
         ∧ faces bm !! idx = Some f
         ∧ faces (paste_uv op props bm).2 !! idx
           = Some (written_face uv_layer f b))
  ∧ (n = 2 →
     ∀ d_uvs, length d_uvs = 5 →
       Forall2 (λ i j, ∃ b duv, bundle_at props j = Some b
                                ∧ pick_source N_M props d_uvs i
                                  = inr (b, duv))
               [0; 1; 2; 3; 4] [0; 1; 0; 1; 0]).
Proof.
  intros Hcs Hn. split; [|split].
  - intros d_uvs i duv Hd. by apply pick_source_wrap.
  - intros op bm i idx Hst Hfin Hidx.
    destruct (paste_uv_finished_inv _ _ _ Hfin)
      as (uv_layer & bm0 & Hl & Hrun & Hfaces & _).
    destruct (paste_faces_written op props uv_layer
                (map (face_uvs uv_layer) (selected_faces bm))
                (enumerate (selected_indices bm)) bm bm0 i idx)
      as (b & f & Hb & Hf & Hf'); try done.
    { rewrite enumerate_snd. apply positions_from_NoDup. }
    { by apply enumerate_elem_of. }
    apply prepare_bundle_inv in Hb as (b0 & duv & Hpick & _ & Hrot).
    rewrite Hst in Hpick.
    apply (pick_source_wrap_inv _ _ n) in Hpick as [Hb0 _]; [|done].
    exists uv_layer, b0, b, f. by rewrite Hfaces.
  - intros -> d_uvs Hlen.
    repeat (apply Forall2_cons; split;
            [match goal with
             | |- ∃ b duv, _ ∧ pick_source _ _ _ ?i = _ =>
                 destruct (lookup_lt_is_Some_2 d_uvs i) as [duv Hduv];
                 [lia|];
                 destruct (pick_source_wrap props d_uvs 2 i duv)
                   as (b & Hb & Hpick); [done|lia|done|];
                 by exists b, duv
             end|]).
    apply Forall2_nil_2.
Qed.
End Wrap.

Lemma wrap_pairs_modulo_witness :
  pick_source N_M
    (Examples.store [Examples.tri_bundle 5; Examples.tri_bundle 7])
    [[]; []; []] 2
  = inr (Examples.tri_bundle 5, [])
  ∧ face_uvs "UVMap"
      <$> faces (paste_uv Examples.wrap
                   (Examples.store [Examples.tri_bundle 5;
                                    Examples.tri_bundle 7])
                   (Examples.mesh [Examples.tri true 0 0;
                                   Examples.tri true 1 3;
                                   Examples.tri true 2 6])).2 !! 2
    = Some (Examples.tri_bundle 5).1.1.
Proof.
  pose proof (wrap_pairs_modulo
                (Examples.store [Examples.tri_bundle 5; Examples.tri_bundle 7])
                2) as (Hpick & Hpaste & _);
    [by repeat split | lia |].
  split.
  - destruct (Hpick [[]; []; []] 2 []) as (b & Hb & ->); [reflexivity|].
    cbv in Hb. by injection Hb as <-.
  - destruct (Hpaste Examples.wrap
                (Examples.mesh [Examples.tri true 0 0; Examples.tri true 1 3;
                                Examples.tri true 2 6]) 2 2)
      as (uv_layer & b0 & b & f & Hl & Hb0 & Hb & Hf & ->);
      [reflexivity|reflexivity|reflexivity|].
    cbv in Hl, Hb0, Hf. simplify_eq. simpl in Hb. simplify_eq. reflexivity.
Defined.

(** ** The store across captures *)

Lemma copy_uv_replaces_store_witness :
  (copy_uv "" (Examples.store [Examples.quad_bundle 9])
     (Examples.mesh [Examples.tri true 0 0])).2
  = captured "UVMap" (Examples.mesh [Examples.tri true 0 0]).
Proof.
  apply (copy_uv_replaces_store "" "UVMap"). reflexivity.
Defined.

Lemma copy_uv_no_selection_clears_witness :
  (copy_uv "" (Examples.store [Examples.quad_bundle 9])
     (Examples.mesh [Examples.tri false 0 0])).2 = cleared
  ∧ paste_uv Examples.strict
      (copy_uv "" (Examples.store [Examples.quad_bundle 9])
         (Examples.mesh [Examples.tri false 0 0])).2
      (Examples.mesh [Examples.tri true 0 0])
    = (CANCELLED NothingCopied, Examples.mesh [Examples.tri true 0 0]).
Proof.
  apply (copy_uv_no_selection_clears ""
           (Examples.store [Examples.quad_bundle 9])
           (Examples.mesh [Examples.tri false 0 0])).
  reflexivity.
Defined.

(** C2, as stated, fails. On a mesh without a UV layer the face-set capture
    is cancelled before line 86 and the earlier capture stays in the store;
    the UV/Image-editor capture appends to what the store holds. *)
Lemma copy_keeps_earlier_capture :
  copy_uv "" (Examples.store [Examples.quad_bundle 9])
    (Examples.mesh_no_layer [Examples.tri true 0 0])
  = (CANCELLED NoAttributeLayer, Examples.store [Examples.quad_bundle 9])
  ∧ src_uvs (ie_copy_uv (F := RealFloat.real_float)
               (Examples.store [Examples.quad_bundle 9])
               (Examples.mesh [Examples.tri true 0 0])).1.2
    = [(Examples.quad_bundle 9).1.1; (Examples.tri_bundle 0).1.1].
Proof. split; reflexivity. Qed.

(** ** Seams after a finished loop *)

Section Seams.
Context {T : Type}.
Implicit Types (bm : BMesh T) (f : BMFace T) (b : Bundle T).
Implicit Types (props : Props T) (op : PasteOp) (fs : list (BMFace T)).
Implicit Types (items : list (nat * nat)) (d_uvs : list (list (Vector T))).

Lemma loop_edges_elem_of fs f (e : nat) :
  f ∈ fs → e ∈ map loop_edge (face_loops f) → e ∈ loop_edges fs.
Proof.
  unfold loop_edges. induction fs as [|f0 fs IH]; [by intros ?%elem_of_nil|].
  simpl. intros [->|Hin]%elem_of_cons He; apply elem_of_app; [by left|].
  right. by apply IH.
Qed.

(** No edge occurs twice among the loops of [fs]: not within a face and
    not in two faces. *)
Lemma loop_edges_NoDup fs :
  NoDup (loop_edges fs) →
  (∀ a f, fs !! a = Some f → NoDup (map loop_edge (face_loops f)))
  ∧ (∀ a a' f f' (e : nat),
       a ≠ a' → fs !! a = Some f → fs !! a' = Some f' →
       e ∈ map loop_edge (face_loops f) →
       e ∉ map loop_edge (face_loops f')).
Proof.
  induction fs as [|f0 fs IH]; [done|].
  unfold loop_edges. simpl.
  intros (Hnd0 & Hdisj & Hnd)%NoDup_app.
  destruct (IH Hnd) as [IH1 IH2]. split.
  - intros [|a] f; simpl; [by intros [= <-]|apply IH1].
  - intros [|a] [|a'] f f' e Hne; simpl; try done.
    + intros [= <-] Hf' He He'. apply (Hdisj e He).
      apply (loop_edges_elem_of fs f'); [|done].
      by eapply list_elem_of_lookup_2.
    + intros Hf [= <-] He He'. apply (Hdisj e He').
      apply (loop_edges_elem_of fs f); [|done].
      by eapply list_elem_of_lookup_2.
    + apply IH2. lia.
Qed.

(** With seams copied and no edge shared between the destination faces,
    every edge of a destination face ends up with the seam flag of its
    corner in the bundle. *)
Lemma paste_faces_seams op props (uv_layer : string) d_uvs items bm
    (bm' : BMesh T) (i idx k : nat) b f (l : BMLoop T)
    (u : Vector T) (p s : bool) :
  copy_seams op = true →
  NoDup items.*2 →
  (∀ idx f, idx ∈ items.*2 → faces bm !! idx = Some f →
            NoDup (map loop_edge (face_loops f))) →
  (∀ idx idx' f f' (e : nat),
     idx ∈ items.*2 → idx' ∈ items.*2 → idx ≠ idx' →
     faces bm !! idx = Some f → faces bm !! idx' = Some f' →
     e ∈ map loop_edge (face_loops f) →
     e ∉ map loop_edge (face_loops f')) →
  paste_faces op props uv_layer d_uvs items bm = (None, bm') →
  (i, idx) ∈ items →
  prepare_bundle op props d_uvs i = inr b →
  faces bm !! idx = Some f →
  face_loops f !! k = Some l →
  zip3 b.1.1 b.1.2 b.2 !! k = Some (u, p, s) →
  edge_seam bm' (loop_edge l) = s.
Proof.
  intros Hcs. revert bm.
  induction items as [|[i0 idx0] items IH]; intros bm Hnd Hin1 Hdisj;
    simpl; [by intros _ ?%elem_of_nil|].
  simpl in Hnd, Hin1, Hdisj. apply NoDup_cons in Hnd as [Hnin Hnd].
  destruct (paste_face op props uv_layer d_uvs bm (i0, idx0)) as [out|bm1]
    eqn:Hface; [done|].
  apply paste_face_inv in Hface as (b0 & f0 & Hb0 & Hf0 & ->).
  rewrite Hcs.
  intros Hrest Hin Hb Hf Hl Hv.
  apply elem_of_cons in Hin as [Heq|Hin].
  - injection Heq as -> ->. rewrite Hb0 in Hb. injection Hb as <-.
    rewrite Hf0 in Hf. injection Hf as <-.
    apply paste_faces_frame in Hrest as (_ & _ & _ & Hseams).
    rewrite Hseams; simpl.
    + eapply write_seams_lookup; [|done|done].
      apply (Hin1 idx0); [|done]. apply elem_of_cons. by left.
    + intros idx' f' Hin Hf'.
      rewrite list_lookup_insert_ne in Hf' by (by intros ->).
      apply (Hdisj idx0 idx' f0 f').
      * apply elem_of_cons. by left.
      * apply elem_of_cons. by right.
      * by intros ->.
      * done.
      * done.
      * apply list_elem_of_fmap. exists l. split; [done|].
        by eapply list_elem_of_lookup_2.
  - assert (idx ∈ items.*2) as Hidx
      by (apply list_elem_of_fmap; by exists (i, idx)).
    assert (idx ≠ idx0) as Hne by (by intros ->).
    eapply (IH _ Hnd); try done.
    + intros idx' f' Hin' Hf'. simpl in Hf'.
      rewrite list_lookup_insert_ne in Hf' by (by intros ->).
      apply (Hin1 idx'); [|done]. apply elem_of_cons. by right.
    + intros idx1 idx2 f1 f2 e H1 H2 Hne12 Hf1 Hf2. simpl in Hf1, Hf2.
      rewrite list_lookup_insert_ne in Hf1 by (by intros ->).
      rewrite list_lookup_insert_ne in Hf2 by (by intros ->).
      apply (Hdisj idx1 idx2); try done; apply elem_of_cons; by right.
    + simpl. by rewrite list_lookup_insert_ne.
Qed.
End Seams.

(** ** A paste that runs to its end *)

Section Finished.
Context {T : Type}.
Implicit Types (bm : BMesh T) (f : BMFace T) (b : Bundle T).
Implicit Types (props : Props T) (op : PasteOp).

(** When the corner counts of every pair agree, the paste finishes. *)
Lemma paste_uv_finishes op props bm (uv_layer : string) :
  bundle_sizes props → rotatable op props →
  src_uvs props ≠ [] →
  get_uv_layer (uv_map op) bm = inr uv_layer →
  selected_faces bm ≠ [] →
  (strategy op = N_N →
   length (src_uvs props) = length (selected_faces bm)) →
  (∀ j, j < length (selected_faces bm) →
        src_size (strategy op) props j = dest_size bm j) →
  ∃ bm0,
    paste_faces op props uv_layer
      (map (face_uvs uv_layer) (selected_faces bm))
      (enumerate (selected_indices bm)) bm = (None, bm0)
    ∧ paste_uv op props bm
      = (FINISHED,
         mkMesh (faces bm0) (edge_seam bm0) (uv_layers bm0) (uv_active bm0)
                (if copy_seams op then true else show_edge_seams bm0)).
Proof.
  intros Hsizes Hrot Hne Hl Hsel Hn Hall.
  set (n := length (src_uvs props)) in *.
  assert (0 < n) as Hn0
    by (subst n; destruct (src_uvs props); [done|simpl; lia]).
  destruct (paste_faces_total op props uv_layer
              (map (face_uvs uv_layer) (selected_faces bm))
              (enumerate (selected_indices bm)) bm) as [bm0 Hrun].
  { intros j idx Hidx%enumerate_elem_of.
    assert (j < length (selected_faces bm)) as Hj.
    { rewrite <- selected_indices_length. by eapply lookup_lt_Some. }
    destruct (dest_size_Some bm j Hj) as (f & idx' & Hf & Hidx' & Hfidx & Hd).
    rewrite Hidx in Hidx'. injection Hidx' as <-.
    split; [|by eapply lookup_lt_Some].
    pose proof (Hall j Hj) as Heq. rewrite Hd in Heq. unfold src_size in Heq.
    fold n in Heq.
    destruct (src_uvs props !! source_index (strategy op) n j) as [suv|]
      eqn:Hsuv; [|done].
    injection Heq as Heq.
    destruct (prepare_bundle_ok op props bm uv_layer j f suv)
      as (spuv & ss & b & _ & _ & _ & Hb & _); try done.
    by exists b. }
  exists bm0. split; [done|].
  rewrite (paste_uv_run op props bm uv_layer), Hrun; try done.
  destruct Hsizes as [Hp _]. intros Hnil. rewrite Hnil in Hp.
  destruct (src_uvs props); done.
Qed.

Lemma get_uv_layer_shape (umap : string) bm (bm' : BMesh T) :
  same_shape bm bm' → get_uv_layer umap bm' = get_uv_layer umap bm.
Proof.
  intros (_ & _ & Hlayers & Hactive). unfold get_uv_layer.
  by rewrite Hlayers, Hactive.
Qed.

Lemma selected_indices_shape bm (bm' : BMesh T) :
  same_shape bm bm' → selected_indices bm' = selected_indices bm.
Proof. intros (Hsel & _). by apply positions_from_ext. Qed.

Lemma copy_uv_finished_inv (umap : string) props bm :
  (copy_uv umap props bm).1 = FINISHED →
  ∃ uv_layer, get_uv_layer umap bm = inr uv_layer
              ∧ selected_faces bm ≠ []
              ∧ (copy_uv umap props bm).2 = captured uv_layer bm.
Proof.
  destruct (get_uv_layer umap bm) as [out|uv_layer] eqn:Hl.
  - rewrite (copy_uv_no_layer _ _ _ _ Hl). simpl. intros ->.
    unfold get_uv_layer in Hl. repeat case_match; done.
  - rewrite (copy_uv_layer _ _ _ _ Hl). simpl.
    destruct (selected_faces bm); [done|]. intros _. by exists uv_layer.
Qed.

Lemma captured_bundle_sizes (uv_layer : string) bm :
  bundle_sizes (captured uv_layer bm).
Proof.
  unfold bundle_sizes, captured. simpl. rewrite !map_map.
  split; apply map_ext; intros f;
    unfold face_uvs, face_pin_uvs, face_seams; by rewrite !length_map.
Qed.
End Finished.

(** ** Capture, paste, capture again *)

Section RoundTrip.
Context {T : Type}.
Implicit Types (bm : BMesh T) (f : BMFace T) (b : Bundle T).
Implicit Types (props : Props T) (op : PasteOp).

Lemma face_bundle_size (uv_layer : string) bm f :
  bundle_size (length (face_loops f)) (face_bundle uv_layer bm f).
Proof.
  unfold bundle_size, face_bundle, face_uvs, face_pin_uvs, face_seams.
  simpl. by rewrite !length_map.
Qed.

Lemma captured_bundle_at (uv_layer : string) bm (j : nat) f :
  selected_faces bm !! j = Some f →
  bundle_at (captured uv_layer bm) j = Some (face_bundle uv_layer bm f).
Proof.
  intros Hf. unfold bundle_at, captured. simpl.
  rewrite !list_lookup_fmap, Hf. done.
Qed.

Lemma pick_source_strict_inv props (d_uvs : list (list (Vector T)))
    (i : nat) b (duv : list (Vector T)) :
  pick_source N_N props d_uvs i = inr (b, duv) →
  bundle_at props i = Some b ∧ d_uvs !! i = Some duv.
Proof.
  unfold pick_source, py_index, bundle_at.
  destruct (src_uvs props !! i); [|done].
  destruct (src_pin_uvs props !! i); [|done].
  destruct (src_seams props !! i); [|done].
  destruct (d_uvs !! i); [|done]. cbn [bind]. by intros [= <- <-].
Qed.

Lemma selected_edges_NoDup bm :
  NoDup (loop_edges (selected_faces bm)) →
  (∀ idx f, idx ∈ selected_indices bm → faces bm !! idx = Some f →
            NoDup (map loop_edge (face_loops f)))
  ∧ (∀ idx idx' f f' (e : nat),
       idx ∈ selected_indices bm → idx' ∈ selected_indices bm →
       idx ≠ idx' →
       faces bm !! idx = Some f → faces bm !! idx' = Some f' →
       e ∈ map loop_edge (face_loops f) →
       e ∉ map loop_edge (face_loops f')).
Proof.
  intros [H1 H2]%loop_edges_NoDup. split.
  - intros idx f [a Ha]%list_elem_of_lookup_1 Hf.
    destruct (selected_indices_lookup _ _ _ Ha) as (f0 & Hf0 & Hsel).
    apply (H1 a). congruence.
  - intros idx idx' f f' e [a Ha]%list_elem_of_lookup_1
      [a' Ha']%list_elem_of_lookup_1 Hne Hf Hf'.
    destruct (selected_indices_lookup _ _ _ Ha) as (f0 & Hf0 & Hsel).
    destruct (selected_indices_lookup _ _ _ Ha') as (f0' & Hf0' & Hsel').
    apply (H2 a a'); [|congruence|congruence].
    intros ->. congruence.
Qed.

(** What a strict paste of a capture without flip and rotation leaves on
    the selected faces of the destination. *)
Lemma round_trip_faces (umap uv_layer1 uv_layer2 : string) bm1 bm2
    (bm0 : BMesh T) (j : nat) f3 :
  let op := mkPasteOp umap N_N false 0 true in
  let d_uvs := map (face_uvs uv_layer2) (selected_faces bm2) in
  paste_faces op (captured uv_layer1 bm1) uv_layer2 d_uvs
    (enumerate (selected_indices bm2)) bm2 = (None, bm0) →
  selected_faces bm0 !! j = Some f3 →
  ∃ f1 f2 idx,
    selected_faces bm1 !! j = Some f1
    ∧ selected_indices bm2 !! j = Some idx
    ∧ faces bm2 !! idx = Some f2
    ∧ selected_faces bm2 !! j = Some f2
    ∧ prepare_bundle op (captured uv_layer1 bm1) d_uvs j
      = inr (face_bundle uv_layer1 bm1 f1)
    ∧ length (face_loops f1) = length (face_loops f2)
    ∧ f3 = written_face uv_layer2 f2 (face_bundle uv_layer1 bm1 f1).
Proof.
  intros op d_uvs Hrun Hf3.
  pose proof (paste_faces_frame _ _ _ _ _ _ _ _ Hrun) as (Hshape & _).
  pose proof (selected_indices_shape _ _ Hshape) as Hidxs.
  destruct (lookup_lt_is_Some_2 (selected_indices bm0) j) as [idx Hidx].
  { rewrite selected_indices_length. by eapply lookup_lt_Some. }
  destruct (selected_indices_lookup _ _ _ Hidx) as (f3' & Hf3' & Hsel3).
  rewrite Hf3 in Hsel3. injection Hsel3 as <-.
  rewrite Hidxs in Hidx.
  destruct (selected_indices_lookup _ _ _ Hidx) as (f2 & Hf2 & Hsel2).
  destruct (paste_faces_written op (captured uv_layer1 bm1) uv_layer2 d_uvs
              (enumerate (selected_indices bm2)) bm2 bm0 j idx)
    as (b & f2' & Hb & Hf2' & Hw); try done.
  { rewrite enumerate_snd. apply positions_from_NoDup. }
  { by apply enumerate_elem_of. }
  rewrite Hf2 in Hf2'. injection Hf2' as <-.
  rewrite Hf3' in Hw. injection Hw as ->.
  pose proof Hb as Hb'.
  apply prepare_bundle_inv in Hb' as (b0 & duv & Hpick & Hlen & Hrot).
  change (strategy op) with N_N in Hpick.
  apply pick_source_strict_inv in Hpick as [Hat Hduv].
  simpl in Hrot. destruct b0 as [[suv spuv] ss]. injection Hrot as <-.
  subst d_uvs. rewrite list_lookup_fmap, Hsel2 in Hduv.
  injection Hduv as <-.
  destruct (selected_faces bm1 !! j) as [f1|] eqn:Hsel1.
  - rewrite (captured_bundle_at uv_layer1 bm1 j f1 Hsel1) in Hat.
    injection Hat as <- <- <-. exists f1, f2, idx.
    repeat (split; [done|]). split; [|done].
    simpl in Hlen. unfold face_uvs in Hlen. by rewrite !length_map in Hlen.
  - unfold bundle_at, captured in Hat. simpl in Hat.
    by rewrite !list_lookup_fmap, Hsel1 in Hat.
Qed.
End RoundTrip.

Section RoundTripTheorem.
Context {T : Type}.
Implicit Types (bm : BMesh T) (f : BMFace T) (b : Bundle T).
Implicit Types (props : Props T) (op : PasteOp).

(** C3, as amended. A capture, pasted strictly without flip and rotation and
    with seams copied onto a selection with the same corner counts, and
    captured again, gives back the UVs and the pin flags of the first
    capture; it gives back the seam flags too, hence the whole capture set,
    when no edge is shared between two corners of the destination
    selection. *)
Theorem paste_copy_round_trip (umap uv_layer2 : string) props0 props1
    bm1 bm2 :
  let op := mkPasteOp umap N_N false 0 true in
  let B := (copy_uv umap props0 bm1).2 in
  (copy_uv umap props0 bm1).1 = FINISHED →
  get_uv_layer umap bm2 = inr uv_layer2 →
  map (λ f, length (face_loops f)) (selected_faces bm2)
  = map (λ f, length (face_loops f)) (selected_faces bm1) →
  (paste_uv op B bm2).1 = FINISHED
  ∧ (copy_uv umap props1 (paste_uv op B bm2).2).1 = FINISHED
  ∧ src_uvs (copy_uv umap props1 (paste_uv op B bm2).2).2 = src_uvs B
  ∧ src_pin_uvs (copy_uv umap props1 (paste_uv op B bm2).2).2
    = src_pin_uvs B
  ∧ (NoDup (loop_edges (selected_faces bm2)) →
     (copy_uv umap props1 (paste_uv op B bm2).2).2 = B).
Proof.
  intros op B Hcopy Hl2 Hcounts.
  destruct (copy_uv_finished_inv _ _ _ Hcopy) as (uv_layer1 & Hl1 & Hsel1 & HB).
  subst B. rewrite HB. clear HB Hcopy.
  assert (length (selected_faces bm2) = length (selected_faces bm1)) as Hlen.
  { apply (f_equal length) in Hcounts. by rewrite !length_map in Hcounts. }
  destruct (paste_uv_finishes op (captured uv_layer1 bm1) bm2 uv_layer2)
    as (bm0 & Hrun & Hpaste); try done.
  { apply captured_bundle_sizes. }
  { by left. }
  { simpl. by destruct (selected_faces bm1). }
  { intros Hnil. rewrite Hnil in Hlen. by destruct (selected_faces bm1). }
  { intros _. simpl. by rewrite length_map. }
  { intros j Hj. unfold src_size, dest_size. simpl.
    rewrite list_lookup_fmap.
    apply (f_equal (λ l, l !! j)) in Hcounts.
    rewrite !list_lookup_fmap in Hcounts.
    destruct (selected_faces bm1 !! j); destruct (selected_faces bm2 !! j);
      simpl in *; try done.
    injection Hcounts as ->. unfold face_uvs. by rewrite length_map. }
  rewrite Hpaste. cbn [fst snd].
  set (bm3 := mkMesh (faces bm0) (edge_seam bm0) (uv_layers bm0)
                     (uv_active bm0) true).
  pose proof (paste_faces_frame _ _ _ _ _ _ _ _ Hrun) as (Hshape & _).
  assert (same_shape bm2 bm3) as Hshape3
    by (destruct Hshape as (? & ? & ? & ?); by repeat split).
  assert (get_uv_layer umap bm3 = inr uv_layer2) as Hl3
    by (by rewrite (get_uv_layer_shape _ _ _ Hshape3)).
  assert (length (selected_faces bm3) = length (selected_faces bm1)) as Hlen3.
  { rewrite <- Hlen, <- !selected_indices_length.
    by rewrite (selected_indices_shape _ _ Hshape3). }
  rewrite (copy_uv_layer _ _ _ _ Hl3). cbn [fst snd].
  assert (selected_faces bm3 = selected_faces bm0) as Hsel3 by done.
  split; [done|]. split.
  { destruct (selected_faces bm3) eqn:Hs; [|done].
    simpl in Hlen3. by destruct (selected_faces bm1). }
  unfold captured. cbn [src_uvs src_pin_uvs].
  assert (map (face_uvs uv_layer2) (selected_faces bm3)
          = map (face_uvs uv_layer1) (selected_faces bm1)) as Huv.
  { apply (list_eq_same_length _ _ (length (selected_faces bm1)));
      [by rewrite length_map..|].
    intros j x y _ (f3 & -> & Hf3)%list_lookup_fmap_Some
      (f1 & -> & Hf1)%list_lookup_fmap_Some.
    rewrite Hsel3 in Hf3.
    destruct (round_trip_faces umap uv_layer1 uv_layer2 bm1 bm2 bm0 j f3
                Hrun Hf3) as (f1' & f2 & idx & Hf1' & _ & _ & _ & _ & Hl & ->).
    rewrite Hf1 in Hf1'. injection Hf1' as <-.
    apply written_face_read. rewrite <- Hl. apply face_bundle_size. }
  assert (map (face_pin_uvs uv_layer2) (selected_faces bm3)
          = map (face_pin_uvs uv_layer1) (selected_faces bm1)) as Hpin.
  { apply (list_eq_same_length _ _ (length (selected_faces bm1)));
      [by rewrite length_map..|].
    intros j x y _ (f3 & -> & Hf3)%list_lookup_fmap_Some
      (f1 & -> & Hf1)%list_lookup_fmap_Some.
    rewrite Hsel3 in Hf3.
    destruct (round_trip_faces umap uv_layer1 uv_layer2 bm1 bm2 bm0 j f3
                Hrun Hf3) as (f1' & f2 & idx & Hf1' & _ & _ & _ & _ & Hl & ->).
    rewrite Hf1 in Hf1'. injection Hf1' as <-.
    apply written_face_read. rewrite <- Hl. apply face_bundle_size. }
  split; [done|]. split; [done|].
  intros Hnd. rewrite Huv, Hpin. f_equal.
  destruct (selected_edges_NoDup bm2 Hnd) as [Hnd1 Hdisj].
  apply (list_eq_same_length _ _ (length (selected_faces bm1)));
    [by rewrite length_map..|].
  intros j x y _ (f3 & -> & Hf3)%list_lookup_fmap_Some
    (f1 & -> & Hf1)%list_lookup_fmap_Some.
  rewrite Hsel3 in Hf3.
  destruct (round_trip_faces umap uv_layer1 uv_layer2 bm1 bm2 bm0 j f3
              Hrun Hf3)
    as (f1' & f2 & idx & Hf1' & Hidx & Hf2 & _ & Hb & Hl & ->).
  rewrite Hf1 in Hf1'. injection Hf1' as <-.
  unfold face_seams at 1. cbn [edge_seam bm3].
  apply (list_eq_same_length _ _ (length (face_loops f2))).
  { unfold face_seams. by rewrite length_map. }
  { unfold written_face. cbn [face_loops].
    by rewrite length_map, write_loops_length. }
  intros k x y Hk (l3 & -> & Hl3')%list_lookup_fmap_Some Hy.
  destruct (lookup_lt_is_Some_2 (face_loops f2) k Hk) as [l2 Hl2'].
  assert (loop_edge l3 = loop_edge l2) as ->.
  { pose proof (write_loops_edges uv_layer2 (face_loops f2)
                  (zip3 (face_bundle uv_layer1 bm1 f1).1.1
                        (face_bundle uv_layer1 bm1 f1).1.2
                        (face_bundle uv_layer1 bm1 f1).2)) as He.
    apply (f_equal (λ l, l !! k)) in He.
    unfold written_face in Hl3'. cbn [face_loops] in Hl3'.
    rewrite !list_lookup_fmap, Hl3', Hl2' in He. by injection He. }
  destruct (lookup_lt_is_Some_2 (face_uvs uv_layer1 f1) k) as [u Hu].
  { unfold face_uvs. rewrite length_map. lia. }
  destruct (lookup_lt_is_Some_2 (face_pin_uvs uv_layer1 f1) k) as [p Hp].
  { unfold face_pin_uvs. rewrite length_map. lia. }
  apply (paste_faces_seams op (captured uv_layer1 bm1) uv_layer2
           (map (face_uvs uv_layer2) (selected_faces bm2))
           (enumerate (selected_indices bm2)) bm2 bm0 j idx k
           (face_bundle uv_layer1 bm1 f1) f2 l2 u p y); try done.
  - rewrite enumerate_snd. apply positions_from_NoDup.
  - rewrite enumerate_snd. apply Hnd1.
  - rewrite enumerate_snd. apply Hdisj.
  - by apply enumerate_elem_of.
  - by apply zip3_lookup.
Qed.
End RoundTripTheorem.

Lemma paste_copy_round_trip_witness :
  (paste_uv Examples.strict (copy_uv "" cleared Examples.seamed_pair).2
     Examples.apart_pair).1 = FINISHED
  ∧ (copy_uv "" cleared
       (paste_uv Examples.strict (copy_uv "" cleared Examples.seamed_pair).2
          Examples.apart_pair).2).2
    = (copy_uv "" cleared Examples.seamed_pair).2.
Proof.
  destruct (paste_copy_round_trip "" "UVMap" cleared cleared
              Examples.seamed_pair Examples.apart_pair)
    as (Hpaste & _ & _ & _ & Hall); [reflexivity..|].
  split; [exact Hpaste|]. apply Hall.
  apply (bool_decide_unpack _). reflexivity.
Defined.

(** C3, as stated, fails on the seam flags: an edge shared by two destination
    faces keeps the flag written last. *)
Lemma round_trip_loses_seam :
  (copy_uv "" cleared Examples.seamed_pair).1 = FINISHED
  ∧ src_seams (copy_uv "" cleared Examples.seamed_pair).2
    = [[true; true; true]; [false; false; false]]
  ∧ (paste_uv Examples.strict (copy_uv "" cleared Examples.seamed_pair).2
       Examples.joined_pair).1 = FINISHED
  ∧ src_seams
      (copy_uv "" cleared
         (paste_uv Examples.strict (copy_uv "" cleared Examples.seamed_pair).2
            Examples.joined_pair).2).2
    = [[true; true; false]; [false; false; false]].
Proof. repeat split; reflexivity. Qed.

(** ** The UV/Image-editor paste *)

Section ImageEditorPaste.
Context {T : Type} {F : FloatOps T}.
Implicit Types (bm : BMesh T) (f : BMFace T) (props : Props T).
Implicit Types (t : Transform T) (x : option (Transform T)).
Implicit Types (items : list (list (Vector T) * nat)).
Implicit Types (ls : list (BMLoop T)) (suvs : list (Vector T)).

(** The loop of lines 569-581. *)
Lemma ie_dest_fold (uv_layer : string) (fs : list (BMFace T)) (off : nat)
    (d : list nat * list (list (Vector T))) :
  fold_left (ie_dest_face uv_layer) (zip (seq off (length fs)) fs) d
  = (d.1 ++ positions_from (ie_face_ok uv_layer) off fs,
     d.2 ++ map (face_uvs uv_layer)
                (List.filter (ie_face_ok uv_layer) fs)).
Proof.
  revert off d. induction fs as [|f fs IH]; intros off d; simpl.
  - rewrite !app_nil_r. by destruct d.
  - rewrite IH. destruct (ie_face_ok uv_layer f); simpl; [|done].
    by rewrite <- !app_assoc.
Qed.

Lemma ie_get_dest_spec (uv_layer : string) bm :
  ie_get_dest uv_layer bm
  = (ie_indices uv_layer bm, map (face_uvs uv_layer) (ie_faces uv_layer bm)).
Proof. unfold ie_get_dest, enumerate. by rewrite ie_dest_fold. Qed.

Lemma ie_indices_lookup (uv_layer : string) (k idx : nat) bm :
  ie_indices uv_layer bm !! k = Some idx →
  ∃ f, faces bm !! idx = Some f ∧ ie_faces uv_layer bm !! k = Some f.
Proof.
  intros (f & _ & Hf & Hk)%positions_from_lookup.
  rewrite Nat.sub_0_r in Hf. by exists f.
Qed.

Lemma ie_indices_length (uv_layer : string) bm :
  length (ie_indices uv_layer bm) = length (ie_faces uv_layer bm).
Proof. apply positions_from_length. Qed.

(** The inner loop, once the transform is bound. *)
Lemma ie_write_loops_bound t (uv_layer : string) ls suvs :
  ∃ ls', ie_write_loops (Some t) uv_layer ls suvs = inr ls'
         ∧ length ls' = length ls
         ∧ ∀ (j : nat) (l : BMLoop T) (suv : Vector T),
             ls !! j = Some l → suvs !! j = Some suv →
             ls' !! j = Some (set_uv uv_layer l (target_uv t suv)).
Proof.
  revert suvs. induction ls as [|l ls IH]; intros [|suv suvs]; simpl;
    try (eexists; split; [done|]; split; [done|]; by intros [|j]).
  destruct (IH suvs) as (ls' & -> & Hlen & Hlook). simpl.
  eexists. split; [done|]. split; [simpl; lia|].
  intros [|j] l0 suv0; simpl; [by intros [= ->] [= ->]|]. apply Hlook.
Qed.

Lemma ie_paste_face_inv x (uv_layer : string) bm (suvs : list (Vector T))
    (fidx : nat) (bm' : BMesh T) :
  ie_paste_face x uv_layer bm (suvs, fidx) = inr bm' →
  ∃ f ls', faces bm !! fidx = Some f
           ∧ ie_write_loops x uv_layer (face_loops f) suvs = inr ls'
           ∧ bm' = mkMesh (<[fidx := mkFace (face_select f) ls']> (faces bm))
                     (edge_seam bm) (uv_layers bm) (uv_active bm)
                     (show_edge_seams bm).
Proof.
  unfold ie_paste_face, py_index.
  destruct (faces bm !! fidx) as [f|]; [|done]. cbn [bind].
  destruct (ie_write_loops x uv_layer (face_loops f) suvs) as [out|ls']
    eqn:Hls; [done|]. cbn [bind]. intros [= <-]. by exists f, ls'.
Qed.

Lemma ie_paste_faces_frame x (uv_layer : string) items bm
    (res : option Outcome) (bm' : BMesh T) :
  ie_paste_faces x uv_layer items bm = (res, bm') →
  edge_seam bm' = edge_seam bm
  ∧ uv_layers bm' = uv_layers bm
  ∧ uv_active bm' = uv_active bm
  ∧ show_edge_seams bm' = show_edge_seams bm
  ∧ length (faces bm') = length (faces bm)
  ∧ ∀ p : nat, p ∉ items.*2 → faces bm' !! p = faces bm !! p.
Proof.
  revert bm. induction items as [|[suvs fidx] items IH]; intros bm; simpl.
  - by intros [= <- <-].
  - destruct (ie_paste_face x uv_layer bm (suvs, fidx)) as [out|bm1]
      eqn:Hface.
    { by intros [= <- <-]. }
    intros (Hs & Hl & Ha & Hsh & Hlen & Hfaces)%IH.
    apply ie_paste_face_inv in Hface as (f & ls' & Hf & _ & ->).
    simpl in *. rewrite length_insert in Hlen.
    repeat (split; [done|]).
    intros p [Hne Hp]%not_elem_of_cons. rewrite Hfaces by done.
    by apply list_lookup_insert_ne.
Qed.

Lemma ie_paste_faces_total t (uv_layer : string) items bm :
  (∀ suvs fidx, (suvs, fidx) ∈ items → fidx < length (faces bm)) →
  ∃ bm', ie_paste_faces (Some t) uv_layer items bm = (None, bm').
Proof.
  revert bm. induction items as [|[suvs fidx] items IH]; intros bm Hok; simpl.
  - by exists bm.
  - destruct (lookup_lt_is_Some_2 (faces bm) fidx) as [f Hf].
    { apply (Hok suvs). apply elem_of_cons. by left. }
    destruct (ie_write_loops_bound t uv_layer (face_loops f) suvs)
      as (ls' & Hls' & _).
    unfold ie_paste_face, py_index. rewrite Hf. cbn [bind]. rewrite Hls'.
    cbn [bind]. apply IH. intros suvs' fidx' Hin. cbn [faces].
    rewrite length_insert. apply (Hok suvs'). apply elem_of_cons. by right.
Qed.

(** After the loop, every corner the zip reaches carries the transform of
    its source corner. *)
Lemma ie_paste_faces_written t (uv_layer : string) items bm (bm' : BMesh T)
    (suvs : list (Vector T)) (fidx j : nat) f (l : BMLoop T)
    (suv : Vector T) :
  NoDup items.*2 →
  ie_paste_faces (Some t) uv_layer items bm = (None, bm') →
  (suvs, fidx) ∈ items →
  faces bm !! fidx = Some f →
  face_loops f !! j = Some l → suvs !! j = Some suv →
  ∃ f', faces bm' !! fidx = Some f'
        ∧ face_loops f' !! j = Some (set_uv uv_layer l (target_uv t suv)).
Proof.
  revert bm. induction items as [|[suvs0 fidx0] items IH]; intros bm Hnd;
    simpl; [by intros _ ?%elem_of_nil|].
  simpl in Hnd. apply NoDup_cons in Hnd as [Hnin Hnd].
  destruct (ie_paste_face (Some t) uv_layer bm (suvs0, fidx0)) as [out|bm1]
    eqn:Hface; [done|].
  intros Hrest Hin Hf Hl Hsuv.
  apply ie_paste_face_inv in Hface as (f0 & ls' & Hf0 & Hls' & ->).
  apply elem_of_cons in Hin as [Heq|Hin].
  - injection Heq as <- <-. rewrite Hf0 in Hf. injection Hf as ->.
    apply ie_paste_faces_frame in Hrest as (_ & _ & _ & _ & _ & Hfaces).
    destruct (ie_write_loops_bound t uv_layer (face_loops f) suvs)
      as (ls'' & Hls'' & _ & Hlook).
    rewrite Hls' in Hls''. injection Hls'' as <-.
    exists (mkFace (face_select f) ls'). rewrite Hfaces by done. simpl.
    split; [|by apply Hlook].
    apply list_lookup_insert_eq. by eapply lookup_lt_Some.
  - apply (IH _ Hnd Hrest Hin); [|done|done]. simpl.
    rewrite list_lookup_insert_ne; [done|].
    intros ->. apply Hnin. apply list_elem_of_fmap. by exists (suvs, fidx).
Qed.
End ImageEditorPaste.

Section ImageEditorTheorems.
Context {T : Type} {F : FloatOps T}.
Implicit Types (bm : BMesh T) (f : BMFace T) (props : Props T).
Implicit Types (t : Transform T) (x : option (Transform T)).
Implicit Types (items : list (list (Vector T) * nat)).

Lemma zip_snd_take {A B} (l : list A) (k : list B) :
  (zip l k).*2 = take (length l) k.
Proof.
  revert k. induction l as [|a l IH]; intros [|b k]; simpl; try done.
  by rewrite IH.
Qed.

Lemma zip_lookup {A B} (l : list A) (k : list B) (i : nat) (a : A) (b : B) :
  zip l k !! i = Some (a, b) ↔ l !! i = Some a ∧ k !! i = Some b.
Proof.
  rewrite lookup_zip_with_Some. split.
  - by intros (a' & b' & [= -> ->] & ? & ?).
  - intros [? ?]. by exists a, b.
Qed.

(** *** What can go wrong: only exceptions *)

Lemma py_index_raised {A} (l : list A) (i : nat) (out : Outcome) :
  py_index l i = inl out → ∃ e, out = RAISED e.
Proof. unfold py_index. destruct (l !! i); naive_solver. Qed.

Lemma pair_transform_raised (suvs duvs : list (Vector T)) (out : Outcome) :
  pair_transform suvs duvs = inl out → ∃ e, out = RAISED e.
Proof.
  unfold pair_transform. intros Hp.
  repeat (apply bind_error in Hp as [Hp|(? & _ & Hp)];
          [by eapply py_index_raised|]).
  apply bind_error in Hp as [Hp|(? & _ & Hp)]; [|done].
  unfold py_div in Hp. case_match; naive_solver.
Qed.

Lemma ie_transform_raised (srcs dests : list (list (Vector T)))
    (out : Outcome) :
  ie_transform srcs dests = inl out → ∃ e, out = RAISED e.
Proof.
  unfold ie_transform. destruct (zip srcs dests) as [|[suvs duvs] ?]; [done|].
  intros [Hp|(? & _ & Hp)]%bind_error; [|done].
  by eapply pair_transform_raised.
Qed.

Lemma ie_write_loops_raised x (uv_layer : string) (ls : list (BMLoop T))
    (suvs : list (Vector T)) (out : Outcome) :
  ie_write_loops x uv_layer ls suvs = inl out → ∃ e, out = RAISED e.
Proof.
  revert suvs. induction ls as [|l ls IH]; intros [|suv suvs]; simpl;
    try done.
  destruct x as [t|]; [|naive_solver].
  intros [Hp|(? & _ & Hp)]%bind_error; [by eapply IH|done].
Qed.

Lemma ie_paste_faces_raised x (uv_layer : string) items bm (out : Outcome)
    (bm' : BMesh T) :
  ie_paste_faces x uv_layer items bm = (Some out, bm') → ∃ e, out = RAISED e.
Proof.
  revert bm. induction items as [|[suvs fidx] items IH]; intros bm; simpl;
    [done|].
  destruct (ie_paste_face x uv_layer bm (suvs, fidx)) as [out'|bm1] eqn:Hface;
    [|apply IH].
  intros [= <- <-]. unfold ie_paste_face in Hface.
  apply bind_error in Hface as [Hp|(? & _ & Hp)];
    [by eapply py_index_raised|].
  apply bind_error in Hp as [Hp|(? & _ & Hp)]; [|done].
  by eapply ie_write_loops_raised.
Qed.

(** C10. The UV/Image-editor paste never returns CANCELLED, so it reports
    neither NothingCopied nor NoSelection; with nothing captured, or with no
    destination face that is selected with all its corners selected, it
    finishes and returns the mesh as [verify()] gave it, which is the mesh
    itself when it has a UV layer. *)
Theorem ie_paste_uv_silent props bm :
  (∀ w, (ie_paste_uv props bm).1 ≠ CANCELLED w)
  ∧ (src_uvs props = []
     ∨ ie_faces (layers_uv_verify bm).2 (layers_uv_verify bm).1 = [] →
     ie_paste_uv props bm = (FINISHED, (layers_uv_verify bm).1))
  ∧ (uv_layers bm ≠ [] → (layers_uv_verify bm).1 = bm).
Proof.
  split; [|split].
  - intros w. unfold ie_paste_uv.
    destruct (layers_uv_verify bm) as [bm1 uv_layer].
    destruct (ie_get_dest uv_layer bm1) as [d_idx d_uvs].
    destruct (ie_transform (src_uvs props) d_uvs) as [out|x] eqn:Ht.
    { apply ie_transform_raised in Ht as [e ->]. done. }
    destruct (ie_paste_faces x uv_layer _ bm1) as [[out|] bm'] eqn:Hrun;
      [|done].
    apply ie_paste_faces_raised in Hrun as [e ->]. done.
  - unfold ie_paste_uv.
    destruct (layers_uv_verify bm) as [bm1 uv_layer]. cbn [fst snd].
    rewrite ie_get_dest_spec. unfold ie_transform.
    intros [->| Hnil].
    + done.
    + assert (ie_indices uv_layer bm1 = []) as Hidx.
      { apply nil_length_inv. by rewrite ie_indices_length, Hnil. }
      rewrite Hnil, Hidx. simpl. by rewrite !zip_with_nil_r.
  - unfold layers_uv_verify. by destruct (uv_layers bm).
Qed.

Lemma pair_transform_inv (suvs duvs : list (Vector T)) t :
  pair_transform suvs duvs = inr t →
  suvs !! 0 = Some (src_base t) ∧ duvs !! 0 = Some (dest_base t).
Proof.
  unfold pair_transform, py_index.
  destruct (suvs !! 1); [|done]. destruct (suvs !! 0); [|done].
  destruct (duvs !! 1); [|done]. destruct (duvs !! 0); [|done].
  cbn [bind]. unfold py_div. case_match; [done|]. cbn [bind].
  by intros [= <-].
Qed.

Lemma ie_transform_inv (srcs dests : list (list (Vector T))) t :
  ie_transform srcs dests = inr (Some t) →
  first_corner srcs = Some (src_base t)
  ∧ first_corner dests = Some (dest_base t).
Proof.
  unfold ie_transform, first_corner.
  destruct srcs as [|suvs srcs]; [done|].
  destruct dests as [|duvs dests]; [done|]. simpl.
  destruct (pair_transform suvs duvs) as [out|t'] eqn:Hp; [done|].
  simpl. intros [= ->]. by apply pair_transform_inv.
Qed.

(** Where the second loop (lines 602-612) puts every corner. *)
Lemma ie_paste_uv_corners props bm t :
  let bm1 := (layers_uv_verify bm).1 in
  let uv_layer := (layers_uv_verify bm).2 in
  ie_transform (src_uvs props)
    (map (face_uvs uv_layer) (ie_faces uv_layer bm1)) = inr (Some t) →
  ∃ bm',
    ie_paste_uv props bm = (FINISHED, bm')
    ∧ ∀ (k j : nat) (suvs : list (Vector T)) f (c : Vector T)
        (l : BMLoop T),
        src_uvs props !! k = Some suvs →
        ie_faces uv_layer bm1 !! k = Some f →
        suvs !! j = Some c → face_loops f !! j = Some l →
        ∃ fidx f',
          ie_indices uv_layer bm1 !! k = Some fidx
          ∧ faces bm' !! fidx = Some f'
          ∧ face_loops f' !! j = Some (set_uv uv_layer l (target_uv t c)).
Proof.
  intros bm1 uv_layer Ht.
  unfold ie_paste_uv. subst bm1 uv_layer.
  destruct (layers_uv_verify bm) as [bm1 uv_layer]. cbn [fst snd] in *.
  rewrite ie_get_dest_spec, Ht.
  destruct (ie_paste_faces_total t uv_layer
              (zip (src_uvs props) (ie_indices uv_layer bm1)) bm1)
    as [bm' Hrun].
  { intros suvs fidx [k [_ Hk]%zip_lookup]%list_elem_of_lookup_1.
    destruct (ie_indices_lookup _ _ _ _ Hk) as (f & Hf & _).
    by eapply lookup_lt_Some. }
  rewrite Hrun. exists bm'. split; [done|].
  intros k j suvs f c l Hsuvs Hf Hc Hl.
  destruct (lookup_lt_is_Some_2 (ie_indices uv_layer bm1) k) as [fidx Hfidx].
  { rewrite ie_indices_length. by eapply lookup_lt_Some. }
  destruct (ie_indices_lookup _ _ _ _ Hfidx) as (f0 & Hf0 & Hf0').
  rewrite Hf in Hf0'. injection Hf0' as <-.
  destruct (ie_paste_faces_written t uv_layer
              (zip (src_uvs props) (ie_indices uv_layer bm1)) bm1 bm'
              suvs fidx j f l c) as (f' & Hf' & Hl'); try done.
  { rewrite zip_snd_take.
    apply (sublist_NoDup _ (ie_indices uv_layer bm1));
      [apply positions_from_NoDup|apply sublist_take]. }
  { apply list_elem_of_lookup. exists k. by apply zip_lookup. }
  by exists fidx, f'.
Qed.

(** Lines 604-611 rotate and scale the offset from [src_base] and add
    [dest_base]. *)
Lemma target_uv_rotate_scale t (c : Vector T) :
  target_uv t c
  = v_add (rotate_scale (radian t) (ratio t) (v_sub c (src_base t)))
          (dest_base t).
Proof. done. Qed.

(** C1, as amended. Once the transform [(θ, s)] is derived, every corner
    [c] of every captured face is rotated by [θ] and scaled by [s] around
    the first corner of the FIRST captured face, and translated onto the
    first corner of the FIRST destination face: the corner of the paired
    destination face receives
    [rotate_scale θ s (c - src_0[0]) + dest_0[0]]. *)
Theorem ie_paste_uv_written props bm t :
  let bm1 := (layers_uv_verify bm).1 in
  let uv_layer := (layers_uv_verify bm).2 in
  ie_transform (src_uvs props)
    (map (face_uvs uv_layer) (ie_faces uv_layer bm1)) = inr (Some t) →
  first_corner (src_uvs props) = Some (src_base t)
  ∧ first_corner (map (face_uvs uv_layer) (ie_faces uv_layer bm1))
    = Some (dest_base t)
  ∧ ∃ bm',
      ie_paste_uv props bm = (FINISHED, bm')
      ∧ ∀ (k j : nat) (suvs : list (Vector T)) f (c : Vector T)
          (l : BMLoop T),
          src_uvs props !! k = Some suvs →
          ie_faces uv_layer bm1 !! k = Some f →
          suvs !! j = Some c → face_loops f !! j = Some l →
          ∃ fidx f',
            ie_indices uv_layer bm1 !! k = Some fidx
            ∧ faces bm' !! fidx = Some f'
            ∧ (λ l', uv (loop_layer l' uv_layer)) <$> face_loops f' !! j
              = Some (v_add (rotate_scale (radian t) (ratio t)
                               (v_sub c (src_base t)))
                            (dest_base t)).
Proof.
  intros bm1 uv_layer Ht.
  destruct (ie_transform_inv _ _ _ Ht) as [Hs Hd].
  split; [exact Hs|]. split; [exact Hd|].
  destruct (ie_paste_uv_corners props bm t Ht) as (bm' & Hrun & Hcorners).
  exists bm'. split; [exact Hrun|].
  intros k j suvs f c l Hsuvs Hf Hc Hl.
  destruct (Hcorners k j suvs f c l Hsuvs Hf Hc Hl)
    as (fidx & f' & Hfidx & Hf' & Hl').
  exists fidx, f'. split; [exact Hfidx|]. split; [exact Hf'|].
  rewrite Hl'. simpl. rewrite bool_decide_eq_true_2 by done.
  by rewrite target_uv_rotate_scale.
Qed.
End ImageEditorTheorems.

(** ** The transform on the examples' instance *)

Module RealFacts.
Import RealFloat.
Local Open Scope R_scope.

(** Lines 584-599 when the source edge has a length. *)
Lemma pair_transform_real (s0 s1 d0 d1 : Vector R)
    (srest drest : list (Vector R)) :
  v_length (v_sub s1 s0) ≠ 0 →
  pair_transform (s0 :: s1 :: srest) (d0 :: d1 :: drest)
  = inr (mkTransform s0 d0
           (if Rltb (angle (v_sub s1 s0)) (angle (v_sub d1 d0))
            then angle (v_sub d1 d0) - angle (v_sub s1 s0)
            else if Rltb (angle (v_sub d1 d0)) (angle (v_sub s1 s0))
                 then PI * 2 - (angle (v_sub s1 s0) - angle (v_sub d1 d0))
                 else 0)
           (v_length (v_sub d1 d0) / v_length (v_sub s1 s0))).
Proof.
  intros Hlen. unfold pair_transform, py_index. cbn [lookup list_lookup bind].
  unfold py_div. cbn [f_eqb real_float]. unfold Reqb.
  destruct (Req_dec_T _ _) as [Heq|_]; [done|]. done.
Qed.
End RealFacts.

(** ** The UV/Image-editor paste on concrete meshes *)

Module ImageEditorExamples.
Import RealFloat RealFacts.
Local Open Scope R_scope.

Lemma ie_paste_uv_silent_witness :
  ie_paste_uv (Examples.store []) (Examples.mesh [Examples.tri true 0 0])
  = (FINISHED, Examples.mesh [Examples.tri true 0 0]).
Proof.
  destruct (ie_paste_uv_silent (Examples.store [])
              (Examples.mesh [Examples.tri true 0 0])) as (_ & Hnoop & _).
  apply Hnoop. left. reflexivity.
Defined.

(** The transform of the unit triangle at the origin onto the unit triangle
    at offset [o]. *)
Lemma unit_triangle_transform (o : R) (srcs dests : list (list (Vector R))) :
  ∃ θ r,
    ie_transform ((Examples.tri_bundle 0).1.1 :: srcs)
                 ((Examples.tri_bundle o).1.1 :: dests)
    = inr (Some (mkTransform (0, 0) (o, 0) θ r)).
Proof.
  unfold ie_transform, Examples.tri_bundle. cbn [fst snd zip_with].
  rewrite pair_transform_real; [by eexists _, _|].
  unfold v_length, v_sub. cbn [fst snd f_sub f_add f_mul f_sqrt real_float].
  replace ((0 + 1 - 0) * (0 + 1 - 0) + (0 - 0) * (0 - 0)) with 1 by ring.
  rewrite sqrt_1. lra.
Qed.

Lemma ie_paste_uv_written_witness :
  ∃ t bm' f',
    ie_paste_uv (Examples.store [Examples.tri_bundle 0])
      (Examples.mesh [Examples.tri true 5 0]) = (FINISHED, bm')
    ∧ faces bm' !! 0%nat = Some f'
    ∧ (λ l', uv (loop_layer l' "UVMap")) <$> face_loops f' !! 1%nat
      = Some (v_add (rotate_scale (radian t) (ratio t)
                       (v_sub (0 + 1, 0) (src_base t)))
                    (dest_base t)).
Proof.
  destruct (unit_triangle_transform 5 [] []) as (θ & r & Ht).
  destruct (ie_paste_uv_written (Examples.store [Examples.tri_bundle 0])
              (Examples.mesh [Examples.tri true 5 0])
              (mkTransform (0, 0) (5, 0) θ r) Ht)
    as (_ & _ & bm' & Hrun & Hwritten).
  destruct (Hwritten 0%nat 1%nat (Examples.tri_bundle 0).1.1
              (Examples.tri true 5 0) (0 + 1, 0)
              (Examples.loop (5 + 1) 0 true 1))
    as (fidx & f' & Hfidx & Hf' & Hl'); [reflexivity..|].
  injection Hfidx as <-.
  exists (mkTransform (0, 0) (5, 0) θ r), bm', f'.
  split; [exact Hrun|]. split; [exact Hf'|]. exact Hl'.
Defined.

(** C1, as stated, fails. Two captured triangles at the origin are pasted
    onto the triangles at offsets 0 and 5. The first corner of the second
    destination face does not stay at that face's own first corner
    [(5, 0)], where a rotation and scaling about the second source face's
    own first corner would leave it: it is moved to the first corner of the
    first destination face. *)
Lemma ie_paste_not_per_face :
  let props := Examples.store [Examples.tri_bundle 0; Examples.tri_bundle 0] in
  let bm := Examples.mesh [Examples.tri true 0 0; Examples.tri true 5 3] in
  src_uvs props !! 1%nat ≫= (λ suvs, suvs !! 0%nat) = Some (0, 0)
  ∧ (face_uvs "UVMap" <$> faces bm !! 1%nat) ≫= (λ duvs, duvs !! 0%nat)
    = Some (5, 0)
  ∧ ∃ t bm' f' w,
      ie_transform (src_uvs props)
        (map (face_uvs "UVMap") (ie_faces "UVMap" bm)) = inr (Some t)
      ∧ ie_paste_uv props bm = (FINISHED, bm')
      ∧ faces bm' !! 1%nat = Some f'
      ∧ (λ l', uv (loop_layer l' "UVMap")) <$> face_loops f' !! 0%nat = Some w
      ∧ w ≠ v_add (rotate_scale (radian t) (ratio t)
                     (v_sub (0, 0) (0, 0)))
                  (5, 0).
Proof.
  intros props bm. split; [reflexivity|]. split; [reflexivity|].
  destruct (unit_triangle_transform 0 [(Examples.tri_bundle 0).1.1]
              [(Examples.tri_bundle 5).1.1]) as (θ & r & Ht).
  destruct (ie_paste_uv_corners props bm (mkTransform (0, 0) (0, 0) θ r) Ht)
    as (bm' & Hrun & Hwritten).
  destruct (Hwritten 1%nat 0%nat (Examples.tri_bundle 0).1.1
              (Examples.tri true 5 3) (0, 0) (Examples.loop 5 0 false 3))
    as (fidx & f' & Hfidx & Hf' & Hl'); [reflexivity..|].
  injection Hfidx as <-.
  exists (mkTransform (0, 0) (0, 0) θ r), bm', f',
    (target_uv (mkTransform (0, 0) (0, 0) θ r) (0, 0)).
  split; [exact Ht|]. split; [exact Hrun|].
  split; [exact Hf'|]. split; [by rewrite Hl'|].
  rewrite target_uv_rotate_scale. cbn [src_base dest_base radian ratio].
  intros Heq. apply (f_equal fst) in Heq. unfold v_add in Heq.
  cbn [fst snd f_add real_float] in Heq. lra.
Qed.
End ImageEditorExamples.

(** * Further properties of the face-set engine *)

Section CaptureInvariant.
Context {T : Type}.
Implicit Types (bm : BMesh T) (props : Props T) (op : PasteOp).

(** X1. Once the UV layer is resolved, the store a capture leaves holds one
    bundle per selected face, and in every bundle the UVs, the pin flags and
    the seam flags are as many as the corners of the face it was read
    from. *)
Theorem copy_uv_store_invariant (umap uv_layer : string) props bm :
  get_uv_layer umap bm = inr uv_layer →
  capture_set (length (selected_faces bm)) (copy_uv umap props bm).2
  ∧ bundle_sizes (copy_uv umap props bm).2
  ∧ map length (src_uvs (copy_uv umap props bm).2)
    = map (λ f, length (face_loops f)) (selected_faces bm).
Proof.
  intros Hl. rewrite (copy_uv_layer _ _ _ _ Hl). cbn [snd].
  split; [apply captured_capture_set|]. split; [apply captured_bundle_sizes|].
  unfold captured. cbn [src_uvs]. rewrite map_map. apply map_ext.
  intros f. unfold face_uvs. by rewrite length_map.
Qed.

(** X2. A UV map name that the mesh does not have makes both the capture and
    the paste raise KeyError, and a mesh without any UV layer makes them
    cancel with NoAttributeLayer when no name is given; the store and the
    mesh are left as they were. *)
Theorem uv_layer_failures_change_nothing op props bm :
  src_uvs props ≠ [] → src_pin_uvs props ≠ [] →
  (uv_map op ≠ "" → uv_map op ∉ uv_layers bm →
   copy_uv (uv_map op) props bm = (RAISED KeyError, props)
   ∧ paste_uv op props bm = (RAISED KeyError, bm))
  ∧ (uv_map op = "" → uv_layers bm = [] →
     copy_uv (uv_map op) props bm = (CANCELLED NoAttributeLayer, props)
     ∧ paste_uv op props bm = (CANCELLED NoAttributeLayer, bm)).
Proof.
  intros Hu Hp.
  assert (py_not (src_uvs props) || py_not (src_pin_uvs props) = false) as Hne
    by (destruct (src_uvs props), (src_pin_uvs props); done).
  split.
  - intros Hname Hin.
    assert (get_uv_layer (uv_map op) bm = inl (RAISED KeyError)) as Hl.
    { unfold get_uv_layer.
      by rewrite bool_decide_eq_false_2, bool_decide_eq_false_2. }
    split; [by apply copy_uv_no_layer|].
    unfold paste_uv. by rewrite Hne, Hl.
  - intros Hname Hnil.
    assert (get_uv_layer (uv_map op) bm = inl (CANCELLED NoAttributeLayer))
      as Hl.
    { unfold get_uv_layer. by rewrite bool_decide_eq_true_2, Hnil. }
    split; [by apply copy_uv_no_layer|].
    unfold paste_uv. by rewrite Hne, Hl.
Qed.
End CaptureInvariant.

Lemma copy_uv_store_invariant_witness :
  capture_set 2 (copy_uv "" cleared Examples.seamed_pair).2
  ∧ bundle_sizes (copy_uv "" cleared Examples.seamed_pair).2
  ∧ map length (src_uvs (copy_uv "" cleared Examples.seamed_pair).2)
    = [3; 3].
Proof.
  apply (copy_uv_store_invariant "" "UVMap" cleared Examples.seamed_pair).
  reflexivity.
Defined.

Lemma uv_layer_failures_change_nothing_witness :
  copy_uv "Other" (Examples.store [Examples.tri_bundle 1])
    (Examples.mesh [Examples.tri true 0 0])
  = (RAISED KeyError, Examples.store [Examples.tri_bundle 1])
  ∧ paste_uv (mkPasteOp "Other" N_M false 0 true)
      (Examples.store [Examples.tri_bundle 1])
      (Examples.mesh [Examples.tri true 0 0])
    = (RAISED KeyError, Examples.mesh [Examples.tri true 0 0]).
Proof.
  apply (uv_layer_failures_change_nothing (mkPasteOp "Other" N_M false 0 true)
           (Examples.store [Examples.tri_bundle 1])
           (Examples.mesh [Examples.tri true 0 0]));
    [discriminate|discriminate|discriminate|].
  apply (bool_decide_unpack _). reflexivity.
Defined.

Section PasteFrame.
Context {T : Type}.
Implicit Types (bm : BMesh T) (f : BMFace T) (b : Bundle T).
Implicit Types (props : Props T) (op : PasteOp).
Implicit Types (items : list (nat * nat)) (d_uvs : list (list (Vector T))).

(** The only warning the loop of lines 221-261 reports. *)
Lemma py_index_cancelled {A} (l : list A) (i : nat) (w : Warning) :
  py_index l i ≠ inl (CANCELLED w).
Proof. unfold py_index. by destruct (l !! i). Qed.

Lemma py_pop_cancelled {A} (l : list A) (w : Warning) :
  py_pop l ≠ inl (CANCELLED w).
Proof. unfold py_pop. by destruct (last l). Qed.

Lemma py_mod_cancelled (i n : nat) (w : Warning) :
  py_mod i n ≠ inl (CANCELLED w).
Proof. unfold py_mod. by destruct n. Qed.

Lemma rotate_uvs_cancelled (k : nat) b (w : Warning) :
  rotate_uvs k b ≠ inl (CANCELLED w).
Proof.
  revert b. induction k as [|k IH]; intros b; simpl; [done|].
  intros [Hstep|(b' & _ & Hrest)]%bind_error; [|by eapply IH].
  destruct b as [[us ps] ss]. unfold rotate_step in Hstep.
  repeat (apply bind_error in Hstep as [Hstep|([? ?] & _ & Hstep)];
          [by eapply py_pop_cancelled|]).
  done.
Qed.

Lemma pick_source_cancelled (st : Strategy) props d_uvs (i : nat)
    (w : Warning) :
  pick_source st props d_uvs i ≠ inl (CANCELLED w).
Proof.
  unfold pick_source. destruct st; intros Hpick;
    repeat (apply bind_error in Hpick as [Hpick|(? & _ & Hpick)];
            [first [by eapply py_index_cancelled
                   |by eapply py_mod_cancelled]|]);
    done.
Qed.

Lemma paste_faces_cancelled op props (uv_layer : string) d_uvs items bm
    (w : Warning) (bm' : BMesh T) :
  paste_faces op props uv_layer d_uvs items bm = (Some (CANCELLED w), bm') →
  w = FaceSizeMismatch.
Proof.
  revert bm. induction items as [|[i idx] items IH]; intros bm; simpl; [done|].
  destruct (paste_face op props uv_layer d_uvs bm (i, idx)) as [out|bm1]
    eqn:Hface; [|apply IH].
  intros [= -> <-]. unfold paste_face in Hface.
  apply bind_error in Hface as [Hprep|([[us ps] ss] & _ & Hw)].
  - unfold prepare_bundle in Hprep.
    apply bind_error in Hprep as [Hpick|([[[suv spuv] ss] duv] & _ & Hrest)];
      [by apply pick_source_cancelled in Hpick|].
    case_bool_decide; [by injection Hrest as <-|].
    by apply rotate_uvs_cancelled in Hrest.
  - unfold write_face in Hw.
    apply bind_error in Hw as [Hw|(? & _ & Hw)]; [|done].
    by apply py_index_cancelled in Hw.
Qed.

(** X3. A paste that is cancelled for any reason other than FaceSizeMismatch
    returns the mesh exactly as it was: NothingCopied, NoAttributeLayer,
    NoSelection and CountMismatch are all reported before the first write. *)
Theorem paste_uv_cancelled_early op props bm (w : Warning) :
  (paste_uv op props bm).1 = CANCELLED w → w ≠ FaceSizeMismatch →
  (paste_uv op props bm).2 = bm.
Proof.
  unfold paste_uv.
  destruct (py_not (src_uvs props) || py_not (src_pin_uvs props)); [done|].
  destruct (get_uv_layer (uv_map op) bm) as [out|uv_layer]; [done|].
  destruct (py_not _ || py_not _); [done|].
  destruct (_ && _); [done|].
  destruct (paste_faces op props uv_layer _ _ bm) as [[out|] bm0] eqn:Hrun;
    [|done].
  cbn [fst snd]. intros -> Hw.
  by apply paste_faces_cancelled in Hrun.
Qed.

(** X4. With something in the store and the UV layer resolved, a paste onto
    a mesh with no selected face is cancelled with NoSelection under either
    strategy: the check comes before the comparison of the counts. *)
Theorem paste_uv_no_selection op props bm (uv_layer : string) :
  src_uvs props ≠ [] → src_pin_uvs props ≠ [] →
  get_uv_layer (uv_map op) bm = inr uv_layer →
  selected_faces bm = [] →
  paste_uv op props bm = (CANCELLED NoSelection, bm).
Proof.
  intros Hu Hp Hl Hsel. unfold paste_uv.
  destruct (src_uvs props); [done|]. destruct (src_pin_uvs props); [done|].
  cbn [py_not orb]. rewrite Hl, get_dest_spec, Hsel. done.
Qed.
End PasteFrame.

Lemma paste_uv_cancelled_early_witness :
  (paste_uv Examples.strict
     (Examples.store [Examples.tri_bundle 0; Examples.tri_bundle 1])
     (Examples.mesh [Examples.tri true 0 0])).2
  = Examples.mesh [Examples.tri true 0 0].
Proof.
  apply (paste_uv_cancelled_early Examples.strict _ _ CountMismatch);
    [reflexivity|discriminate].
Defined.

Lemma paste_uv_no_selection_witness :
  paste_uv Examples.strict
    (Examples.store [Examples.tri_bundle 0; Examples.tri_bundle 1])
    (Examples.mesh [Examples.tri false 0 0])
  = (CANCELLED NoSelection, Examples.mesh [Examples.tri false 0 0]).
Proof.
  apply (paste_uv_no_selection Examples.strict _ _ "UVMap");
    [discriminate|discriminate|reflexivity|reflexivity].
Defined.

Section PasteKeeps.
Context {T : Type}.
Implicit Types (bm : BMesh T) (f : BMFace T) (b : Bundle T).
Implicit Types (props : Props T) (op : PasteOp) (l : BMLoop T).
Implicit Types (items : list (nat * nat)) (d_uvs : list (list (Vector T))).

Lemma loop_kept_refl (uv_layer : string) l : loop_kept uv_layer l l.
Proof. by split. Qed.

Lemma loop_kept_trans (uv_layer : string) l1 l2 l3 :
  loop_kept uv_layer l1 l2 → loop_kept uv_layer l2 l3 →
  loop_kept uv_layer l1 l3.
Proof.
  intros [He1 H1] [He2 H2]. split; [congruence|].
  intros k. destruct (H1 k) as [Hs1 Hd1], (H2 k) as [Hs2 Hd2].
  split; [congruence|]. intros Hk. rewrite Hd2, Hd1; done.
Qed.

Lemma write_loops_kept (uv_layer : string) (ls : list (BMLoop T))
    (vals : list (Vector T * bool * bool)) :
  Forall2 (loop_kept uv_layer) ls (write_loops uv_layer ls vals).
Proof.
  revert vals. induction ls as [|l ls IH]; intros vals; [constructor|].
  destruct vals as [|[[u p] s] vals]; simpl.
  - apply Forall2_cons; split; [apply loop_kept_refl|].
    clear. induction ls; constructor; [apply loop_kept_refl|done].
  - apply Forall2_cons; split; [|apply IH].
    split; [done|]. intros k. simpl. case_bool_decide; [|done].
    split; [done|]. by intros ?.
Qed.

Lemma face_kept_refl (uv_layer : string) f : face_kept uv_layer f f.
Proof.
  split; [done|]. induction (face_loops f); constructor;
    [apply loop_kept_refl|done].
Qed.

Lemma face_kept_trans (uv_layer : string) f1 f2 f3 :
  face_kept uv_layer f1 f2 → face_kept uv_layer f2 f3 →
  face_kept uv_layer f1 f3.
Proof.
  intros [Hs1 Hl1] [Hs2 Hl2]. split; [congruence|].
  revert Hl1 Hl2. generalize (face_loops f1) (face_loops f2) (face_loops f3).
  intros ls1 ls2 ls3 H12. revert ls3.
  induction H12 as [|l1 l2 ls1 ls2 Hl H12 IH]; intros ls3 H23.
  - by apply Forall2_nil_inv_l in H23 as ->.
  - apply Forall2_cons_inv_l in H23 as (l3 & ls3' & Hl' & H23 & ->).
    constructor; [by eapply loop_kept_trans|by apply IH].
Qed.

Lemma faces_kept_refl (uv_layer : string) (fs : list (BMFace T)) :
  Forall2 (face_kept uv_layer) fs fs.
Proof. induction fs; constructor; [apply face_kept_refl|done]. Qed.

Lemma faces_kept_trans (uv_layer : string) (fs1 fs2 fs3 : list (BMFace T)) :
  Forall2 (face_kept uv_layer) fs1 fs2 → Forall2 (face_kept uv_layer) fs2 fs3 →
  Forall2 (face_kept uv_layer) fs1 fs3.
Proof.
  intros H12. revert fs3.
  induction H12 as [|f1 f2 fs1 fs2 Hf H12 IH]; intros fs3 H23.
  - by apply Forall2_nil_inv_l in H23 as ->.
  - apply Forall2_cons_inv_l in H23 as (f3 & fs3' & Hf' & H23 & ->).
    constructor; [by eapply face_kept_trans|by apply IH].
Qed.

Lemma faces_kept_insert (uv_layer : string) (fs : list (BMFace T))
    (idx : nat) f f' :
  fs !! idx = Some f → face_kept uv_layer f f' →
  Forall2 (face_kept uv_layer) fs (<[idx:=f']> fs).
Proof.
  intros Hf Hk. apply Forall2_same_length_lookup_2; [by rewrite length_insert|].
  intros p x y Hx Hy. destruct (decide (p = idx)) as [->|Hne].
  - rewrite list_lookup_insert_eq in Hy by (by eapply lookup_lt_Some).
    congruence.
  - rewrite list_lookup_insert_ne in Hy by done.
    rewrite Hx in Hy. injection Hy as <-. apply face_kept_refl.
Qed.

Lemma paste_faces_kept op props (uv_layer : string) d_uvs items bm
    (res : option Outcome) (bm' : BMesh T) :
  paste_faces op props uv_layer d_uvs items bm = (res, bm') →
  Forall2 (face_kept uv_layer) (faces bm) (faces bm')
  ∧ (copy_seams op = false → edge_seam bm' = edge_seam bm).
Proof.
  revert bm. induction items as [|[i idx] items IH]; intros bm; simpl.
  - intros [= <- <-]. split; [apply faces_kept_refl|done].
  - destruct (paste_face op props uv_layer d_uvs bm (i, idx)) as [out|bm1]
      eqn:Hface.
    { intros [= <- <-]. split; [apply faces_kept_refl|done]. }
    intros [Hkept Hseam]%IH.
    apply paste_face_inv in Hface as (b & f & _ & Hf & ->). simpl in *.
    split.
    + eapply faces_kept_trans; [|exact Hkept].
      apply (faces_kept_insert uv_layer _ idx f); [done|].
      split; [done|]. apply write_loops_kept.
    + intros Hcs. rewrite Hseam by done. by rewrite Hcs.
Qed.

Lemma positions_from_pass (P : BMFace T → bool) (off idx : nat)
    (fs : list (BMFace T)) :
  idx ∈ positions_from P off fs →
  ∃ f, fs !! (idx - off) = Some f ∧ P f = true.
Proof.
  revert off. induction fs as [|f fs IH]; intros off; simpl;
    [by intros ?%elem_of_nil|].
  destruct (P f) eqn:HP.
  - intros [->|Hin]%elem_of_cons.
    + exists f. by rewrite Nat.sub_diag.
    + pose proof (positions_from_ge _ _ _ _ Hin).
      destruct (IH _ Hin) as (f' & Hf' & HP'). exists f'.
      by replace (idx - off) with (S (idx - S off)) by lia.
  - intros Hin. pose proof (positions_from_ge _ _ _ _ Hin).
    destruct (IH _ Hin) as (f' & Hf' & HP'). exists f'.
    by replace (idx - off) with (S (idx - S off)) by lia.
Qed.

(** X5. What a paste never touches, whatever its outcome: the UV layers of
    the mesh; of every face the selection flag, the number of corners and
    the edge of each corner; of every corner its selection flag and all its
    data in the layers other than the one pasted into; of a face that is not
    selected everything that the face and its corners store; and the seam
    flag of every edge that no selected face has a corner along, so that the
    seams read from a face that shares no edge with a selected face are as
    before. The seam of an edge that an unselected face shares with a
    selected one is not kept in general: with [copy_seams] on, the paste
    writes it. *)
Theorem paste_uv_frame op props bm :
  uv_layers (paste_uv op props bm).2 = uv_layers bm
  ∧ uv_active (paste_uv op props bm).2 = uv_active bm
  ∧ (∀ uv_layer : string,
       (∀ k, get_uv_layer (uv_map op) bm = inr k → k = uv_layer) →
       Forall2 (face_kept uv_layer) (faces bm) (faces (paste_uv op props bm).2))
  ∧ (∀ (p : nat) f,
       faces bm !! p = Some f → face_select f = false →
       faces (paste_uv op props bm).2 !! p = Some f)
  ∧ (∀ e : nat,
       (∀ g, g ∈ selected_faces bm → e ∉ map loop_edge (face_loops g)) →
       edge_seam (paste_uv op props bm).2 e = edge_seam bm e)
  ∧ (∀ f : BMFace T,
       (∀ g (e : nat), g ∈ selected_faces bm →
                       e ∈ map loop_edge (face_loops f) →
                       e ∉ map loop_edge (face_loops g)) →
       face_seams (paste_uv op props bm).2 f = face_seams bm f).
Proof.
  assert (∀ bm' : BMesh T,
            (∀ e : nat,
               (∀ g, g ∈ selected_faces bm →
                     e ∉ map loop_edge (face_loops g)) →
               edge_seam bm' e = edge_seam bm e) →
            ∀ f : BMFace T,
              (∀ g (e : nat), g ∈ selected_faces bm →
                              e ∈ map loop_edge (face_loops f) →
                              e ∉ map loop_edge (face_loops g)) →
              face_seams bm' f = face_seams bm f) as Hread.
  { intros bm' Hedges f Hapart. unfold face_seams.
    apply list_eq. intros j. rewrite !list_lookup_fmap.
    destruct (face_loops f !! j) as [l|] eqn:Hl; [|done]. simpl. f_equal.
    apply Hedges. intros g Hg. apply (Hapart g); [done|].
    apply list_elem_of_fmap. exists l. split; [done|].
    by eapply list_elem_of_lookup_2. }
  unfold paste_uv.
  destruct (py_not (src_uvs props) || py_not (src_pin_uvs props));
    [by repeat split; try (intros; apply faces_kept_refl)|].
  destruct (get_uv_layer (uv_map op) bm) as [out|uv_layer] eqn:Hl;
    [by repeat split; try (intros; apply faces_kept_refl)|].
  rewrite get_dest_spec. cbn [dest_uvs dest_pin_uvs dest_face_indices].
  destruct (py_not _ || py_not _);
    [by repeat split; try (intros; apply faces_kept_refl)|].
  destruct (_ && _);
    [by repeat split; try (intros; apply faces_kept_refl)|].
  destruct (paste_faces op props uv_layer _ _ bm) as [res bm0] eqn:Hrun.
  pose proof (paste_faces_frame _ _ _ _ _ _ _ _ Hrun)
    as ((_ & _ & Hlayers & Hactive) & _ & Hfaces & Hseams).
  pose proof (paste_faces_kept _ _ _ _ _ _ _ _ Hrun) as [Hkept _].
  assert (∀ (p : nat) f, faces bm !! p = Some f → face_select f = false →
                         faces bm0 !! p = Some f) as Huntouched.
  { intros p f Hf Hsel. rewrite Hfaces; [done|].
    rewrite enumerate_snd.
    intros (f' & Hf' & Hsel')%positions_from_pass.
    rewrite Nat.sub_0_r in Hf'. congruence. }
  assert (∀ e : nat,
            (∀ g, g ∈ selected_faces bm → e ∉ map loop_edge (face_loops g)) →
            edge_seam bm0 e = edge_seam bm e) as Hedges.
  { intros e He. apply Hseams. intros idx f Hidx Hf.
    rewrite enumerate_snd in Hidx.
    apply positions_from_pass in Hidx as (f' & Hf' & Hsel').
    rewrite Nat.sub_0_r, Hf in Hf'. injection Hf' as <-.
    apply He. unfold selected_faces. apply list_elem_of_In, filter_In.
    split; [|done]. apply list_elem_of_In. by eapply list_elem_of_lookup_2. }
  destruct res as [out|]; cbn [fst snd faces uv_layers uv_active];
    (split; [done|]); (split; [done|]);
    (split; [intros k Hk; by rewrite <- (Hk uv_layer eq_refl)|]);
    (split; [done|]); (split; [done|]); by apply Hread.
Qed.

(** X6. With [copy_seams] off, a paste leaves the seam flag of every edge
    and the seam display flag of the mesh as they were, whatever its
    outcome. *)
Theorem paste_uv_without_seams op props bm :
  copy_seams op = false →
  edge_seam (paste_uv op props bm).2 = edge_seam bm
  ∧ show_edge_seams (paste_uv op props bm).2 = show_edge_seams bm.
Proof.
  intros Hcs. unfold paste_uv.
  destruct (py_not (src_uvs props) || py_not (src_pin_uvs props)); [done|].
  destruct (get_uv_layer (uv_map op) bm) as [out|uv_layer]; [done|].
  destruct (py_not _ || py_not _); [done|].
  destruct (_ && _); [done|].
  destruct (paste_faces op props uv_layer _ _ bm) as [res bm0] eqn:Hrun.
  pose proof (paste_faces_frame _ _ _ _ _ _ _ _ Hrun) as (_ & Hshow & _).
  pose proof (paste_faces_kept _ _ _ _ _ _ _ _ Hrun) as [_ Hseam].
  destruct res as [out|]; cbn [fst snd edge_seam show_edge_seams];
    rewrite ?Hcs; by rewrite Hseam.
Qed.
End PasteKeeps.

Lemma paste_uv_frame_witness :
  let props :=
    mkProps [[(7, 0); (8, 0); (7, 1)]%R] [[false; true; false]]
            [[false; false; true]] in
  let bm := Examples.mesh [Examples.tri true 0 0; Examples.tri false 5 2] in
  Forall2 (face_kept "UVMap") (faces bm)
          (faces (paste_uv Examples.strict props bm).2)
  ∧ faces (paste_uv Examples.strict props bm).2 !! 1
    = Some (Examples.tri false 5 2)
  ∧ edge_seam (paste_uv Examples.strict props bm).2 3 = false
  ∧ face_seams bm (Examples.tri false 5 2) = [false; false; false]
  ∧ face_seams (paste_uv Examples.strict props bm).2 (Examples.tri false 5 2)
    = [true; false; false].
Proof.
  intros props bm.
  destruct (paste_uv_frame Examples.strict props bm)
    as (_ & _ & Hkept & Hun & Hedge & _).
  split; [|split; [|split; [|split]]].
  - apply Hkept. intros k Hk. cbv in Hk. by injection Hk as <-.
  - apply Hun; reflexivity.
  - rewrite Hedge; [reflexivity|]. intros g Hg.
    assert (selected_faces bm = [Examples.tri true 0 0]) as Hsel
      by reflexivity.
    rewrite Hsel in Hg. apply list_elem_of_singleton in Hg as ->.
    apply (bool_decide_unpack _). reflexivity.
  - reflexivity.
  - reflexivity.
Defined.

Lemma paste_uv_without_seams_witness :
  edge_seam (paste_uv (mkPasteOp "" N_M false 0 false)
               (copy_uv "" cleared Examples.seamed_pair).2
               Examples.joined_pair).2
  = edge_seam Examples.joined_pair
  ∧ show_edge_seams (paste_uv (mkPasteOp "" N_M false 0 false)
                       (copy_uv "" cleared Examples.seamed_pair).2
                       Examples.joined_pair).2
    = show_edge_seams Examples.joined_pair.
Proof. apply paste_uv_without_seams. reflexivity. Defined.

Section Strategies.
Context {T : Type}.
Implicit Types (bm : BMesh T) (f : BMFace T) (b : Bundle T).
Implicit Types (props : Props T) (op : PasteOp).
Implicit Types (items : list (nat * nat)) (d_uvs : list (list (Vector T))).

Lemma rotate_uvs_cycles (n q : nat) b :
  bundle_size n b → rotate_uvs (q * n) b = inr b.
Proof.
  intros Hb. induction q as [|q IH]; [done|].
  simpl. rewrite rotate_uvs_add, (rotate_uvs_full n b Hb). exact IH.
Qed.

(** X7. The rotation count acts modulo the corner count: on a bundle of
    [n > 0] corners, [k] iterations of lines 248-254 give what [k mod n]
    iterations give. *)
Theorem rotate_uvs_mod (n k : nat) b :
  bundle_size n b → 0 < n →
  rotate_uvs k b = rotate_uvs (k `mod` n) b.
Proof.
  intros Hb Hn. rewrite (Nat.div_mod_eq k n) at 1.
  rewrite (Nat.mul_comm n), rotate_uvs_add.
  by rewrite (rotate_uvs_cycles n (k `div` n) b Hb).
Qed.

(** X8. Flipping twice gives the bundle back, and flipping turns a rotation
    by [k] into a rotation by [n - k]: rotating the flipped bundle by [k]
    is flipping the bundle rotated by [n - k]. *)
Theorem flip_uvs_rotate (n k : nat) b :
  bundle_size n b → k ≤ n →
  flip_uvs true (flip_uvs true b) = b
  ∧ ∃ b', rotate_uvs (n - k) b = inr b'
          ∧ rotate_uvs k (flip_uvs true b) = inr (flip_uvs true b').
Proof.
  intros Hb Hk. destruct b as [[us ps] ss]. split.
  { simpl. by rewrite !reverse_involutive. }
  pose proof Hb as (Hu & Hp & Hs). simpl in Hu, Hp, Hs.
  eexists. split; [by apply (rotate_uvs_drop n (n - k)); [|lia]|].
  rewrite (rotate_uvs_drop n k); [|by apply (flip_uvs_size true)|done].
  cbn [flip_uvs fst snd]. replace (n - (n - k)) with k by lia.
  rewrite !reverse_app, !take_reverse, !drop_reverse, Hu, Hp, Hs.
  by replace (n - (n - k)) with k by lia.
Qed.

Lemma paste_faces_ext op1 op2 props (uv_layer : string) d_uvs items bm :
  copy_seams op1 = copy_seams op2 →
  (∀ i idx, (i, idx) ∈ items →
            prepare_bundle op1 props d_uvs i = prepare_bundle op2 props d_uvs i) →
  paste_faces op1 props uv_layer d_uvs items bm
  = paste_faces op2 props uv_layer d_uvs items bm.
Proof.
  intros Hcs. revert bm.
  induction items as [|[i idx] items IH]; intros bm Hprep; simpl; [done|].
  unfold paste_face. rewrite (Hprep i idx) by (apply elem_of_cons; by left).
  rewrite Hcs.
  destruct (bind _ _) as [out|bm1]; [done|].
  apply IH. intros i' idx' Hin. apply (Hprep i' idx'). apply elem_of_cons.
  by right.
Qed.

(** X9. When the store holds as many bundles as there are selected faces,
    the wrap-around strategy (N:M) and the strict strategy (N:N) paste the
    same thing. *)
Theorem paste_uv_wrap_is_strict op props bm :
  capture_set (length (selected_faces bm)) props →
  paste_uv (with_strategy N_M op) props bm
  = paste_uv (with_strategy N_N op) props bm.
Proof.
  intros (Hu & Hp & Hs). unfold paste_uv. cbn [with_strategy uv_map strategy
    copy_seams andb].
  destruct (py_not (src_uvs props) || py_not (src_pin_uvs props)); [done|].
  destruct (get_uv_layer (uv_map op) bm) as [out|uv_layer]; [done|].
  rewrite get_dest_spec. cbn [dest_uvs dest_pin_uvs dest_face_indices].
  destruct (py_not _ || py_not _); [done|].
  rewrite bool_decide_eq_false_2 by (rewrite length_map; by intros ?).
  rewrite (paste_faces_ext (with_strategy N_M op) (with_strategy N_N op));
    [done|done|].
  intros i idx Hin%enumerate_elem_of.
  assert (i < length (selected_faces bm)) as Hi.
  { rewrite <- selected_indices_length. by eapply lookup_lt_Some. }
  unfold prepare_bundle. cbn [with_strategy strategy flip_copied_uv
    rotate_copied_uv]. unfold pick_source. rewrite Hu, Hp, Hs.
  unfold py_mod. destruct (length (selected_faces bm)) as [|n] eqn:Hn; [lia|].
  cbn [bind]. by rewrite Nat.mod_small by lia.
Qed.
End Strategies.

Lemma rotate_uvs_mod_witness :
  rotate_uvs 30 (Examples.quad_bundle 0)
  = rotate_uvs (30 `mod` 4) (Examples.quad_bundle 0).
Proof. apply (rotate_uvs_mod 4 30); [by repeat split|lia]. Defined.

Lemma flip_uvs_rotate_witness :
  flip_uvs true (flip_uvs true (Examples.quad_bundle 0))
  = Examples.quad_bundle 0
  ∧ ∃ b', rotate_uvs (4 - 1) (Examples.quad_bundle 0) = inr b'
          ∧ rotate_uvs 1 (flip_uvs true (Examples.quad_bundle 0))
            = inr (flip_uvs true b').
Proof. apply (flip_uvs_rotate 4 1); [by repeat split|lia]. Defined.

Lemma paste_uv_wrap_is_strict_witness :
  paste_uv (with_strategy N_M Examples.wrap)
    (Examples.store [Examples.tri_bundle 5; Examples.tri_bundle 7])
    Examples.joined_pair
  = paste_uv (with_strategy N_N Examples.wrap)
      (Examples.store [Examples.tri_bundle 5; Examples.tri_bundle 7])
      Examples.joined_pair.
Proof. apply paste_uv_wrap_is_strict. by repeat split. Defined.

Section ReadBack.
Context {T : Type}.
Implicit Types (bm : BMesh T) (f : BMFace T) (b : Bundle T).
Implicit Types (props : Props T) (op : PasteOp).
Implicit Types (d_uvs : list (list (Vector T))).

Lemma paste_uv_finished_mesh op props bm :
  (paste_uv op props bm).1 = FINISHED →
  ∃ uv_layer bm0,
    get_uv_layer (uv_map op) bm = inr uv_layer
    ∧ selected_faces bm ≠ []
    ∧ paste_faces op props uv_layer
        (map (face_uvs uv_layer) (selected_faces bm))
        (enumerate (selected_indices bm)) bm = (None, bm0)
    ∧ (paste_uv op props bm).2
      = mkMesh (faces bm0) (edge_seam bm0) (uv_layers bm0) (uv_active bm0)
               (if copy_seams op then true else show_edge_seams bm0).
Proof.
  unfold paste_uv.
  destruct (py_not (src_uvs props) || py_not (src_pin_uvs props)); [done|].
  destruct (get_uv_layer (uv_map op) bm) as [out|uv_layer] eqn:Hl.
  { unfold get_uv_layer in Hl. intros Hout. simpl in Hout. subst out.
    repeat case_match; done. }
  rewrite get_dest_spec. cbn [dest_uvs dest_pin_uvs dest_face_indices].
  destruct (selected_faces bm) as [|f0 fs] eqn:Hsel; [done|].
  cbn [map py_not orb].
  destruct (_ && _); [done|].
  destruct (paste_faces op props uv_layer _ _ bm) as [[out|] bm0] eqn:Hrun.
  - simpl. intros ->. by apply paste_faces_error in Hrun.
  - intros _. by exists uv_layer, bm0.
Qed.

Lemma bundle_at_size props (j : nat) b :
  bundle_sizes props → bundle_at props j = Some b →
  bundle_size (length b.1.1) b.
Proof.
  intros Hsizes. unfold bundle_at.
  destruct (src_uvs props !! j) as [suv|] eqn:Hu; [|done].
  destruct (bundle_sizes_lookup _ _ _ Hsizes Hu) as (spuv & ss & -> & -> & Hb).
  by intros [= <-].
Qed.

Lemma pick_source_size (st : Strategy) props d_uvs (i : nat) b
    (duv : list (Vector T)) :
  bundle_sizes props →
  pick_source st props d_uvs i = inr (b, duv) →
  d_uvs !! i = Some duv ∧ bundle_size (length b.1.1) b.
Proof.
  intros Hsizes Hpick. destruct st.
  - apply pick_source_strict_inv in Hpick as [Hat Hd].
    split; [done|]. by eapply bundle_at_size.
  - apply (pick_source_wrap_inv _ _ (length (src_uvs props))) in Hpick
      as [Hat Hd]; [|by apply bundle_sizes_capture_set].
    split; [done|]. by eapply bundle_at_size.
Qed.

Lemma rotate_step_size (n : nat) b b' :
  bundle_size n b → rotate_step b = inr b' → bundle_size n b'.
Proof.
  intros Hb. destruct n as [|n].
  - destruct b as [[us ps] ss]. destruct Hb as (Hu & _). simpl in Hu.
    apply nil_length_inv in Hu as ->. done.
  - destruct (rotate_step_total (S n) b Hb) as (b1 & -> & Hb1); [lia|].
    by intros [= <-].
Qed.

Lemma rotate_uvs_keeps_size (n k : nat) b b' :
  bundle_size n b → rotate_uvs k b = inr b' → bundle_size n b'.
Proof.
  revert b. induction k as [|k IH]; intros b Hb; simpl; [by intros [= <-]|].
  destruct (rotate_step b) as [out|b1] eqn:Hstep; [done|]. simpl.
  apply IH. by eapply rotate_step_size.
Qed.

(** X10. Reading back a finished paste: whatever the strategy, the flip and
    the rotation, capturing the destination selection afterwards gives, for
    each selected face, the UVs and the pin flags of the bundle that the
    paste prepared for it (picked, flipped and rotated). *)
Theorem paste_uv_read_back op props props1 bm :
  bundle_sizes props →
  (paste_uv op props bm).1 = FINISHED →
  (copy_uv (uv_map op) props1 (paste_uv op props bm).2).1 = FINISHED
  ∧ ∃ uv_layer,
      get_uv_layer (uv_map op) bm = inr uv_layer
      ∧ ∀ j, j < length (selected_faces bm) →
          ∃ b, prepare_bundle op props
                 (map (face_uvs uv_layer) (selected_faces bm)) j = inr b
               ∧ src_uvs (copy_uv (uv_map op) props1
                            (paste_uv op props bm).2).2 !! j = Some b.1.1
               ∧ src_pin_uvs (copy_uv (uv_map op) props1
                                (paste_uv op props bm).2).2 !! j
                 = Some b.1.2.
Proof.
  intros Hsizes Hfin.
  destruct (paste_uv_finished_mesh _ _ _ Hfin)
    as (uv_layer & bm0 & Hl & Hsel & Hrun & ->).
  set (bm' := mkMesh (faces bm0) (edge_seam bm0) (uv_layers bm0)
                     (uv_active bm0) _).
  pose proof (paste_faces_frame _ _ _ _ _ _ _ _ Hrun) as (Hshape & _).
  assert (same_shape bm bm') as Hshape'
    by (destruct Hshape as (? & ? & ? & ?); by repeat split).
  assert (get_uv_layer (uv_map op) bm' = inr uv_layer) as Hl'
    by (by rewrite (get_uv_layer_shape _ _ _ Hshape')).
  pose proof (selected_indices_shape _ _ Hshape') as Hidxs.
  assert (length (selected_faces bm') = length (selected_faces bm)) as Hlen
    by (by rewrite <- !selected_indices_length, Hidxs).
  rewrite (copy_uv_layer _ _ _ _ Hl'). cbn [fst snd]. split.
  { destruct (selected_faces bm') eqn:Hs; [|done].
    simpl in Hlen. by destruct (selected_faces bm). }
  exists uv_layer. split; [done|]. intros j Hj.
  destruct (dest_size_Some bm j Hj) as (f & idx & Hf & Hidx & Hfidx & _).
  destruct (paste_faces_written op props uv_layer
              (map (face_uvs uv_layer) (selected_faces bm))
              (enumerate (selected_indices bm)) bm bm0 j idx)
    as (b & f' & Hb & Hf' & Hw); try done.
  { rewrite enumerate_snd. apply positions_from_NoDup. }
  { by apply enumerate_elem_of. }
  rewrite Hfidx in Hf'. injection Hf' as <-.
  exists b. split; [done|].
  assert (bundle_size (length (face_loops f)) b) as Hsize.
  { pose proof Hb as Hb'.
    apply prepare_bundle_inv in Hb' as (b0 & duv & Hpick & Hlen0 & Hrot).
    apply pick_source_size in Hpick as [Hd Hb0]; [|done].
    rewrite list_lookup_fmap, Hf in Hd. injection Hd as <-.
    unfold face_uvs in Hlen0. rewrite length_map in Hlen0.
    rewrite Hlen0 in Hb0.
    eapply rotate_uvs_keeps_size; [|exact Hrot]. by apply flip_uvs_size. }
  assert (selected_faces bm' !! j = Some (written_face uv_layer f b)) as Hsel'.
  { rewrite <- Hidxs in Hidx.
    destruct (selected_indices_lookup _ _ _ Hidx) as (f3 & Hf3 & Hs3).
    cbn [faces bm'] in Hf3. congruence. }
  unfold captured. cbn [src_uvs src_pin_uvs].
  rewrite !list_lookup_fmap, Hsel'. simpl.
  destruct (written_face_read uv_layer f b Hsize) as [-> ->]. done.
Qed.
End ReadBack.

Lemma paste_uv_read_back_witness :
  src_uvs (copy_uv "" cleared
             (paste_uv (mkPasteOp "" N_M true 1 true)
                (Examples.store [Examples.tri_bundle 5])
                Examples.joined_pair).2).2 !! 1
  = Some [(5, 0); (5, 1); (5 + 1, 0)]%R.
Proof.
  destruct (paste_uv_read_back (mkPasteOp "" N_M true 1 true)
              (Examples.store [Examples.tri_bundle 5]) cleared
              Examples.joined_pair) as (_ & uv_layer & Hl & Hread).
  - by split.
  - reflexivity.
  - destruct (Hread 1) as (b & Hb & Hu & _); [simpl; lia|].
    etrans; [exact Hu|].
    cbv in Hl. injection Hl as <-. cbv in Hb. by injection Hb as <-.
Defined.

(** * Further properties of the UV/Image-editor engine *)

Section ImageEditorMore.
Context {T : Type} {F : FloatOps T}.
Implicit Types (bm : BMesh T) (f : BMFace T) (props : Props T).
Implicit Types (t : Transform T) (x : option (Transform T)).
Implicit Types (items : list (list (Vector T) * nat)) (l : BMLoop T).

Lemma ie_copy_faces_fold (uv_layer : string) (fs : list (BMFace T)) props :
  fold_left (ie_copy_face uv_layer) fs props
  = mkProps (src_uvs props
               ++ map (face_uvs uv_layer)
                      (List.filter (ie_face_ok uv_layer) fs))
            (src_pin_uvs props) (src_seams props).
Proof.
  revert props. induction fs as [|f fs IH]; intros props; simpl.
  - rewrite app_nil_r. by destruct props.
  - rewrite IH. unfold ie_copy_face.
    destruct (ie_face_ok uv_layer f); simpl; [|done].
    by rewrite <- app_assoc.
Qed.

(** X14. The UV/Image-editor capture always finishes and only ever adds to
    the store: the UVs of the faces that are selected with all their corners
    selected are appended after what [src_uvs] already held, and the pin and
    seam lists are left alone. Capturing twice therefore holds the faces
    twice. *)
Theorem ie_copy_uv_appends props bm :
  (ie_copy_uv props bm).1.1 = FINISHED
  ∧ (ie_copy_uv props bm).2 = (layers_uv_verify bm).1
  ∧ src_uvs (ie_copy_uv props bm).1.2
    = src_uvs props
        ++ map (face_uvs (layers_uv_verify bm).2)
               (ie_faces (layers_uv_verify bm).2 (layers_uv_verify bm).1)
  ∧ src_pin_uvs (ie_copy_uv props bm).1.2 = src_pin_uvs props
  ∧ src_seams (ie_copy_uv props bm).1.2 = src_seams props
  ∧ (uv_layers bm ≠ [] →
     src_uvs (ie_copy_uv (ie_copy_uv props bm).1.2 bm).1.2
     = src_uvs props
         ++ map (face_uvs (uv_active bm)) (ie_faces (uv_active bm) bm)
         ++ map (face_uvs (uv_active bm)) (ie_faces (uv_active bm) bm)).
Proof.
  unfold ie_copy_uv, layers_uv_verify.
  destruct (py_not (uv_layers bm)) eqn:Hl; cbn [fst snd];
    rewrite ?ie_copy_faces_fold; cbn [src_uvs src_pin_uvs src_seams];
    repeat (split; [done|]).
  - by destruct (uv_layers bm).
  - intros _. by rewrite <- app_assoc.
Qed.

(** X15. When the two first corners of the first captured face coincide,
    the scale of line 599 divides by zero: the paste raises
    ZeroDivisionError before it writes anything. *)
Theorem ie_paste_uv_degenerate_edge props bm (s0 s1 d0 d1 : Vector T)
    (srest drest : list (Vector T)) (srcs dests : list (list (Vector T))) :
  src_uvs props = (s0 :: s1 :: srest) :: srcs →
  map (face_uvs (layers_uv_verify bm).2)
      (ie_faces (layers_uv_verify bm).2 (layers_uv_verify bm).1)
  = (d0 :: d1 :: drest) :: dests →
  f_eqb (v_length (v_sub s1 s0)) f_zero = true →
  ie_paste_uv props bm = (RAISED ZeroDivisionError, (layers_uv_verify bm).1).
Proof.
  intros Hsrc Hdest Hzero. unfold ie_paste_uv.
  destruct (layers_uv_verify bm) as [bm1 uv_layer]. cbn [fst snd] in *.
  rewrite ie_get_dest_spec, Hsrc, Hdest. unfold ie_transform.
  cbn [zip_with]. unfold pair_transform, py_index.
  cbn [lookup list_lookup bind]. unfold py_div. by rewrite Hzero.
Qed.

Lemma ie_loop_kept_refl (uv_layer : string) l : ie_loop_kept uv_layer l l.
Proof. by split. Qed.

Lemma ie_loop_kept_trans (uv_layer : string) l1 l2 l3 :
  ie_loop_kept uv_layer l1 l2 → ie_loop_kept uv_layer l2 l3 →
  ie_loop_kept uv_layer l1 l3.
Proof.
  intros [He1 H1] [He2 H2]. split; [congruence|].
  intros k. destruct (H1 k) as (Hp1 & Hs1 & Hd1), (H2 k) as (Hp2 & Hs2 & Hd2).
  split; [congruence|]. split; [congruence|].
  intros Hk. rewrite Hd2, Hd1; done.
Qed.

Lemma ie_face_kept_refl (uv_layer : string) f : ie_face_kept uv_layer f f.
Proof.
  split; [done|]. induction (face_loops f); constructor;
    [apply ie_loop_kept_refl|done].
Qed.

Lemma ie_face_kept_trans (uv_layer : string) f1 f2 f3 :
  ie_face_kept uv_layer f1 f2 → ie_face_kept uv_layer f2 f3 →
  ie_face_kept uv_layer f1 f3.
Proof.
  intros [Hs1 Hl1] [Hs2 Hl2]. split; [congruence|].
  revert Hl1 Hl2. generalize (face_loops f1) (face_loops f2) (face_loops f3).
  intros ls1 ls2 ls3 H12. revert ls3.
  induction H12 as [|l1 l2 ls1 ls2 Hl H12 IH]; intros ls3 H23.
  - by apply Forall2_nil_inv_l in H23 as ->.
  - apply Forall2_cons_inv_l in H23 as (l3 & ls3' & Hl' & H23 & ->).
    constructor; [by eapply ie_loop_kept_trans|by apply IH].
Qed.

Lemma ie_faces_kept_refl (uv_layer : string) (fs : list (BMFace T)) :
  Forall2 (ie_face_kept uv_layer) fs fs.
Proof. induction fs; constructor; [apply ie_face_kept_refl|done]. Qed.

Lemma ie_faces_kept_trans (uv_layer : string) (fs1 fs2 fs3 : list (BMFace T)) :
  Forall2 (ie_face_kept uv_layer) fs1 fs2 →
  Forall2 (ie_face_kept uv_layer) fs2 fs3 →
  Forall2 (ie_face_kept uv_layer) fs1 fs3.
Proof.
  intros H12. revert fs3.
  induction H12 as [|f1 f2 fs1 fs2 Hf H12 IH]; intros fs3 H23.
  - by apply Forall2_nil_inv_l in H23 as ->.
  - apply Forall2_cons_inv_l in H23 as (f3 & fs3' & Hf' & H23 & ->).
    constructor; [by eapply ie_face_kept_trans|by apply IH].
Qed.

Lemma ie_write_loops_kept x (uv_layer : string) (ls ls' : list (BMLoop T))
    (suvs : list (Vector T)) :
  ie_write_loops x uv_layer ls suvs = inr ls' →
  Forall2 (ie_loop_kept uv_layer) ls ls'.
Proof.
  revert suvs ls'. induction ls as [|l ls IH]; intros suvs ls'.
  - destruct suvs; intros [= <-]; constructor.
  - destruct suvs as [|suv suvs]; simpl.
    + intros [= <-]. constructor; [apply ie_loop_kept_refl|].
      clear. induction ls; constructor; [apply ie_loop_kept_refl|done].
    + destruct x as [t|]; [|done].
      destruct (ie_write_loops (Some t) uv_layer ls suvs) as [out|ls1] eqn:Hw;
        [done|]. simpl. intros [= <-]. constructor; [|by eapply IH].
      split; [done|]. intros k. simpl. case_bool_decide; [|done].
      split; [done|]. split; [done|]. by intros ?.
Qed.

Lemma ie_paste_faces_kept x (uv_layer : string) items bm
    (res : option Outcome) (bm' : BMesh T) :
  ie_paste_faces x uv_layer items bm = (res, bm') →
  Forall2 (ie_face_kept uv_layer) (faces bm) (faces bm').
Proof.
  revert bm. induction items as [|[suvs fidx] items IH]; intros bm; simpl.
  - intros [= <- <-]. apply ie_faces_kept_refl.
  - destruct (ie_paste_face x uv_layer bm (suvs, fidx)) as [out|bm1] eqn:Hface.
    { intros [= <- <-]. apply ie_faces_kept_refl. }
    intros Hkept%IH.
    apply ie_paste_face_inv in Hface as (f & ls' & Hf & Hls' & ->).
    simpl in *. eapply ie_faces_kept_trans; [|exact Hkept].
    apply Forall2_same_length_lookup_2; [by rewrite length_insert|].
    intros p a b Ha Hb. destruct (decide (p = fidx)) as [->|Hne].
    + rewrite list_lookup_insert_eq in Hb by (by eapply lookup_lt_Some).
      rewrite Hf in Ha. injection Ha as <-. injection Hb as <-.
      split; [done|]. by eapply ie_write_loops_kept.
    + rewrite list_lookup_insert_ne in Hb by done.
      rewrite Ha in Hb. injection Hb as <-. apply ie_face_kept_refl.
Qed.

(** X16. What the UV/Image-editor paste never touches, whatever its
    outcome, of the mesh as [layers.uv.verify()] returned it (on a mesh
    without a UV layer the host has created one by then): the seams, the
    seam display flag and the UV layers of the mesh;
    of every face the selection flag and the corners' edges; of every corner
    the pin flag, the selection flag and all data of the other layers. It
    changes no face outside the first [len(src_uvs)] faces that pass the
    filter, so destination faces beyond the captured ones stay as they
    are. *)
Theorem ie_paste_uv_frame props bm :
  let bm1 := (layers_uv_verify bm).1 in
  let uv_layer := (layers_uv_verify bm).2 in
  edge_seam (ie_paste_uv props bm).2 = edge_seam bm1
  ∧ show_edge_seams (ie_paste_uv props bm).2 = show_edge_seams bm1
  ∧ uv_layers (ie_paste_uv props bm).2 = uv_layers bm1
  ∧ Forall2 (ie_face_kept uv_layer) (faces bm1) (faces (ie_paste_uv props bm).2)
  ∧ ∀ p : nat,
      p ∉ take (length (src_uvs props)) (ie_indices uv_layer bm1) →
      faces (ie_paste_uv props bm).2 !! p = faces bm1 !! p.
Proof.
  intros bm1 uv_layer. subst bm1 uv_layer. unfold ie_paste_uv.
  destruct (layers_uv_verify bm) as [bm1 uv_layer]. cbn [fst snd].
  rewrite ie_get_dest_spec.
  destruct (ie_transform _ _) as [out|x];
    [by repeat split; try apply ie_faces_kept_refl|].
  destruct (ie_paste_faces x uv_layer _ bm1) as [res bm'] eqn:Hrun.
  pose proof (ie_paste_faces_frame _ _ _ _ _ _ Hrun)
    as (Hseam & Hlayers & _ & Hshow & _ & Hfaces).
  pose proof (ie_paste_faces_kept _ _ _ _ _ _ Hrun) as Hkept.
  rewrite zip_snd_take in Hfaces.
  by destruct res.
Qed.
End ImageEditorMore.

Module ImageEditorMoreExamples.
Import RealFloat RealFacts.
Local Open Scope R_scope.

Lemma ie_copy_uv_appends_witness :
  src_uvs (ie_copy_uv
             (ie_copy_uv (Examples.store [Examples.quad_bundle 9])
                (Examples.mesh [Examples.tri true 0 0])).1.2
             (Examples.mesh [Examples.tri true 0 0])).1.2
  = [(Examples.quad_bundle 9).1.1; (Examples.tri_bundle 0).1.1;
     (Examples.tri_bundle 0).1.1].
Proof.
  destruct (ie_copy_uv_appends (Examples.store [Examples.quad_bundle 9])
              (Examples.mesh [Examples.tri true 0 0]))
    as (_ & _ & _ & _ & _ & Htwice).
  rewrite Htwice; [reflexivity|discriminate].
Defined.

Lemma ie_paste_uv_degenerate_edge_witness :
  ie_paste_uv (mkProps [[(0, 0); (0, 0); (1, 1)]] [] [])
    (Examples.mesh [Examples.tri true 0 0])
  = (RAISED ZeroDivisionError, Examples.mesh [Examples.tri true 0 0]).
Proof.
  apply (ie_paste_uv_degenerate_edge
           (mkProps [[(0, 0); (0, 0); (1, 1)]] [] [])
           (Examples.mesh [Examples.tri true 0 0])
           (0, 0) (0, 0) (0, 0) (0 + 1, 0) [(1, 1)] [(0, 1)] [] []);
    [reflexivity|reflexivity|].
  unfold v_length, v_sub. cbn [fst snd f_sub f_add f_mul f_sqrt f_eqb f_zero
    real_float]. unfold Reqb.
  destruct (Req_dec_T _ _) as [_|Hne]; [reflexivity|]. exfalso. apply Hne.
  replace ((0 - 0) * (0 - 0) + (0 - 0) * (0 - 0)) with 0 by ring.
  apply sqrt_0.
Defined.

Lemma ie_paste_uv_frame_witness :
  faces (ie_paste_uv (Examples.store [Examples.tri_bundle 0])
           (Examples.mesh [Examples.tri true 0 0; Examples.tri true 5 3])).2
    !! 1%nat
  = Some (Examples.tri true 5 3).
Proof.
  destruct (ie_paste_uv_frame (Examples.store [Examples.tri_bundle 0])
              (Examples.mesh [Examples.tri true 0 0; Examples.tri true 5 3]))
    as (_ & _ & _ & _ & Hfaces).
  rewrite Hfaces; [reflexivity|].
  apply (bool_decide_unpack _). reflexivity.
Defined.
End ImageEditorMoreExamples.

(** ** The per-object operators *)

Section ObjectCopy.
Context {T : Type}.
Implicit Types (bm : BMesh T) (props : Props T).

Lemma obj_copy_faces_fold (uv_layer : string) bm (fs : list (BMFace T)) props :
  fold_left (obj_copy_face uv_layer bm) fs props
  = mkProps (src_uvs props ++ map (face_uvs uv_layer) fs)
            (src_pin_uvs props ++ map (face_pin_uvs uv_layer) fs)
            (src_seams props ++ map (face_seams bm) fs).
Proof.
  revert props. induction fs as [|f fs IH]; intros props; simpl.
  - rewrite !app_nil_r. by destruct props.
  - rewrite IH. simpl. by rewrite <- !app_assoc.
Qed.

Lemma obj_copy_uv_layer (umap uv_layer : string) props bm :
  get_uv_layer umap bm = inr uv_layer →
  obj_copy_uv umap props bm
  = (FINISHED, mkProps (map (face_uvs uv_layer) (faces bm))
                       (map (face_pin_uvs uv_layer) (faces bm))
                       (map (face_seams bm) (faces bm))).
Proof.
  intros Hl. unfold obj_copy_uv. by rewrite Hl, obj_copy_faces_fold.
Qed.

Lemma selected_faces_select_all bm :
  selected_faces (select_all bm) = faces (select_all bm).
Proof.
  unfold selected_faces, select_all. simpl.
  induction (faces bm) as [|f fs IH]; simpl; [done|]. by rewrite IH.
Qed.

Lemma captured_select_all (uv_layer : string) bm :
  captured uv_layer (select_all bm)
  = mkProps (map (face_uvs uv_layer) (faces bm))
            (map (face_pin_uvs uv_layer) (faces bm))
            (map (face_seams bm) (faces bm)).
Proof.
  unfold captured. rewrite selected_faces_select_all. unfold select_all.
  simpl. by rewrite !map_map.
Qed.

(** X17. The per-object capture is the face-set capture of the mesh with
    every face selected: it fails on the UV layer in the same way and stores
    the same bundles, one per face of the mesh in iteration order. The one
    difference is a mesh without faces, where it finishes with an empty store
    instead of failing with NoSelection. *)
Theorem obj_copy_uv_selects_all (umap : string) props bm :
  obj_copy_uv umap props bm
  = match copy_uv umap props (select_all bm) with
    | (CANCELLED NoSelection, props') => (FINISHED, props')
    | r => r
    end.
Proof.
  destruct (get_uv_layer umap bm) as [out|uv_layer] eqn:Hl.
  - assert (get_uv_layer umap (select_all bm) = inl out) as Hl' by done.
    rewrite (copy_uv_no_layer _ _ _ _ Hl'). unfold obj_copy_uv. rewrite Hl.
    unfold get_uv_layer in Hl. repeat case_match; by simplify_eq.
  - assert (get_uv_layer umap (select_all bm) = inr uv_layer) as Hl' by done.
    rewrite (copy_uv_layer _ _ _ _ Hl'), (obj_copy_uv_layer _ _ _ _ Hl).
    rewrite captured_select_all, selected_faces_select_all.
    unfold select_all. simpl. by destruct (faces bm).
Qed.
End ObjectCopy.

Section ObjectPasteMesh.
Context {T : Type}.
Implicit Types (bm : BMesh T) (props : Props T) (op : ObjPasteOp).

Lemma obj_dest_fold (uv_layer : string) bm (fs : list (BMFace T)) (off : nat)
    (d : Dest T) :
  fold_left (obj_dest_face uv_layer bm) (zip (seq off (length fs)) fs) d
  = mkDest (dest_uvs d ++ map (face_uvs uv_layer) fs)
           (dest_pin_uvs d ++ map (face_pin_uvs uv_layer) fs)
           (dest_seams d ++ map (face_seams bm) fs)
           (dest_face_indices d ++ seq off (length fs)).
Proof.
  revert off d. induction fs as [|f fs IH]; intros off d; simpl.
  - rewrite !app_nil_r. by destruct d.
  - rewrite IH. simpl. by rewrite <- !app_assoc.
Qed.

Lemma obj_get_dest_spec (uv_layer : string) bm :
  obj_get_dest uv_layer bm
  = mkDest (map (face_uvs uv_layer) (faces bm))
           (map (face_pin_uvs uv_layer) (faces bm))
           (map (face_seams bm) (faces bm))
           (seq 0 (length (faces bm))).
Proof. unfold obj_get_dest, enumerate. by rewrite obj_dest_fold. Qed.

(** A pair is prepared as the face-set paste prepares it under N:N without
    flip and rotation. *)
Lemma obj_prepare_bundle_strict op props (d_uvs : list (list (Vector T)))
    (i : nat) :
  obj_prepare_bundle props d_uvs i = prepare_bundle (strict_of op) props d_uvs i.
Proof.
  unfold obj_prepare_bundle, prepare_bundle, strict_of. cbn.
  destruct (py_index (src_uvs props) i) as [?|suv]; [done|]. cbn.
  destruct (py_index (src_pin_uvs props) i) as [?|spuv]; [done|]. cbn.
  destruct (py_index (src_seams props) i) as [?|ss]; [done|]. cbn.
  destruct (py_index d_uvs i) as [?|duv]; [done|]. cbn.
  by case_bool_decide.
Qed.

Lemma obj_paste_faces_strict op props (uv_layer : string) d_uvs items bm :
  obj_paste_faces op props uv_layer d_uvs items bm
  = paste_faces (strict_of op) props uv_layer d_uvs items bm.
Proof.
  revert bm. induction items as [|[i idx] items IH]; intros bm; simpl; [done|].
  unfold obj_paste_face, paste_face.
  rewrite (obj_prepare_bundle_strict op). cbn [strict_of copy_seams].
  destruct (bind _ _) as [out|bm1]; [done|]. apply IH.
Qed.

(** The outcomes with which the loop over the faces stops. *)
Lemma obj_paste_faces_stops op props (uv_layer : string) d_uvs items bm
    (out : Outcome) (bm' : BMesh T) :
  obj_paste_faces op props uv_layer d_uvs items bm = (Some out, bm') →
  out = CANCELLED FaceSizeMismatch ∨ out = RAISED IndexError.
Proof.
  revert bm. induction items as [|[i idx] items IH]; intros bm; simpl; [done|].
  destruct (obj_paste_face op props uv_layer d_uvs bm (i, idx))
    as [out'|bm1] eqn:Hface; [|apply IH].
  intros [= -> <-]. unfold obj_paste_face in Hface.
  destruct (obj_prepare_bundle props d_uvs i) as [out'|[[us ps] ss]] eqn:Hb;
    cbn [bind] in Hface.
  - simplify_eq. unfold obj_prepare_bundle, py_index, bind in Hb.
    repeat case_match; simplify_eq; auto.
  - unfold write_face, py_index, bind in Hface.
    repeat case_match; simplify_eq; auto.
Qed.

(** With a store of three equally long lists the loop over all the faces
    does not raise. *)
Lemma obj_paste_faces_no_raise op props (uv_layer : string) d_uvs items bm
    (n : nat) (res : option Outcome) (bm' : BMesh T) :
  capture_set n props → length d_uvs = n →
  (∀ i idx, (i, idx) ∈ items → i < n ∧ idx < length (faces bm)) →
  obj_paste_faces op props uv_layer d_uvs items bm = (res, bm') →
  res = None ∨ res = Some (CANCELLED FaceSizeMismatch).
Proof.
  intros (Hu & Hp & Hs) Hd. revert bm.
  induction items as [|[i idx] items IH]; intros bm Hin; simpl.
  - intros [= <- <-]. by left.
  - destruct (Hin i idx) as [Hi Hidx]; [apply elem_of_cons; by left|].
    destruct (lookup_lt_is_Some_2 (src_uvs props) i) as [suv Hsuv]; [lia|].
    destruct (lookup_lt_is_Some_2 (src_pin_uvs props) i) as [spuv Hspuv];
      [lia|].
    destruct (lookup_lt_is_Some_2 (src_seams props) i) as [ss Hss]; [lia|].
    destruct (lookup_lt_is_Some_2 d_uvs i) as [duv Hduv]; [lia|].
    destruct (lookup_lt_is_Some_2 _ _ Hidx) as [f Hf].
    unfold obj_paste_face, obj_prepare_bundle, py_index.
    rewrite Hsuv, Hspuv, Hss, Hduv. cbn [bind].
    case_bool_decide.
    + cbn [bind]. intros [= <- <-]. by right.
    + cbn [bind]. rewrite (write_face_inr _ _ _ _ _ f Hf).
      apply IH. intros i' idx' Hin'. cbn [faces]. rewrite length_insert.
      apply Hin. apply elem_of_cons. by right.
Qed.

Lemma obj_get_uv_layer_shape (umap : string) bm (bm' : BMesh T) :
  same_shape bm bm' → obj_get_uv_layer umap bm' = obj_get_uv_layer umap bm.
Proof.
  intros (_ & _ & Hlayers & Hactive). unfold obj_get_uv_layer.
  by rewrite Hlayers, Hactive.
Qed.

Lemma same_shape_length bm (bm' : BMesh T) :
  same_shape bm bm' → length (faces bm') = length (faces bm).
Proof.
  intros (Hsel & _). apply (f_equal length) in Hsel.
  by rewrite !length_map in Hsel.
Qed.

(** What the paste of one mesh leaves alone, however it ends. *)
Lemma obj_paste_mesh_shape op props bm (res : option Outcome)
    (bm' : BMesh T) :
  obj_paste_mesh op props bm = (res, bm') → same_shape bm bm'.
Proof.
  unfold obj_paste_mesh.
  destruct (obj_get_uv_layer (obj_uv_map op) bm) as [out|uv_layer];
    [intros [= <- <-]; apply same_shape_refl|].
  case_bool_decide; [intros [= <- <-]; apply same_shape_refl|].
  rewrite obj_paste_faces_strict.
  destruct (paste_faces _ _ _ _ _ _) as [[out|] bm1] eqn:Hloop;
    intros [= <- <-];
    apply paste_faces_frame in Hloop as (Hshape & _); done.
Qed.

(** The outcomes with which the paste of one mesh stops. *)
Lemma obj_paste_mesh_stops op props bm (out : Outcome) (bm' : BMesh T) :
  obj_paste_mesh op props bm = (Some out, bm') →
  out = CANCELLED NoAttributeLayer ∨ out = CANCELLED CountMismatch
  ∨ out = CANCELLED FaceSizeMismatch ∨ out = RAISED IndexError.
Proof.
  unfold obj_paste_mesh.
  destruct (obj_get_uv_layer (obj_uv_map op) bm) as [out'|uv_layer] eqn:Hl.
  - intros [= <- <-]. unfold obj_get_uv_layer in Hl.
    repeat case_match; simplify_eq; auto.
  - case_bool_decide; [intros [= <- <-]; auto|].
    destruct (obj_paste_faces _ _ _ _ _ _) as [[out'|] bm1] eqn:Hloop;
      [|done].
    intros [= <- <-]. apply obj_paste_faces_stops in Hloop. tauto.
Qed.

Lemma obj_paste_mesh_no_raise op props bm (n : nat) (e : PyError)
    (bm' : BMesh T) :
  capture_set n props → obj_paste_mesh op props bm ≠ (Some (RAISED e), bm').
Proof.
  intros Hset. unfold obj_paste_mesh.
  destruct (obj_get_uv_layer (obj_uv_map op) bm) as [out'|uv_layer] eqn:Hl.
  - intros [= -> <-]. unfold obj_get_uv_layer in Hl.
    repeat case_match; simplify_eq.
  - rewrite obj_get_dest_spec. cbn [dest_uvs dest_face_indices].
    case_bool_decide as Hcount; [done|].
    rewrite length_map in Hcount.
    destruct (obj_paste_faces _ _ _ _ _ _) as [res bm1] eqn:Hloop.
    pose proof Hset as (Hu & _).
    assert (length (map (face_uvs uv_layer) (faces bm)) = n) as Hlen
      by (rewrite length_map; congruence).
    assert (∀ i idx, (i, idx) ∈ enumerate (seq 0 (length (faces bm))) →
                     i < n ∧ idx < length (faces bm)) as Hitems.
    { intros i idx Hi%enumerate_elem_of. apply lookup_seq in Hi as [-> Hi].
      rewrite length_map in Hlen. lia. }
    destruct (obj_paste_faces_no_raise _ _ _ _ _ _ _ _ _ Hset Hlen Hitems
                Hloop) as [-> | ->]; done.
Qed.
End ObjectPasteMesh.

Section ObjectPasteHolds.
Context {T : Type}.
Implicit Types (bm : BMesh T) (props : Props T) (op : ObjPasteOp).

Lemma obj_prepare_bundle_inv props (d_uvs : list (list (Vector T))) (i : nat)
    (b : Bundle T) :
  obj_prepare_bundle props d_uvs i = inr b →
  ∃ duv, src_uvs props !! i = Some b.1.1
         ∧ src_pin_uvs props !! i = Some b.1.2
         ∧ src_seams props !! i = Some b.2
         ∧ d_uvs !! i = Some duv ∧ length b.1.1 = length duv.
Proof.
  unfold obj_prepare_bundle, py_index, bind. intros Hb.
  repeat case_match; simplify_eq. simpl.
  match goal with H : bool_decide _ = false |- _ =>
    apply bool_decide_eq_false in H end.
  eexists. repeat split; try done. lia.
Qed.

(** A mesh whose paste ran to the end holds the store, face by face. *)
Lemma obj_paste_mesh_holds op props bm (bm' : BMesh T) :
  bundle_sizes props →
  obj_paste_mesh op props bm = (None, bm') →
  holds_store op props bm'.
Proof.
  intros Hsizes Hrun. pose proof (obj_paste_mesh_shape _ _ _ _ _ Hrun) as Hsh.
  pose proof (bundle_sizes_capture_set _ Hsizes) as (_ & Hplen & _).
  revert Hrun. unfold obj_paste_mesh.
  destruct (obj_get_uv_layer (obj_uv_map op) bm) as [out|uv_layer] eqn:Hl;
    [done|].
  rewrite obj_get_dest_spec. cbn [dest_uvs dest_face_indices].
  case_bool_decide as Hcount; [done|]. rewrite length_map in Hcount.
  rewrite obj_paste_faces_strict.
  destruct (paste_faces _ _ _ _ _ _) as [[out|] bm1] eqn:Hloop; [done|].
  intros [= <-]. exists uv_layer.
  split; [by rewrite (obj_get_uv_layer_shape _ _ _ Hsh)|]. cbn [faces].
  assert (length (faces bm1) = length (faces bm)) as Hlen
    by (by apply same_shape_length in Hsh).
  assert (∀ i, i < length (faces bm) →
            ∃ suv spuv f1,
              src_uvs props !! i = Some suv
              ∧ src_pin_uvs props !! i = Some spuv
              ∧ faces bm1 !! i = Some f1
              ∧ face_uvs uv_layer f1 = suv
              ∧ face_pin_uvs uv_layer f1 = spuv) as Hface.
  { intros i Hi.
    assert ((i, i) ∈ enumerate (seq 0 (length (faces bm)))) as Hin
      by (apply enumerate_elem_of, lookup_seq; done).
    destruct (paste_faces_written (strict_of op) props uv_layer
                (map (face_uvs uv_layer) (faces bm))
                (enumerate (seq 0 (length (faces bm)))) bm bm1 i i)
      as (b & f & Hb & Hf & Hf1); [|done|done|].
    { rewrite enumerate_snd. apply NoDup_seq. }
    rewrite <- obj_prepare_bundle_strict in Hb.
    apply obj_prepare_bundle_inv in Hb
      as (duv & Hsuv & Hspuv & Hss & Hduv & Hsize).
    rewrite list_lookup_fmap, Hf in Hduv. simpl in Hduv.
    injection Hduv as <-. unfold face_uvs in Hsize.
    rewrite length_map in Hsize.
    destruct (bundle_sizes_lookup _ _ _ Hsizes Hsuv)
      as (spuv' & ss' & Hspuv' & Hss' & Hbs).
    rewrite Hspuv in Hspuv'. rewrite Hss in Hss'.
    injection Hspuv' as <-. injection Hss' as <-.
    rewrite Hsize in Hbs. destruct b as [[us ps] ss]. simpl in *.
    destruct (written_face_read uv_layer f (us, ps, ss) Hbs) as [Hru Hrp].
    exists us, ps, (written_face uv_layer f (us, ps, ss)). done. }
  split; apply list_eq; intros i; rewrite list_lookup_fmap;
    destruct (decide (i < length (faces bm))) as [Hi|Hi].
  - destruct (Hface i Hi) as (suv & spuv & f1 & -> & _ & -> & <- & _). done.
  - rewrite !lookup_ge_None_2; [done|lia|lia].
  - destruct (Hface i Hi) as (suv & spuv & f1 & _ & -> & -> & _ & <-). done.
  - rewrite !lookup_ge_None_2; [done|lia|lia].
Qed.

Lemma obj_paste_faces_seams_only op1 op2 props (uv_layer : string) d_uvs
    items bm :
  obj_copy_seams op1 = obj_copy_seams op2 →
  obj_paste_faces op1 props uv_layer d_uvs items bm
  = obj_paste_faces op2 props uv_layer d_uvs items bm.
Proof.
  intros Hs. revert bm.
  induction items as [|[i idx] items IH]; intros bm; simpl; [done|].
  unfold obj_paste_face. rewrite Hs.
  destruct (bind _ _) as [out|bm1]; [done|]. apply IH.
Qed.

(** A layer name the mesh does not have acts as the empty name. *)
Lemma obj_paste_mesh_default op props bm :
  obj_uv_map op ∉ uv_layers bm →
  obj_paste_mesh op props bm = obj_paste_mesh (with_default_map op) props bm.
Proof.
  intros Hno. unfold obj_paste_mesh, with_default_map. cbn [obj_uv_map].
  assert (obj_get_uv_layer (obj_uv_map op) bm = obj_get_uv_layer "" bm)
    as ->.
  { unfold obj_get_uv_layer.
    rewrite (bool_decide_eq_false_2 _ Hno). simpl. by rewrite orb_true_r. }
  destruct (obj_get_uv_layer "" bm) as [out|uv_layer]; [done|].
  case_bool_decide; [done|].
  by rewrite (obj_paste_faces_seams_only op (mkObjPasteOp "" (obj_copy_seams op))).
Qed.
End ObjectPasteHolds.

Section ObjectPasteScene.
Context {T : Type}.
Implicit Types (bm : BMesh T) (props : Props T) (op : ObjPasteOp)
  (sc : Scene T) (o : BObject).

Lemma obj_paste_object_inv op props sc (k : nat) o (res : option Outcome)
    (sc' : Scene T) :
  obj_paste_object op props sc (k, o) = (res, sc') →
  (res = None ∧ sc' = sc ∧ ¬ pasted sc o)
  ∨ ∃ m bm bm',
      obj_select o = true ∧ obj_data o = Some m ∧ meshes sc !! m = Some bm
      ∧ obj_paste_mesh op props bm = (res, bm')
      ∧ sc' = mkScene (objects sc) (<[m := bm']> (meshes sc)) k "EDIT".
Proof.
  unfold obj_paste_object, pasted, obj_mesh.
  destruct (obj_data o) as [m|] eqn:Hd;
    [destruct (meshes sc !! m) as [bm|] eqn:Hm|].
  - destruct (obj_select o) eqn:Hsel; simpl.
    + destruct (obj_paste_mesh op props bm) as [res' bm'] eqn:Hrun.
      intros [= <- <-]. right. by exists m, bm, bm'.
    + intros [= <- <-]. left. split; [done|]. split; [done|]. by intros [? _].
  - intros [= <- <-]. left. split; [done|]. split; [done|].
    by intros [_ [? ?]].
  - intros [= <- <-]. left. split; [done|]. split; [done|].
    by intros [_ [? ?]].
Qed.

(** The decorator changes the mode only. *)
Lemma obj_paste_uv_unfold op props sc :
  (obj_paste_uv op props sc).1 = (obj_paste_execute op props sc).1
  ∧ objects (obj_paste_uv op props sc).2
    = objects (obj_paste_execute op props sc).2
  ∧ meshes (obj_paste_uv op props sc).2
    = meshes (obj_paste_execute op props sc).2
  ∧ active (obj_paste_uv op props sc).2
    = active (obj_paste_execute op props sc).2
  ∧ mode (obj_paste_uv op props sc).2
    = match (obj_paste_execute op props sc).1 with
      | RAISED _ => mode (obj_paste_execute op props sc).2
      | _ => mode sc
      end.
Proof.
  unfold obj_paste_uv, memorize_view_3d_mode.
  by destruct (obj_paste_execute op props sc) as [[| |] sc'].
Qed.

(** What one iteration of the loop over the objects leaves alone. *)
Lemma obj_paste_object_frame op props sc (k : nat) o (res : option Outcome)
    (sc' : Scene T) :
  obj_paste_object op props sc (k, o) = (res, sc') →
  objects sc' = objects sc
  ∧ length (meshes sc') = length (meshes sc)
  ∧ (∀ m bm, meshes sc !! m = Some bm →
             ∃ bm', meshes sc' !! m = Some bm' ∧ same_shape bm bm')
  ∧ (∀ m, (obj_select o = true → obj_data o ≠ Some m) →
          meshes sc' !! m = meshes sc !! m).
Proof.
  intros [(-> & -> & _) | (m0 & bm0 & bm0' & Hsel & Hd & Hm0 & Hrun & ->)]
    %obj_paste_object_inv.
  - split; [done|]. split; [done|]. split; [|done].
    intros m bm Hm. exists bm. split; [done|apply same_shape_refl].
  - simpl. split; [done|]. split; [by rewrite length_insert|]. split.
    + intros m bm Hm. destruct (decide (m = m0)) as [->|Hne].
      * exists bm0'. rewrite list_lookup_insert_eq
          by (by eapply lookup_lt_Some).
        split; [done|]. rewrite Hm0 in Hm. injection Hm as <-.
        by eapply obj_paste_mesh_shape.
      * exists bm. rewrite list_lookup_insert_ne by done.
        split; [done|apply same_shape_refl].
    + intros m Hm. rewrite list_lookup_insert_ne; [done|].
      intros <-. by apply Hm.
Qed.

Lemma obj_paste_objects_frame op props todo sc (res : option Outcome)
    (sc' : Scene T) :
  obj_paste_objects op props todo sc = (res, sc') →
  objects sc' = objects sc
  ∧ length (meshes sc') = length (meshes sc)
  ∧ (∀ m bm, meshes sc !! m = Some bm →
             ∃ bm', meshes sc' !! m = Some bm' ∧ same_shape bm bm')
  ∧ (∀ m, (∀ k o, (k, o) ∈ todo → obj_select o = true →
                  obj_data o ≠ Some m) →
          meshes sc' !! m = meshes sc !! m).
Proof.
  revert sc. induction todo as [|[k o] todo IH]; intros sc; simpl.
  - intros [= <- <-]. split; [done|]. split; [done|]. split; [|done].
    intros m bm Hm. exists bm. split; [done|apply same_shape_refl].
  - destruct (obj_paste_object op props sc (k, o)) as [res1 sc1] eqn:Hstep.
    apply obj_paste_object_frame in Hstep as (Ho1 & Hl1 & Hs1 & Hu1).
    assert (∀ m, (∀ k' o', (k', o') ∈ (k, o) :: todo → obj_select o' = true →
                           obj_data o' ≠ Some m) →
                 meshes sc1 !! m = meshes sc !! m) as Hu1'.
    { intros m Hm. apply Hu1. apply (Hm k o). apply elem_of_cons. by left. }
    destruct res1 as [out|]; simpl.
    + intros [= <- <-]. done.
    + intros (Ho2 & Hl2 & Hs2 & Hu2)%IH.
      split; [congruence|]. split; [congruence|]. split.
      * intros m bm Hm. destruct (Hs1 m bm Hm) as (bm1 & Hm1 & Hsh1).
        destruct (Hs2 m bm1 Hm1) as (bm2 & Hm2 & Hsh2).
        exists bm2. split; [done|]. by eapply same_shape_trans.
      * intros m Hm. etrans; [apply Hu2|by apply Hu1'].
        intros k' o' Hin. apply (Hm k'). apply elem_of_cons. by right.
Qed.

(** X18. The per-object paste changes nothing of the scene but the meshes of
    the selected objects, the active object and the mode, however it ends:
    the objects and their selection are as before; every mesh keeps its
    faces' selection, the edges its loops run along and its UV layers; and a
    mesh that no selected object refers to is not changed at all. *)
Theorem obj_paste_uv_frame op props sc :
  objects (obj_paste_uv op props sc).2 = objects sc
  ∧ length (meshes (obj_paste_uv op props sc).2) = length (meshes sc)
  ∧ (∀ m bm, meshes sc !! m = Some bm →
             ∃ bm', meshes (obj_paste_uv op props sc).2 !! m = Some bm'
                    ∧ same_shape bm bm')
  ∧ (∀ m, (∀ o, o ∈ objects sc → obj_select o = true → obj_data o ≠ Some m) →
          meshes (obj_paste_uv op props sc).2 !! m = meshes sc !! m).
Proof.
  destruct (obj_paste_uv_unfold op props sc) as (_ & -> & -> & _).
  unfold obj_paste_execute.
  destruct (py_not (src_uvs props) || py_not (src_pin_uvs props)).
  - simpl. split; [done|]. split; [done|]. split; [|done].
    intros m bm Hm. exists bm. split; [done|apply same_shape_refl].
  - destruct (obj_paste_objects op props (enumerate (objects sc)) sc)
      as [res sc'] eqn:Hloop.
    apply obj_paste_objects_frame in Hloop as (Ho & Hl & Hs & Hu).
    assert (objects (match res with Some out => (out, sc')
                     | None => (FINISHED, sc') end).2 = objects sc'
            ∧ meshes (match res with Some out => (out, sc')
                      | None => (FINISHED, sc') end).2 = meshes sc')
      as [-> ->] by (by destruct res).
    split; [done|]. split; [done|]. split; [done|].
    intros m Hm. apply Hu. intros k o Hin%enumerate_elem_of.
    apply Hm. by eapply list_elem_of_lookup_2.
Qed.
End ObjectPasteScene.

Section ObjectPasteLoop.
Context {T : Type}.
Implicit Types (bm : BMesh T) (props : Props T) (op : ObjPasteOp)
  (sc : Scene T) (o : BObject).

Lemma obj_paste_objects_app op props todo1 todo2 sc :
  obj_paste_objects op props (todo1 ++ todo2) sc
  = match obj_paste_objects op props todo1 sc with
    | (Some out, sc1) => (Some out, sc1)
    | (None, sc1) => obj_paste_objects op props todo2 sc1
    end.
Proof.
  revert sc. induction todo1 as [|p todo1 IH]; intros sc; simpl; [done|].
  destruct (obj_paste_object op props sc p) as [[out|] sc1]; [done|]. apply IH.
Qed.

(** When the loop over the objects stops, it stops in the paste of the mesh
    of a selected object, after the objects before it were skipped or pasted
    to the end. *)
Lemma obj_paste_objects_stop_inv op props todo sc (out : Outcome)
    (sc' : Scene T) :
  obj_paste_objects op props todo sc = (Some out, sc') →
  ∃ pre k o post sc1 m bm bm',
    todo = pre ++ (k, o) :: post
    ∧ obj_paste_objects op props pre sc = (None, sc1)
    ∧ obj_select o = true ∧ obj_data o = Some m
    ∧ meshes sc1 !! m = Some bm
    ∧ obj_paste_mesh op props bm = (Some out, bm')
    ∧ sc' = mkScene (objects sc1) (<[m := bm']> (meshes sc1)) k "EDIT".
Proof.
  revert sc. induction todo as [|[k o] todo IH]; intros sc; simpl; [done|].
  destruct (obj_paste_object op props sc (k, o)) as [res1 sc1] eqn:Hstep.
  destruct res1 as [out1|].
  - intros [= -> <-].
    apply obj_paste_object_inv in Hstep
      as [(? & _) | (m & bm & bm' & Hsel & Hd & Hm & Hrun & ->)]; [done|].
    by exists [], k, o, todo, sc, m, bm, bm'.
  - intros (pre & k' & o' & post & sc2 & m & bm & bm' & -> & Hpre & Hrest)%IH.
    exists ((k, o) :: pre), k', o', post, sc2, m, bm, bm'.
    split; [done|]. simpl. rewrite Hstep. done.
Qed.

Lemma enumerate_app_inv {A} (l : list A) pre (k : nat) (x : A) post :
  enumerate l = pre ++ (k, x) :: post →
  k = length pre ∧ l !! k = Some x
  ∧ ∀ j y, (j, y) ∈ pre → j < k ∧ l !! j = Some y.
Proof.
  intros Heq.
  assert (enumerate l !! length pre = Some (k, x)) as Hk.
  { rewrite Heq. by rewrite list_lookup_middle. }
  apply enumerate_lookup in Hk as [-> Hx]. split; [done|]. split; [done|].
  intros j y [i Hi]%list_elem_of_lookup_1.
  assert (enumerate l !! i = Some (j, y)) as Hj.
  { rewrite Heq. by rewrite lookup_app_l by (by eapply lookup_lt_Some). }
  apply enumerate_lookup in Hj as [-> Hy]. split; [|done].
  by eapply lookup_lt_Some.
Qed.

(** The outcomes with which the loop over the objects stops. *)
Lemma obj_paste_objects_stops op props todo sc (out : Outcome)
    (sc' : Scene T) :
  obj_paste_objects op props todo sc = (Some out, sc') →
  out = CANCELLED NoAttributeLayer ∨ out = CANCELLED CountMismatch
  ∨ out = CANCELLED FaceSizeMismatch ∨ out = RAISED IndexError.
Proof.
  intros (pre & k & o & post & sc1 & m & bm & bm' & _ & _ & _ & _ & _
          & Hrun & _)%obj_paste_objects_stop_inv.
  by eapply obj_paste_mesh_stops.
Qed.

(** The active object and the mode after the loop. *)
Lemma obj_paste_objects_active op props todo sc (res : option Outcome)
    (sc' : Scene T) :
  obj_paste_objects op props todo sc = (res, sc') →
  (res = None ∧ active sc' = active sc ∧ mode sc' = mode sc)
  ∨ (mode sc' = "EDIT"
     ∧ ∃ o m, (active sc', o) ∈ todo ∧ obj_select o = true
              ∧ obj_data o = Some m ∧ m < length (meshes sc)).
Proof.
  revert sc. induction todo as [|[k o] todo IH]; intros sc; simpl.
  - intros [= <- <-]. by left.
  - destruct (obj_paste_object op props sc (k, o)) as [res1 sc1] eqn:Hstep.
    pose proof (obj_paste_object_frame _ _ _ _ _ _ _ Hstep)
      as (_ & Hlen & _).
    apply obj_paste_object_inv in Hstep
      as [(-> & -> & _) | (m & bm & bm' & Hsel & Hd & Hm & Hrun & ->)].
    + intros [Hl | (Hmode & o' & m' & Hin & Hrest)]%IH; [by left|].
      right. split; [done|]. exists o', m'. split; [|done].
      apply elem_of_cons. by right.
    + assert (m < length (meshes sc)) as Hlt by (by eapply lookup_lt_Some).
      assert ((k, o) ∈ (k, o) :: todo) as Hhead
        by (apply elem_of_cons; by left).
      destruct res1 as [out1|].
      * intros [= <- <-]. right. simpl. split; [done|]. by exists o, m.
      * intros [(_ & Ha & Hmo) | (Hmode & o' & m' & Hin & Hs' & Hd' & Hlt')]
          %IH; right; simpl in *.
        -- split; [done|]. rewrite Ha. by exists o, m.
        -- split; [done|]. exists o', m'. split; [apply elem_of_cons; by right|].
           split; [done|]. split; [done|]. congruence.
Qed.

(** After a loop that ran to the end, the active object is not before any
    object that was pasted. *)
Lemma obj_paste_objects_last op props pre (k : nat) o post sc (m : nat)
    (sc' : Scene T) :
  obj_paste_objects op props (pre ++ (k, o) :: post) sc = (None, sc') →
  obj_select o = true → obj_data o = Some m → m < length (meshes sc) →
  ∃ o', (active sc', o') ∈ (k, o) :: post.
Proof.
  rewrite obj_paste_objects_app.
  destruct (obj_paste_objects op props pre sc) as [[out|] sc1] eqn:Hpre;
    [done|].
  apply obj_paste_objects_frame in Hpre as (_ & Hlen & _).
  simpl. destruct (obj_paste_object op props sc1 (k, o)) as [res1 sc2]
    eqn:Hstep.
  intros Hrest Hsel Hd Hlt.
  apply obj_paste_object_inv in Hstep
    as [(_ & _ & Hno) | (m' & bm & bm' & _ & _ & _ & _ & ->)].
  - destruct Hno. split; [done|]. unfold obj_mesh. rewrite Hd.
    destruct (lookup_lt_is_Some_2 (meshes sc1) m) as [bm Hbm]; [lia|].
    by rewrite Hbm.
  - destruct res1 as [out|]; [done|].
    apply obj_paste_objects_active in Hrest
      as [(_ & Ha & _) | (_ & o' & _ & Hin & _)].
    + exists o. simpl in Ha. rewrite Ha. apply elem_of_cons. by left.
    + exists o'. apply elem_of_cons. by right.
Qed.

(** Every mesh is as some step of the loop left it. *)
Lemma obj_paste_objects_holds op props todo sc (sc' : Scene T) :
  bundle_sizes props →
  obj_paste_objects op props todo sc = (None, sc') →
  (∀ m, meshes sc' !! m = meshes sc !! m
        ∨ ∃ bm', meshes sc' !! m = Some bm' ∧ holds_store op props bm')
  ∧ (∀ k o m, (k, o) ∈ todo → obj_select o = true → obj_data o = Some m →
              m < length (meshes sc) →
              ∃ bm', meshes sc' !! m = Some bm' ∧ holds_store op props bm').
Proof.
  intros Hsizes. revert sc.
  induction todo as [|[k o] todo IH]; intros sc; simpl.
  - intros [= <-]. split; [by left|]. by intros k o m ?%elem_of_nil.
  - destruct (obj_paste_object op props sc (k, o)) as [res1 sc1] eqn:Hstep.
    destruct res1 as [out1|]; [done|]. intros [Ha Hb]%IH.
    apply obj_paste_object_inv in Hstep
      as [(_ & -> & Hno) | (m0 & bm0 & bm0' & Hsel & Hd & Hm0 & Hrun & ->)].
    + split; [done|]. intros k' o' m [[= -> ->]|Hin]%elem_of_cons Hs' Hd' Hlt.
      * destruct Hno. split; [done|]. unfold obj_mesh. rewrite Hd'.
        destruct (lookup_lt_is_Some_2 (meshes sc) m) as [bm Hbm]; [lia|].
        by rewrite Hbm.
      * by eapply Hb.
    + pose proof (obj_paste_mesh_holds _ _ _ _ Hsizes Hrun) as Hholds.
      pose proof (lookup_lt_Some _ _ _ Hm0) as Hlt0.
      simpl in Ha, Hb.
      assert (∃ bm', meshes sc' !! m0 = Some bm' ∧ holds_store op props bm')
        as Hm0'.
      { destruct (Ha m0) as [Heq | Hr]; [|done].
        exists bm0'. rewrite Heq. by rewrite list_lookup_insert_eq. }
      split.
      * intros m. destruct (decide (m = m0)) as [->|Hne]; [by right|].
        destruct (Ha m) as [Heq | Hr]; [|by right].
        left. by rewrite Heq, list_lookup_insert_ne.
      * intros k' o' m [[= -> ->]|Hin]%elem_of_cons Hs' Hd' Hlt.
        -- rewrite Hd in Hd'. by injection Hd' as <-.
        -- eapply Hb; [done|done|done|]. by rewrite length_insert.
Qed.

Lemma obj_paste_object_default op props sc (p : nat * BObject) :
  Forall (λ bm, obj_uv_map op ∉ uv_layers bm) (meshes sc) →
  obj_paste_object op props sc p
  = obj_paste_object (with_default_map op) props sc p.
Proof.
  intros Hall. destruct p as [k o]. unfold obj_paste_object, obj_mesh.
  destruct (obj_data o) as [m|]; [|done].
  destruct (meshes sc !! m) as [bm|] eqn:Hm; [|done].
  destruct (negb (obj_select o)); [done|].
  rewrite (obj_paste_mesh_default op); [done|].
  by eapply (Forall_lookup_1 _ _ _ _ Hall).
Qed.

Lemma obj_paste_objects_default op props todo sc :
  Forall (λ bm, obj_uv_map op ∉ uv_layers bm) (meshes sc) →
  obj_paste_objects op props todo sc
  = obj_paste_objects (with_default_map op) props todo sc.
Proof.
  revert sc. induction todo as [|[k o] todo IH]; intros sc Hall; simpl;
    [done|].
  rewrite <- (obj_paste_object_default op) by done.
  destruct (obj_paste_object op props sc (k, o)) as [res1 sc1] eqn:Hstep.
  destruct res1 as [out|]; [done|]. apply IH.
  apply obj_paste_object_frame in Hstep as (_ & Hlen & Hshape & _).
  apply Forall_lookup. intros i bm1 Hi.
  destruct (lookup_lt_is_Some_2 (meshes sc) i) as [bm Hbm].
  { rewrite <- Hlen. by eapply lookup_lt_Some. }
  destruct (Hshape i bm Hbm) as (bm1' & Hi' & (_ & _ & Hlayers & _)).
  rewrite Hi in Hi'. injection Hi' as <-. rewrite Hlayers.
  by eapply (Forall_lookup_1 _ _ _ _ Hall).
Qed.

Lemma get_uv_layer_obj (umap : string) bm :
  umap = "" ∨ umap ∈ uv_layers bm →
  get_uv_layer umap bm = obj_get_uv_layer umap bm.
Proof.
  unfold get_uv_layer, obj_get_uv_layer. intros Hmap.
  destruct (decide (umap = "")) as [->|Hne]; [done|].
  destruct Hmap as [?|Hin]; [done|].
  rewrite (bool_decide_eq_false_2 _ Hne), (bool_decide_eq_true_2 _ Hin). done.
Qed.
End ObjectPasteLoop.

Section ObjectPasteTheorems.
Context {T : Type}.
Implicit Types (bm : BMesh T) (props : Props T) (op : ObjPasteOp)
  (sc : Scene T) (o : BObject).

Lemma obj_paste_execute_cases op props sc :
  obj_paste_execute op props sc = (CANCELLED NothingCopied, sc)
  ∨ (∃ out sc',
       obj_paste_objects op props (enumerate (objects sc)) sc = (Some out, sc')
       ∧ obj_paste_execute op props sc = (out, sc'))
  ∨ (∃ sc',
       obj_paste_objects op props (enumerate (objects sc)) sc = (None, sc')
       ∧ obj_paste_execute op props sc = (FINISHED, sc')).
Proof.
  unfold obj_paste_execute.
  destruct (py_not (src_uvs props) || py_not (src_pin_uvs props));
    [by left|right].
  destruct (obj_paste_objects op props (enumerate (objects sc)) sc)
    as [[out|] sc']; [left; by exists out, sc'|right; by exists sc'].
Qed.

Lemma obj_paste_mesh_early op props bm (out : Outcome) (bm' : BMesh T) :
  obj_paste_mesh op props bm = (Some out, bm') →
  out = CANCELLED NoAttributeLayer ∨ out = CANCELLED CountMismatch →
  bm' = bm.
Proof.
  unfold obj_paste_mesh.
  destruct (obj_get_uv_layer (obj_uv_map op) bm) as [out'|uv_layer];
    [by intros [= <- <-]|].
  case_bool_decide; [by intros [= <- <-]|].
  destruct (obj_paste_faces _ _ _ _ _ _) as [[out'|] bm1] eqn:Hloop; [|done].
  intros [= <- <-] Hout. apply obj_paste_faces_stops in Hloop.
  destruct Hloop as [-> | ->], Hout as [? | ?]; done.
Qed.

(** X19. Read-back of the per-object paste. When the store's bundles are
    consistent and the operator finished, the mesh of every selected object
    holds the store face by face: in the layer the operator resolved, the
    UVs and the pin flags of the mesh's faces are the store's lists. A
    per-object capture of that mesh under the same layer name then finishes
    with the UVs and pin flags of the store, whatever it held before. *)
Theorem obj_paste_uv_read_back op props sc o (m : nat) :
  bundle_sizes props →
  (obj_paste_uv op props sc).1 = FINISHED →
  o ∈ objects sc → obj_select o = true → obj_data o = Some m →
  m < length (meshes sc) →
  ∃ bm',
    meshes (obj_paste_uv op props sc).2 !! m = Some bm'
    ∧ holds_store op props bm'
    ∧ (obj_uv_map op = "" ∨ obj_uv_map op ∈ uv_layers bm' →
       ∀ props0,
         (obj_copy_uv (obj_uv_map op) props0 bm').1 = FINISHED
         ∧ src_uvs (obj_copy_uv (obj_uv_map op) props0 bm').2 = src_uvs props
         ∧ src_pin_uvs (obj_copy_uv (obj_uv_map op) props0 bm').2
           = src_pin_uvs props).
Proof.
  intros Hsizes Hfin Hin Hsel Hd Hlt.
  destruct (obj_paste_uv_unfold op props sc) as (Hout & _ & Hmeshes & _).
  rewrite Hout in Hfin. rewrite Hmeshes.
  destruct (obj_paste_execute_cases op props sc)
    as [Heq | [(out & sc' & Hloop & Heq) | (sc' & Hloop & Heq)]];
    rewrite Heq in *; simpl in *.
  - done.
  - subst out. apply obj_paste_objects_stops in Hloop.
    destruct Hloop as [? | [? | [? | ?]]]; done.
  - apply list_elem_of_lookup_1 in Hin as [k Hk].
    destruct (obj_paste_objects_holds _ _ _ _ _ Hsizes Hloop) as [_ Hb].
    destruct (Hb k o m) as (bm' & Hbm' & Hholds);
      [by apply enumerate_elem_of|done|done|done|].
    exists bm'. split; [done|]. split; [done|]. intros Hmap props0.
    destruct Hholds as (uv_layer & Hl & Hu & Hp).
    rewrite (obj_copy_uv_layer _ uv_layer)
      by (by rewrite get_uv_layer_obj). done.
Qed.

(** X20. The mode and the active object after the per-object paste. The
    only exception the operator raises is IndexError, and then the scene is
    left in edit mode; when it does not raise, the mode is the one the
    operator was called in. The active object is not restored: afterwards it
    is the one from before or a selected object whose data is a mesh, and
    after a finished paste no selected object with a mesh comes after it. *)
Theorem obj_paste_uv_mode op props sc :
  (∀ e, (obj_paste_uv op props sc).1 = RAISED e →
        e = IndexError ∧ mode (obj_paste_uv op props sc).2 = "EDIT")
  ∧ ((∀ e, (obj_paste_uv op props sc).1 ≠ RAISED e) →
     mode (obj_paste_uv op props sc).2 = mode sc)
  ∧ (active (obj_paste_uv op props sc).2 = active sc
     ∨ ∃ o m, objects sc !! active (obj_paste_uv op props sc).2 = Some o
              ∧ obj_select o = true ∧ obj_data o = Some m
              ∧ m < length (meshes sc))
  ∧ ((obj_paste_uv op props sc).1 = FINISHED →
     ∀ k o m, objects sc !! k = Some o → obj_select o = true →
              obj_data o = Some m → m < length (meshes sc) →
              k ≤ active (obj_paste_uv op props sc).2).
Proof.
  destruct (obj_paste_uv_unfold op props sc) as (-> & _ & _ & -> & ->).
  destruct (obj_paste_execute_cases op props sc)
    as [Heq | [(out & sc' & Hloop & Heq) | (sc' & Hloop & Heq)]];
    rewrite Heq; simpl.
  - split; [done|]. split; [done|]. split; [by left|done].
  - pose proof (obj_paste_objects_stops _ _ _ _ _ _ Hloop) as Hout.
    apply obj_paste_objects_active in Hloop
      as [(? & _) | (Hmode & o & m & Hin%enumerate_elem_of & Hrest)]; [done|].
    split; [|split; [|split]].
    + intros e ->. split; [|done].
      destruct Hout as [? | [? | [? | ?]]]; congruence.
    + intros Hno. destruct out; [done|done|]. by destruct (Hno e).
    + right. by exists o, m.
    + intros ->. destruct Hout as [? | [? | [? | ?]]]; done.
  - split; [done|]. split; [done|]. split.
    + apply obj_paste_objects_active in Hloop
        as [(_ & ? & _) | (_ & o & m & Hin%enumerate_elem_of & Hrest)];
        [by left|right; by exists o, m].
    + intros _ k o m Hk Hsel Hd Hlt.
      rewrite (enumerate_split _ _ _ Hk) in Hloop.
      destruct (obj_paste_objects_last _ _ _ _ _ _ _ _ _ Hloop Hsel Hd Hlt)
        as [o' [[= -> _] | Hin]%elem_of_cons]; [done|].
      apply elem_of_zip_l, elem_of_seq in Hin. lia.
Qed.

(** X21. A store whose three lists are equally long makes the per-object
    paste safe: it raises no exception. It finishes or is cancelled with a
    warning other than NoSelection, and the mode is the one it was called
    in. *)
Theorem obj_paste_uv_never_raises op props sc (n : nat) :
  capture_set n props →
  ((obj_paste_uv op props sc).1 = FINISHED
   ∨ ∃ w, (obj_paste_uv op props sc).1 = CANCELLED w ∧ w ≠ NoSelection)
  ∧ mode (obj_paste_uv op props sc).2 = mode sc.
Proof.
  intros Hset.
  destruct (obj_paste_uv_unfold op props sc) as (-> & _ & _ & _ & ->).
  destruct (obj_paste_execute_cases op props sc)
    as [Heq | [(out & sc' & Hloop & Heq) | (sc' & Hloop & Heq)]];
    rewrite Heq; simpl.
  - split; [|done]. right. by exists NothingCopied.
  - apply obj_paste_objects_stop_inv in Hloop
      as (pre & k & o & post & sc1 & m & bm & bm' & _ & _ & _ & _ & _
          & Hrun & _).
    destruct (obj_paste_mesh_stops _ _ _ _ _ Hrun)
      as [-> | [-> | [-> | ->]]].
    + split; [|done]. right. by exists NoAttributeLayer.
    + split; [|done]. right. by exists CountMismatch.
    + split; [|done]. right. by exists FaceSizeMismatch.
    + by destruct (obj_paste_mesh_no_raise op props bm n IndexError bm' Hset).
  - split; [by left|done].
Qed.

(** X22. Where the face-set paste raises KeyError, the per-object paste
    falls back: with a layer name that no mesh of the scene has, it behaves
    as with the empty name, on the active layer of each mesh. *)
Theorem obj_paste_uv_unknown_map op props sc :
  (∀ bm, bm ∈ meshes sc → obj_uv_map op ∉ uv_layers bm) →
  obj_paste_uv op props sc = obj_paste_uv (with_default_map op) props sc.
Proof.
  intros Hall. unfold obj_paste_uv, memorize_view_3d_mode, obj_paste_execute.
  rewrite (obj_paste_objects_default op) by (by apply Forall_forall). done.
Qed.

(** X23. The per-object paste stops at the first object that fails, and
    does not undo what it did. When it ends otherwise than FINISHED or
    NothingCopied, the failing object is the active one afterwards; a mesh
    that no selected object up to it refers to is unchanged, and after
    NoAttributeLayer or CountMismatch so is a mesh that no selected object
    before it refers to. *)
Theorem obj_paste_uv_stops op props sc :
  (obj_paste_uv op props sc).1 ≠ FINISHED →
  (obj_paste_uv op props sc).1 ≠ CANCELLED NothingCopied →
  (∃ o m, objects sc !! active (obj_paste_uv op props sc).2 = Some o
          ∧ obj_select o = true ∧ obj_data o = Some m
          ∧ m < length (meshes sc))
  ∧ (∀ m, (∀ k o, k ≤ active (obj_paste_uv op props sc).2 →
                  objects sc !! k = Some o → obj_select o = true →
                  obj_data o ≠ Some m) →
          meshes (obj_paste_uv op props sc).2 !! m = meshes sc !! m)
  ∧ ((obj_paste_uv op props sc).1 = CANCELLED NoAttributeLayer
     ∨ (obj_paste_uv op props sc).1 = CANCELLED CountMismatch →
     ∀ m, (∀ k o, k < active (obj_paste_uv op props sc).2 →
                  objects sc !! k = Some o → obj_select o = true →
                  obj_data o ≠ Some m) →
          meshes (obj_paste_uv op props sc).2 !! m = meshes sc !! m).
Proof.
  destruct (obj_paste_uv_unfold op props sc) as (-> & _ & -> & -> & _).
  destruct (obj_paste_execute_cases op props sc)
    as [Heq | [(out & sc' & Hloop & Heq) | (sc' & Hloop & Heq)]];
    rewrite Heq; simpl; [done| |done].
  intros _ _.
  apply obj_paste_objects_stop_inv in Hloop
    as (pre & k & o & post & sc1 & m0 & bm & bm' & Htodo & Hpre & Hsel & Hd
        & Hm0 & Hrun & ->).
  apply enumerate_app_inv in Htodo as (Hk & Hko & Hbefore).
  apply obj_paste_objects_frame in Hpre as (_ & Hlen & _ & Hun).
  assert (∀ m, (∀ j o', j < k → objects sc !! j = Some o' →
                        obj_select o' = true → obj_data o' ≠ Some m) →
               meshes sc1 !! m = meshes sc !! m) as Hun'.
  { intros m Hm. apply Hun. intros j o' Hin.
    destruct (Hbefore j o' Hin) as [Hj Ho']. by apply (Hm j). }
  simpl. split; [|split].
  - exists o, m0. split; [done|]. split; [done|]. split; [done|].
    rewrite <- Hlen. by eapply lookup_lt_Some.
  - intros m Hm. rewrite list_lookup_insert_ne.
    + apply Hun'. intros j o' Hj. apply Hm. lia.
    + intros <-. by apply (Hm k o).
  - intros Hout m Hm.
    rewrite (obj_paste_mesh_early _ _ _ _ _ Hrun Hout).
    rewrite list_insert_id by done. by apply Hun'.
Qed.
End ObjectPasteTheorems.

Module ObjectExamples.
Import Examples SceneExamples.
Local Open Scope R_scope.

Lemma obj_paste_uv_read_back_witness :
  ∃ bm' : BMesh R,
    meshes (obj_paste_uv obj_paste (store [tri_bundle 0]) tri_scene).2 !! 0%nat
    = Some bm'
    ∧ map (face_uvs "UVMap") (faces bm') = [[(0, 0); (0 + 1, 0); (0, 1)]].
Proof.
  destruct (obj_paste_uv_read_back obj_paste (store [tri_bundle 0]) tri_scene
              (mkObject (Some 0%nat) true) 0)
    as (bm' & Hbm' & (uv_layer & Hl & Hu & _) & _).
  - by split.
  - reflexivity.
  - apply elem_of_cons. by left.
  - reflexivity.
  - reflexivity.
  - simpl. lia.
  - exists bm'. split; [done|].
    cbv in Hbm'. injection Hbm' as <-. cbv in Hl. injection Hl as <-.
    exact Hu.
Defined.

Lemma obj_paste_uv_never_raises_witness :
  ((obj_paste_uv obj_paste (store [tri_bundle 0]) tri_quad_scene).1 = FINISHED
   ∨ ∃ w, (obj_paste_uv obj_paste (store [tri_bundle 0]) tri_quad_scene).1
          = CANCELLED w ∧ w ≠ NoSelection)
  ∧ mode (obj_paste_uv obj_paste (store [tri_bundle 0]) tri_quad_scene).2
    = "OBJECT".
Proof.
  apply (obj_paste_uv_never_raises obj_paste (store [tri_bundle 0])
           tri_quad_scene 1).
  by repeat split.
Defined.

Lemma obj_paste_uv_unknown_map_witness :
  obj_paste_uv (mkObjPasteOp "Other" true) (store [tri_bundle 0]) tri_scene
  = obj_paste_uv (mkObjPasteOp "" true) (store [tri_bundle 0]) tri_scene.
Proof.
  apply (obj_paste_uv_unknown_map (mkObjPasteOp "Other" true)).
  intros bm Hbm. simpl in Hbm.
  apply elem_of_cons in Hbm as [-> | Hbm];
    [|apply elem_of_cons in Hbm as [-> | Hbm%elem_of_nil]; [|done]];
    simpl; intros Hin%list_elem_of_singleton; discriminate Hin.
Defined.

Lemma obj_paste_uv_stops_witness :
  faces <$> meshes (obj_paste_uv obj_paste (store [tri_bundle 0])
                      tri_quad_scene).2 !! 0%nat
  = Some [written_face "UVMap" (tri false 5 0) (tri_bundle 0)]
  ∧ meshes (obj_paste_uv obj_paste (store [tri_bundle 0]) tri_quad_scene).2
      !! 1%nat
    = Some (mesh [quad false 0 0; tri false 1 4]).
Proof.
  destruct (obj_paste_uv_stops obj_paste (store [tri_bundle 0]) tri_quad_scene)
    as (_ & _ & Hearly).
  - discriminate.
  - discriminate.
  - split; [reflexivity|].
    rewrite Hearly; [reflexivity|by right|].
    intros k o Hk Ho Hsel. change (k < 1)%nat in Hk.
    assert (k = 0%nat) as -> by lia. cbv in Ho. injection Ho as <-.
    discriminate.
Defined.
End ObjectExamples.
